(** * File-Upload-S3-Backend: the upload-orchestration core, embedded in Rocq

    A shallow embedding of [src/services/file.service.ts],
    [src/services/s3.service.ts], [src/utils/id.ts], [src/config/env.ts],
    the list route with its query schema and the controller that feeds it,
    followed by the properties of the specification that were checked
    against them.

    Conventions.
    - A JavaScript string is the list of its UTF-16 code units ([list N]).
    - A JavaScript number is an extended rational ([number]): the code only
      compares and selects numbers, so no rounding is involved.
    - [Date.now()], [Math.random()], the S3 client and the URL signer are
      the operations of a [Platform]; service code is written in a small
      state-and-exception monad over the platform's world, which also logs
      every request handed to the object store.
    - An [async] function is the sequence of its steps, a rejected promise
      is a thrown error; calls of the logger are left out. *)

From Stdlib Require Import ZArith NArith QArith List String Ascii Lia Lra Bool DecimalN.
From stdpp Require Import base gmap strings list.

Ltac Zify.zify_post_hook ::= Z.to_euclidean_division_equations.

Local Open Scope N_scope.

(** ** JavaScript strings *)

Abbreviation jsstring := (list N).

(** The code units of an ASCII literal of the source. *)
Definition js (s : string) : jsstring := map N_of_ascii (list_ascii_of_string s).

Module Chr.
Definition dash : N := 45.
Definition dot : N := 46.
Definition slash : N := 47.
Definition underscore : N := 95.
Definition backslash : N := 92.
Definition comma : N := 44.
Definition percent : N := 37.
Definition quote : N := 34.
End Chr.

Definition in_range (lo hi c : N) : bool := (lo <=? c) && (c <=? hi).

Definition is_digit (c : N) : bool := in_range 48 57 c.
Definition is_lower (c : N) : bool := in_range 97 122 c.
Definition is_upper (c : N) : bool := in_range 65 90 c.

(** The complement of the class [[^a-zA-Z0-9._-]] of [generateSafeKey]. *)
Definition is_safe_char (c : N) : bool :=
  is_lower c || is_upper c || is_digit c
  || (c =? Chr.dot) || (c =? Chr.underscore) || (c =? Chr.dash).

(** [s.split(sep)] for a one-character separator. *)
Fixpoint split (sep : N) (s : jsstring) : list jsstring :=
  match s with
  | [] => [[]]
  | c :: s' =>
      if c =? sep then [] :: split sep s'
      else match split sep s' with
           | seg :: segs => (c :: seg) :: segs
           | [] => [[c]]
           end
  end.

(** [parts.join(sep)]. *)
Fixpoint join (sep : jsstring) (parts : list jsstring) : jsstring :=
  match parts with
  | [] => []
  | [p] => p
  | p :: ps => p ++ sep ++ join sep ps
  end.

(** [a.slice(n)] for [0 <= n]. *)
Definition slice {A} (n : nat) (a : list A) : list A := drop n a.

(** [s.substring(i, j)] for [0 <= i <= j]: both indices are clamped to the
    length of [s]. *)
Definition substring (i j : nat) (s : jsstring) : jsstring := take (j - i) (drop i s).

(** The decimal digits of a non-negative integer, as template literals
    render it. *)
Fixpoint uint_digits (d : Decimal.uint) : jsstring :=
  match d with
  | Decimal.Nil => []
  | Decimal.D0 d => 48 :: uint_digits d
  | Decimal.D1 d => 49 :: uint_digits d
  | Decimal.D2 d => 50 :: uint_digits d
  | Decimal.D3 d => 51 :: uint_digits d
  | Decimal.D4 d => 52 :: uint_digits d
  | Decimal.D5 d => 53 :: uint_digits d
  | Decimal.D6 d => 54 :: uint_digits d
  | Decimal.D7 d => 55 :: uint_digits d
  | Decimal.D8 d => 56 :: uint_digits d
  | Decimal.D9 d => 57 :: uint_digits d
  end.

Definition decimal (n : N) : jsstring := uint_digits (N.to_uint n).

(** One digit of radix 36: [0-9] then [a-z]. *)
Definition digit36 (d : N) : N :=
  let v := d mod 36 in if v <? 10 then 48 + v else 87 + v.

(** [x.toString(36)] for a [Math.random()] result [x], a number of the
    interval [0, 1) given by the digits of its radix-36 fraction (digit
    values are read modulo 36, so every list denotes a rendering): ["0"]
    for zero, ["0."] followed by the digits otherwise.  Radix conversion
    never uses exponent notation. *)
Definition toString36 (fraction : list N) : jsstring :=
  match fraction with
  | [] => js "0"
  | _ => js "0." ++ map digit36 fraction
  end.

(** [s.trim()]: white space and line terminators of ECMAScript. *)
Definition is_whitespace (c : N) : bool :=
  in_range 9 13 c || (c =? 32) || (c =? 160) || (c =? 5760)
  || in_range 8192 8202 c || (c =? 8232) || (c =? 8233) || (c =? 8239)
  || (c =? 8287) || (c =? 12288) || (c =? 65279).

Fixpoint trim_start (s : jsstring) : jsstring :=
  match s with
  | c :: s' => if is_whitespace c then trim_start s' else s
  | [] => []
  end.

Definition trim (s : jsstring) : jsstring := rev (trim_start (rev (trim_start s))).

(** [s.endsWith(c)] for a one-character argument. *)
Definition endsWith (c : N) (s : jsstring) : bool :=
  match rev s with
  | c' :: _ => c' =? c
  | [] => false
  end.

(** [s.replace(pattern, '')] with a string pattern: the leftmost occurrence
    of [pattern] is removed. *)
Fixpoint strip_prefix (p s : jsstring) : option jsstring :=
  match p, s with
  | [], _ => Some s
  | a :: p', b :: s' => if a =? b then strip_prefix p' s' else None
  | _ :: _, [] => None
  end.

Fixpoint replace_first_with_empty (pattern s : jsstring) : jsstring :=
  match strip_prefix pattern s with
  | Some rest => rest
  | None => match s with
            | [] => []
            | c :: s' => c :: replace_first_with_empty pattern s'
            end
  end.

(** ** JavaScript numbers *)

Inductive number :=
| NaN
| NegInfinity
| PosInfinity
| Finite (q : Q).

Definition num (z : Z) : number := Finite (inject_Z z).

(** [a < b]. *)
Definition number_lt (a b : number) : bool :=
  match a, b with
  | NaN, _ | _, NaN => false
  | _, NegInfinity => false
  | NegInfinity, _ => true
  | PosInfinity, _ => false
  | _, PosInfinity => true
  | Finite x, Finite y => negb (Qle_bool y x)
  end.

(** [a > b] and [a <= b]. *)
Definition number_gt (a b : number) : bool := number_lt b a.

Definition number_le (a b : number) : bool :=
  match a, b with
  | NaN, _ | _, NaN => false
  | NegInfinity, _ => true
  | _, PosInfinity => true
  | _, NegInfinity => false
  | PosInfinity, _ => false
  | Finite x, Finite y => Qle_bool x y
  end.

(** Truthiness of a number: [0] and [NaN] are falsy. *)
Definition number_truthy (a : number) : bool :=
  match a with
  | NaN => false
  | Finite q => negb (Qeq_bool q 0)
  | _ => true
  end.

(** [Math.max(a, b)] and [Math.min(a, b)]. *)
Definition Math_max (a b : number) : number :=
  match a, b with
  | NaN, _ | _, NaN => NaN
  | _, _ => if number_lt a b then b else a
  end.

Definition Math_min (a b : number) : number :=
  match a, b with
  | NaN, _ | _, NaN => NaN
  | _, _ => if number_lt b a then b else a
  end.

(** [Number.isInteger(a)]. *)
Definition Number_isInteger (a : number) : bool :=
  match a with
  | Finite q => Pos.eqb (Qden (Qred q)) 1
  | _ => false
  end.

(** [x || d] for an optional number [x]. *)
Definition number_or (x : option number) (d : number) : number :=
  match x with
  | Some a => if number_truthy a then a else d
  | None => d
  end.

(** [x || d] for an optional string [x]: the empty string is falsy. *)
Definition string_or (x : option jsstring) (d : jsstring) : jsstring :=
  match x with
  | Some (c :: s) => c :: s
  | _ => d
  end.


(** ** Built-in codecs of the language

    [encodeURIComponent], [decodeURIComponent], [JSON.stringify] and
    [JSON.parse] follow the algorithms of ECMA-262 (Encode, Decode,
    QuoteJSONString and the JSON grammar).  [None] stands for the
    [URIError] or [SyntaxError] the built-in throws. *)

Module Builtins.

Definition is_lead_surrogate (c : N) : bool := in_range 55296 56319 c.
Definition is_trail_surrogate (c : N) : bool := in_range 56320 57343 c.

(** UTF16SurrogatePairToCodePoint. *)
Definition pair_code_point (lead trail : N) : N :=
  (lead - 55296) * 1024 + (trail - 56320) + 65536.

(** UTF16EncodeCodePoint. *)
Definition utf16 (cp : N) : jsstring :=
  if cp <? 65536 then [cp]
  else [55296 + (cp - 65536) / 1024; 56320 + (cp - 65536) mod 1024].

(** The UTF-8 octets of a code point. *)
Definition utf8 (cp : N) : list N :=
  if cp <? 128 then [cp]
  else if cp <? 2048 then [192 + cp / 64; 128 + cp mod 64]
  else if cp <? 65536 then
    [224 + cp / 4096; 128 + (cp / 64) mod 64; 128 + cp mod 64]
  else
    [240 + cp / 262144; 128 + (cp / 4096) mod 64;
     128 + (cp / 64) mod 64; 128 + cp mod 64].

Definition hex_upper (v : N) : N := if v <? 10 then 48 + v else 55 + v.
Definition hex_lower (v : N) : N := if v <? 10 then 48 + v else 87 + v.

Definition hex_value (c : N) : option N :=
  if is_digit c then Some (c - 48)
  else if in_range 65 70 c then Some (c - 55)
  else if in_range 97 102 c then Some (c - 87)
  else None.

(** ["%XX"] with upper-case digits. *)
Definition percent_octet (b : N) : jsstring :=
  [Chr.percent; hex_upper (b / 16); hex_upper (b mod 16)].

(** uriUnreserved: letters, digits and [- _ . ! ~ * ' ( )]. *)
Definition uri_unreserved (c : N) : bool :=
  is_lower c || is_upper c || is_digit c
  || (c =? 45) || (c =? 95) || (c =? 46) || (c =? 33) || (c =? 126)
  || (c =? 42) || (c =? 39) || (c =? 40) || (c =? 41).

(** Encode(string, "") of ECMA-262: an unpaired surrogate is a
    [URIError]. *)
Fixpoint encodeURIComponent (s : jsstring) : option jsstring :=
  match s with
  | [] => Some []
  | c :: s' =>
      if uri_unreserved c then cons c <$> encodeURIComponent s'
      else if is_trail_surrogate c then None
      else if is_lead_surrogate c then
        match s' with
        | c2 :: s'' =>
            if is_trail_surrogate c2 then
              app (concat (map percent_octet (utf8 (pair_code_point c c2))))
                <$> encodeURIComponent s''
            else None
        | [] => None
        end
      else app (concat (map percent_octet (utf8 c))) <$> encodeURIComponent s'
  end.

(** ParseHexOctet at the head of [s], which follows a ['%']. *)
Definition parse_hex_octet (s : jsstring) : option (N * jsstring) :=
  match s with
  | h :: l :: rest =>
      match hex_value h, hex_value l with
      | Some a, Some b => Some (a * 16 + b, rest)
      | _, _ => None
      end
  | _ => None
  end.

(** The [n] continuation octets ["%XX"] that follow a leading octet. *)
Fixpoint continuation_octets (n : nat) (s : jsstring) : option (list N * jsstring) :=
  match n with
  | O => Some ([], s)
  | S n' =>
      match s with
      | c :: s1 =>
          if c =? Chr.percent then
            match parse_hex_octet s1 with
            | Some (b, s2) =>
                match continuation_octets n' s2 with
                | Some (bs, rest) => Some (b :: bs, rest)
                | None => None
                end
            | None => None
            end
          else None
      | [] => None
      end
  end.

Definition is_continuation (b : N) : bool := in_range 128 191 b.

(** The code point of a well-formed UTF-8 sequence: shortest form, no
    surrogate, at most U+10FFFF. *)
Definition utf8_code_point (octets : list N) : option N :=
  match octets with
  | [b0; b1] =>
      let cp := (b0 - 192) * 64 + (b1 - 128) in
      if is_continuation b1 && (128 <=? cp) then Some cp else None
  | [b0; b1; b2] =>
      let cp := (b0 - 224) * 4096 + (b1 - 128) * 64 + (b2 - 128) in
      if is_continuation b1 && is_continuation b2 && (2048 <=? cp)
         && negb (in_range 55296 57343 cp)
      then Some cp else None
  | [b0; b1; b2; b3] =>
      let cp := (b0 - 240) * 262144 + (b1 - 128) * 4096
                + (b2 - 128) * 64 + (b3 - 128) in
      if is_continuation b1 && is_continuation b2 && is_continuation b3
         && (65536 <=? cp) && (cp <=? 1114111)
      then Some cp else None
  | _ => None
  end.

(** The number of leading 1 bits of an octet. *)
Definition leading_ones (b : N) : nat :=
  if b <? 128 then 0
  else if b <? 192 then 1
  else if b <? 224 then 2
  else if b <? 240 then 3
  else if b <? 248 then 4
  else 5.

(** One step of Decode: the code units of the next character and the
    rest of the input. *)
Definition decode_step (c : N) (s : jsstring) : option (jsstring * jsstring) :=
  if c =? Chr.percent then
    match parse_hex_octet s with
    | Some (b, s1) =>
        match leading_ones b with
        | 0%nat => Some ([b], s1)
        | 1%nat => None
        | S (S n as n1) =>
            if (3 <=? n)%nat then None
            else
              match continuation_octets n1 s1 with
              | Some (bs, rest) =>
                  match utf8_code_point (b :: bs) with
                  | Some cp => Some (utf16 cp, rest)
                  | None => None
                  end
              | None => None
              end
        end
    | None => None
    end
  else Some ([c], s).

Fixpoint decode_loop (fuel : nat) (s : jsstring) : option jsstring :=
  match s with
  | [] => Some []
  | c :: s' =>
      match fuel with
      | O => None
      | S fuel' =>
          match decode_step c s' with
          | Some (units, rest) => app units <$> decode_loop fuel' rest
          | None => None
          end
      end
  end.

(** Decode(string, "") of ECMA-262.  Every step consumes at least one
    code unit, so the length of the input is enough fuel. *)
Definition decodeURIComponent (s : jsstring) : option jsstring :=
  decode_loop (length s) s.

End Builtins.

(** ** JSON *)

#[local] Set Warnings "-register-all".

Inductive json :=
| JNull
| JBool (b : bool)
| JNumber (literal : jsstring)
| JString (s : jsstring)
| JArray (items : list json)
| JObject (members : list (jsstring * json)).

Module JSON.
Import Builtins.

(** ["\uXXXX"] with lower-case digits (UnicodeEscape). *)
Definition unicode_escape (c : N) : jsstring :=
  [Chr.backslash; 117; hex_lower (c / 4096); hex_lower ((c / 256) mod 16);
   hex_lower ((c / 16) mod 16); hex_lower (c mod 16)].

(** A code unit other than an unpaired surrogate, inside a quoted
    string: the two-character escapes of the table of QuoteJSONString, a
    unicode escape for the other control characters, the unit itself
    otherwise. *)
Definition quote_unit (c : N) : jsstring :=
  if c =? 8 then [Chr.backslash; 98]
  else if c =? 9 then [Chr.backslash; 116]
  else if c =? 10 then [Chr.backslash; 110]
  else if c =? 12 then [Chr.backslash; 102]
  else if c =? 13 then [Chr.backslash; 114]
  else if c =? Chr.quote then [Chr.backslash; Chr.quote]
  else if c =? Chr.backslash then [Chr.backslash; Chr.backslash]
  else if c <? 32 then unicode_escape c
  else [c].

(** The body of QuoteJSONString: a surrogate pair is copied, an unpaired
    surrogate is escaped. *)
Fixpoint quote_body (s : jsstring) : jsstring :=
  match s with
  | [] => []
  | c :: s' =>
      if is_lead_surrogate c then
        match s' with
        | c2 :: s'' =>
            if is_trail_surrogate c2 then c :: c2 :: quote_body s''
            else unicode_escape c ++ quote_body s'
        | [] => unicode_escape c
        end
      else if is_trail_surrogate c then unicode_escape c ++ quote_body s'
      else quote_unit c ++ quote_body s'
  end.

Definition quote (s : jsstring) : jsstring :=
  Chr.quote :: quote_body s ++ [Chr.quote].

(** [JSON.stringify(a)] for an array [a] of strings. *)
Definition stringify (a : list jsstring) : jsstring :=
  js "[" ++ join (js ",") (map quote a) ++ js "]".

Fixpoint skip_ws (s : jsstring) : jsstring :=
  match s with
  | c :: s' =>
      if (c =? 9) || (c =? 10) || (c =? 13) || (c =? 32) then skip_ws s' else s
  | [] => []
  end.

Definition hex4 (a b c d : N) : option N :=
  match hex_value a, hex_value b, hex_value c, hex_value d with
  | Some x, Some y, Some z, Some w => Some (((x * 16 + y) * 16 + z) * 16 + w)
  | _, _, _, _ => None
  end.

Definition escape_value (e : N) : option N :=
  if (e =? Chr.quote) || (e =? Chr.backslash) || (e =? Chr.slash) then Some e
  else if e =? 98 then Some 8
  else if e =? 102 then Some 12
  else if e =? 110 then Some 10
  else if e =? 114 then Some 13
  else if e =? 116 then Some 9
  else None.

(** The characters of a JSON string after its opening quote, and the
    input after its closing quote. *)
Fixpoint parse_string_body (s : jsstring) : option (jsstring * jsstring) :=
  match s with
  | [] => None
  | c :: s1 =>
      if c =? Chr.quote then Some ([], s1)
      else if c =? Chr.backslash then
        match s1 with
        | e :: s2 =>
            if e =? 117 then
              match s2 with
              | h1 :: h2 :: h3 :: h4 :: s3 =>
                  match hex4 h1 h2 h3 h4, parse_string_body s3 with
                  | Some u, Some (str, rest) => Some (u :: str, rest)
                  | _, _ => None
                  end
              | _ => None
              end
            else
              match escape_value e, parse_string_body s2 with
              | Some u, Some (str, rest) => Some (u :: str, rest)
              | _, _ => None
              end
        | [] => None
        end
      else if c <? 32 then None
      else
        match parse_string_body s1 with
        | Some (str, rest) => Some (c :: str, rest)
        | None => None
        end
  end.

Fixpoint span (p : N → bool) (s : jsstring) : jsstring * jsstring :=
  match s with
  | c :: s' => if p c then let '(a, b) := span p s' in (c :: a, b) else ([], s)
  | [] => ([], [])
  end.

(** One or more digits. *)
Definition digits1 (s : jsstring) : option (jsstring * jsstring) :=
  match span is_digit s with
  | ([], _) => None
  | r => Some r
  end.

(** A JSON number; its literal is kept as written. *)
Definition parse_number (s : jsstring) : option (jsstring * jsstring) :=
  let '(sign, s0) :=
    match s with
    | c :: r => if c =? Chr.dash then ([c], r) else ([], s)
    | [] => ([], s)
    end in
  '(int, s1) ←
    match s0 with
    | c :: r => if c =? 48 then Some ([c], r) else digits1 s0
    | [] => None
    end;
  '(frac, s2) ←
    match s1 with
    | c :: r =>
        if c =? Chr.dot then '(d, r') ← digits1 r; Some (c :: d, r')
        else Some ([], s1)
    | [] => Some ([], s1)
    end;
  '(exp, s3) ←
    match s2 with
    | c :: r =>
        if (c =? 101) || (c =? 69) then
          let '(sg, r0) :=
            match r with
            | c' :: r' => if (c' =? 43) || (c' =? 45) then ([c'], r') else ([], r)
            | [] => ([], r)
            end in
          '(d, r') ← digits1 r0; Some (c :: sg ++ d, r')
        else Some ([], s2)
    | [] => Some ([], s2)
    end;
  Some (sign ++ int ++ frac ++ exp, s3).

Fixpoint parse_value (fuel : nat) (s : jsstring) : option (json * jsstring) :=
  match fuel with
  | O => None
  | S f =>
      match skip_ws s with
      | [] => None
      | c :: r =>
          if c =? Chr.quote then
            '(str, rest) ← parse_string_body r; Some (JString str, rest)
          else if c =? 91 then
            match skip_ws r with
            | c' :: r' =>
                if c' =? 93 then Some (JArray [], r')
                else '(vs, rest) ← parse_elements f r; Some (JArray vs, rest)
            | [] => None
            end
          else if c =? 123 then
            match skip_ws r with
            | c' :: r' =>
                if c' =? 125 then Some (JObject [], r')
                else '(ms, rest) ← parse_members f r; Some (JObject ms, rest)
            | [] => None
            end
          else if c =? 116 then rest ← strip_prefix (js "rue") r; Some (JBool true, rest)
          else if c =? 102 then rest ← strip_prefix (js "alse") r; Some (JBool false, rest)
          else if c =? 110 then rest ← strip_prefix (js "ull") r; Some (JNull, rest)
          else '(lit, rest) ← parse_number (c :: r); Some (JNumber lit, rest)
      end
  end
with parse_elements (fuel : nat) (s : jsstring) : option (list json * jsstring) :=
  match fuel with
  | O => None
  | S f =>
      '(v, s1) ← parse_value f s;
      match skip_ws s1 with
      | c :: r =>
          if c =? Chr.comma then '(vs, rest) ← parse_elements f r; Some (v :: vs, rest)
          else if c =? 93 then Some ([v], r)
          else None
      | [] => None
      end
  end
with parse_members (fuel : nat) (s : jsstring)
  : option (list (jsstring * json) * jsstring) :=
  match fuel with
  | O => None
  | S f =>
      match skip_ws s with
      | q :: s0 =>
          if q =? Chr.quote then
            '(k, s1) ← parse_string_body s0;
            match skip_ws s1 with
            | colon :: s2 =>
                if colon =? 58 then
                  '(v, s3) ← parse_value f s2;
                  match skip_ws s3 with
                  | c :: r =>
                      if c =? Chr.comma then
                        '(ms, rest) ← parse_members f r; Some ((k, v) :: ms, rest)
                      else if c =? 125 then Some ([(k, v)], r)
                      else None
                  | [] => None
                  end
                else None
            | [] => None
            end
          else None
      | [] => None
      end
  end.

(** [JSON.parse(text)]: one value, surrounded by optional white space.
    Each nested call has consumed a character at least every other
    step, so twice the length of the text is enough fuel.  The members
    of an object are kept in the order of the text. *)
Definition parse (text : jsstring) : option json :=
  match parse_value (S (2 * length text)) text with
  | Some (v, rest) =>
      match skip_ws rest with
      | [] => Some v
      | _ :: _ => None
      end
  | None => None
  end.

End JSON.

(** ** Configuration ([src/config/env.ts]) *)

(** The environment after [envSchema.parse]: numeric settings are positive
    integers, the MIME lists are comma-separated strings. *)
Record Env := {
  S3_BUCKET_NAME : jsstring;
  S3_PREFIX : jsstring;
  PRESIGN_EXPIRY_SECONDS : N;
  PRESIGN_GET_EXPIRY_SECONDS : N;
  MAX_FILE_SIZE_MB : N;
  ALLOWED_IMAGE_TYPES : jsstring;
  ALLOWED_VIDEO_TYPES : jsstring;
  ALLOWED_DOCUMENT_TYPES : jsstring;
  ALLOWED_AUDIO_TYPES : jsstring;
}.

(** [list.split(',').map((t) => t.trim())]. *)
Definition mime_list (s : jsstring) : list jsstring := map trim (split Chr.comma s).

Module config.
Section Config.
Variable env : Env.

Definition bucketName : jsstring := S3_BUCKET_NAME env.

Definition prefix : jsstring :=
  if endsWith Chr.slash (S3_PREFIX env) then S3_PREFIX env
  else S3_PREFIX env ++ js "/".

Definition uploadExpirySeconds : N := PRESIGN_EXPIRY_SECONDS env.
Definition getExpirySeconds : N := PRESIGN_GET_EXPIRY_SECONDS env.

Definition maxFileSizeMB : N := MAX_FILE_SIZE_MB env.
Definition maxFileSizeBytes : N := MAX_FILE_SIZE_MB env * 1024 * 1024.

Definition images : list jsstring := mime_list (ALLOWED_IMAGE_TYPES env).
Definition videos : list jsstring := mime_list (ALLOWED_VIDEO_TYPES env).
Definition documents : list jsstring := mime_list (ALLOWED_DOCUMENT_TYPES env).
Definition audio : list jsstring := mime_list (ALLOWED_AUDIO_TYPES env).

Definition allAllowedTypes : list jsstring :=
  mime_list (ALLOWED_IMAGE_TYPES env)
  ++ mime_list (ALLOWED_VIDEO_TYPES env)
  ++ mime_list (ALLOWED_DOCUMENT_TYPES env)
  ++ mime_list (ALLOWED_AUDIO_TYPES env).
End Config.
End config.

(** ** Types ([src/types/index.ts]) *)

(** [FileMetadata]; [T] is the type of [tags]: [list jsstring] for a
    request that passed the schema, [json] for what [JSON.parse] gave
    back.  [extension] holds the properties admitted by the index
    signature. *)
Record FileMetadataOf (T : Type) := {
  userId : option jsstring;
  originalFilename : option jsstring;
  tags : option T;
  isPublic : option bool;
  description : option jsstring;
  extension : gmap string json;
}.
Arguments userId {T} _.
Arguments originalFilename {T} _.
Arguments tags {T} _.
Arguments isPublic {T} _.
Arguments description {T} _.
Arguments extension {T} _.

Abbreviation FileMetadata := (FileMetadataOf (list jsstring)).
Abbreviation StoredMetadata := (FileMetadataOf json).

(** The empty object [{}]. *)
Definition no_metadata {T} : FileMetadataOf T :=
  {| userId := None; originalFilename := None; tags := None;
     isPublic := None; description := None; extension := ∅ |}.

Record PresignUploadRequest := {
  filename : jsstring;
  contentType : jsstring;
  size : option number;
  metadata : option FileMetadata;
}.

(** Time values are milliseconds since the epoch; an ISO-8601 string
    ([toISOString]) is given by the time value it renders. *)
Record PresignUploadResponse := {
  uploadUrl : jsstring;
  uploadMethod : string;
  upload_key : jsstring;
  upload_expiresAt : Z;
  fileId : option jsstring;
}.

Record PresignGetResponse := {
  get_url : jsstring;
  get_expiresAt : Z;
}.

Record FileRecord := {
  rec_key : jsstring;
  rec_filename : jsstring;
  rec_contentType : jsstring;
  rec_size : number;
  rec_uploadedAt : N;
}.

Record ListFilesQuery := {
  q_userId : option jsstring;
  q_tags : option jsstring;
  q_page : option number;
  q_limit : option number;
  q_prefix : option jsstring;
}.

Record Pagination := {
  page : number;
  limit : number;
  total : nat;
  hasMore : bool;
}.

Record ListFilesResponse := {
  files : list FileRecord;
  pagination : Pagination;
}.

Record UploadCompleteRequest := {
  complete_key : jsstring;
  complete_metadata : option FileMetadata;
}.

Record UploadCompleteResponse := {
  success : bool;
  message : string;
  completed_key : jsstring;
}.

(** ** Errors *)

(** The text of an error message is a template over these values. *)
Inductive error_message :=
| ContentTypeNotAllowed (contentType : jsstring) (allowed : list jsstring)
| FileSizeExceeds (size : number) (maxBytes maxMB : N)
| FileNotFound (key : jsstring)
| ValidationFailed (paths : list string).

(** What a [throw] carries: the application errors, the errors of the
    built-in codecs and the errors of the storage client, told apart by
    their [name]. *)
Inductive exn :=
| ValidationError (m : error_message)
| NotFoundError (m : error_message)
| S3Error (m : string) (cause : exn)
| URIError
| SyntaxError
| SdkError (name : jsstring)
| RangeError.

(** Modelled from the spec: the error classes of [src/utils/errors.ts] are
    not among the sources; section 7 of the specification gives
    [ValidationError] the status 400 and [NotFoundError] the status 404,
    and fixes no single status for the others. *)
Definition statusCode (e : exn) : option N :=
  match e with
  | ValidationError _ => Some 400
  | NotFoundError _ => Some 404
  | _ => None
  end.

(** ** The object store and the platform *)

Inductive jsval :=
| VUndefined
| VString (s : jsstring)
| VNumber (n : number).

(** A command of the storage client with its input object. *)
Inductive command :=
| PutObjectCommand (input : gmap string jsval)
| GetObjectCommand (input : gmap string jsval)
| DeleteObjectCommand (input : gmap string jsval)
| HeadObjectCommand (input : gmap string jsval)
| ListObjectsV2Command (input : gmap string jsval).

Record HeadObjectOutput := {
  Metadata : option (gmap string jsstring);
  ContentType : option jsstring;
  ContentLength : option number;
  LastModified : option N;
}.

Record S3Object := {
  Key : option jsstring;
  Size : option number;
  ObjectLastModified : option N;
}.

Record ListObjectsV2Output := {
  Contents : option (list S3Object);
  NextContinuationToken : option jsstring;
  IsTruncated : option bool;
}.

(** A request handed to the object store: a command sent through the
    client, or a command given to the signer with its [expiresIn]. *)
Inductive store_call :=
| Send (c : command)
| Sign (c : command) (expiresIn : N).

(** What the code takes from its surroundings.  [Math_random] yields the
    radix-36 fraction digits of the number drawn (see [toString36]);
    [Number] is the conversion of a query-string value to a number;
    [LocalTZA t isUTC] is the offset of the local time zone in
    milliseconds at the time [t], which is a UTC time value when [isUTC]
    holds and a local one otherwise (LocalTime and UTC of ECMA-262). *)
Class Platform := {
  World : Type;
  Date_now : World → N * World;
  Math_random : World → list N * World;
  Number : jsstring → number;
  send_head : gmap string jsval → World → (exn + HeadObjectOutput) * World;
  send_delete : gmap string jsval → World → (exn + unit) * World;
  send_list : gmap string jsval → World → (exn + ListObjectsV2Output) * World;
  getSignedUrl : command → N → World → (exn + jsstring) * World;
  LocalTZA : Z → bool → Z;
}.

(** ** The monad of service code *)

Inductive outcome (A : Type) :=
| Return (a : A)
| Throw (e : exn).
Arguments Return {A} a.
Arguments Throw {A} e.

Record St `{Platform} := {
  world : World;
  calls : list store_call;
}.

Definition M `{Platform} (A : Type) : Type := St → outcome A * St.

Definition ret `{Platform} {A} (a : A) : M A := fun st => (Return a, st).

Definition throw `{Platform} {A} (e : exn) : M A := fun st => (Throw e, st).

Definition bind `{Platform} {A B} (m : M A) (k : A → M B) : M B :=
  fun st =>
    match m st with
    | (Return a, st') => k a st'
    | (Throw e, st') => (Throw e, st')
    end.

(** [try { m } catch (error) { handler(error) }]. *)
Definition try_catch `{Platform} {A} (m : M A) (handler : exn → M A) : M A :=
  fun st =>
    match m st with
    | (Return a, st') => (Return a, st')
    | (Throw e, st') => handler e st'
    end.

Definition lift `{Platform} {A} (o : outcome A) : M A := fun st => (o, st).

Declare Scope M_scope.
Delimit Scope M_scope with M.
Notation "x <- m ;; k" := (bind m (fun x => k))
  (at level 100, m at next level, right associativity) : M_scope.

(** Reading the environment. *)
Definition observe `{Platform} {A} (f : World → A * World) : M A :=
  fun st =>
    let '(a, w) := f (world st) in
    (Return a, {| world := w; calls := calls st |}).

(** Handing the request [c] to the store: it is logged, and the store
    answers or throws. *)
Definition request `{Platform} {A} (c : store_call) (f : World → (exn + A) * World)
  : M A :=
  fun st =>
    let '(r, w) := f (world st) in
    (match r with inl e => Throw e | inr a => Return a end,
     {| world := w; calls := calls st ++ [c] |}).

Fixpoint mapM `{Platform} {A B} (f : A → M B) (l : list A) : M (list B) :=
  match l with
  | [] => ret []
  | a :: l' => (b <- f a ;; bs <- mapM f l' ;; ret (b :: bs))%M
  end.

Definition obind {A B} (o : outcome A) (k : A → outcome B) : outcome B :=
  match o with
  | Return a => k a
  | Throw e => Throw e
  end.

(** ** Dates

    A [Date] object is its time value, [None] when the date is invalid. *)

(** TimeClip of ECMA-262. *)
Definition TimeClip (t : Z) : option Z :=
  if (Z.abs t <=? 8640000000000000)%Z then Some t else None.

(** [date.setSeconds(date.getSeconds() + seconds)] on the date [new
    Date()] made at the clock reading [now], for an integer [seconds]:
    the local time of [now] with its seconds field replaced, which
    MakeTime and MakeDate turn into that local time plus [seconds]
    seconds, read back as a UTC time value.  The values are integers, so
    the sums are exact wherever the result is a time value. *)
Definition setSeconds_getSeconds_plus `{Platform} (now seconds : N) : option Z :=
  let t := (Z.of_N now + LocalTZA (Z.of_N now) true)%Z in
  let date := (t + Z.of_N seconds * 1000)%Z in
  TimeClip (date - LocalTZA date false)%Z.

(** [date.toISOString()]: a [RangeError] on an invalid date. *)
Definition toISOString `{Platform} (date : option Z) : M Z :=
  match date with
  | Some t => ret t
  | None => throw RangeError
  end.

(** ** [src/utils/id.ts] *)

(** [`${Date.now()}-${Math.random().toString(36).substring(2, 11)}`]. *)
Definition generateFileId `{Platform} : M jsstring :=
  (now <- observe Date_now ;;
   r <- observe Math_random ;;
   ret (decimal now ++ js "-" ++ substring 2 11 (toString36 r)))%M.

(** ** [src/services/s3.service.ts] *)

Module S3Service.
Section S3Service.
Context `{Platform}.
Variable env : Env.

Definition encodeURIComponent (s : jsstring) : outcome jsstring :=
  match Builtins.encodeURIComponent s with
  | Some e => Return e
  | None => Throw URIError
  end.

Definition decodeURIComponent (s : jsstring) : outcome jsstring :=
  match Builtins.decodeURIComponent s with
  | Some d => Return d
  | None => Throw URIError
  end.

Definition JSON_parse (s : jsstring) : outcome json :=
  match JSON.parse s with
  | Some v => Return v
  | None => Throw SyntaxError
  end.

(** [isPublic.toString()]. *)
Definition bool_toString (b : bool) : jsstring :=
  if b then js "true" else js "false".

(** [if (value) headers[name] = value]: a property is set when the
    guard of its line holds. *)
Definition set_if_present {V} (name : string) (value : option V)
    (headers : gmap string V) : gmap string V :=
  match value with
  | Some v => <[name := v]> headers
  | None => headers
  end.

(** A string that passes a truthiness guard: present and not empty. *)
Definition truthy (x : option jsstring) : option jsstring :=
  match x with
  | Some (c :: s) => Some (c :: s)
  | _ => None
  end.

(** [encodeURIComponent(x)] behind the guard [if (x)]. *)
Definition encoded (x : option jsstring) : outcome (option jsstring) :=
  match truthy x with
  | Some s => obind (encodeURIComponent s) (fun e => Return (Some e))
  | None => Return None
  end.

(** The metadata headers built by [generatePresignedUploadUrl]. *)
Definition metadataHeaders (metadata : option FileMetadata)
  : outcome (gmap string jsstring) :=
  match metadata with
  | None => Return ∅
  | Some m =>
      let h := set_if_present "x-amz-meta-user-id" (truthy (userId m)) ∅ in
      obind (encoded (originalFilename m)) (fun f =>
      let h := set_if_present "x-amz-meta-original-filename" f h in
      let h := set_if_present "x-amz-meta-tags" (JSON.stringify <$> tags m) h in
      let h := set_if_present "x-amz-meta-is-public" (bool_toString <$> isPublic m) h in
      obind (encoded (description m)) (fun d =>
      Return (set_if_present "x-amz-meta-description" d h)))
  end.

(** The input of the [PutObjectCommand]: the three named properties,
    then the spread of the metadata headers, then the spread of
    [maxSizeBytes && { ContentLength: maxSizeBytes }]. *)
Definition put_input (fullKey contentType : jsstring)
    (headers : gmap string jsstring) (maxSizeBytes : option number)
  : gmap string jsval :=
  let named : gmap string jsval :=
    <["ContentType" := VString contentType]>
      (<["Key" := VString fullKey]>
         (<["Bucket" := VString (config.bucketName env)]> ∅)) in
  let with_headers := (VString <$> headers) ∪ named in
  match maxSizeBytes with
  | Some n =>
      if number_truthy n then <["ContentLength" := VNumber n]> with_headers
      else with_headers
  | None => with_headers
  end.

(** [expiresAt.setSeconds(expiresAt.getSeconds() + expiresIn)] on
    [new Date()]. *)
Definition expiry (expiresIn : N) : M (option Z) :=
  (now <- observe Date_now ;; ret (setSeconds_getSeconds_plus now expiresIn))%M.

Definition generatePresignedUploadUrl (key contentType : jsstring)
    (metadata : option FileMetadata) (maxSizeBytes : option number)
  : M (jsstring * option Z) :=
  try_catch
    (let fullKey := config.prefix env ++ key in
     let expiresIn := config.uploadExpirySeconds env in
     headers <- lift (metadataHeaders metadata) ;;
     let command := PutObjectCommand (put_input fullKey contentType headers maxSizeBytes) in
     url <- request (Sign command expiresIn) (getSignedUrl command expiresIn) ;;
     expiresAt <- expiry expiresIn ;;
     ret (url, expiresAt))%M
    (fun error => throw (S3Error "Failed to generate presigned upload URL" error)).

Definition object_input (fullKey : jsstring) : gmap string jsval :=
  <["Key" := VString fullKey]>
    (<["Bucket" := VString (config.bucketName env)]> ∅).

Definition generatePresignedGetUrl (key : jsstring) : M (jsstring * option Z) :=
  try_catch
    (let fullKey := config.prefix env ++ key in
     let expiresIn := config.getExpirySeconds env in
     let command := GetObjectCommand (object_input fullKey) in
     url <- request (Sign command expiresIn) (getSignedUrl command expiresIn) ;;
     expiresAt <- expiry expiresIn ;;
     ret (url, expiresAt))%M
    (fun error => throw (S3Error "Failed to generate presigned GET URL" error)).

Definition deleteFile (key : jsstring) : M unit :=
  try_catch
    (let fullKey := config.prefix env ++ key in
     let input := object_input fullKey in
     request (Send (DeleteObjectCommand input)) (send_delete input))
    (fun error => throw (S3Error "Failed to delete file from S3" error)).

(** [decodeURIComponent(x)] behind the guard [if (x)]. *)
Definition decoded (x : option jsstring) : outcome (option jsstring) :=
  match truthy x with
  | Some s => obind (decodeURIComponent s) (fun d => Return (Some d))
  | None => Return None
  end.

(** [JSON.parse(x)] behind the guard [if (x)]. *)
Definition parsed (x : option jsstring) : outcome (option json) :=
  match truthy x with
  | Some s => obind (JSON_parse s) (fun v => Return (Some v))
  | None => Return None
  end.

(** The custom metadata extracted by [getFileMetadata]. *)
Definition extractMetadata (response_Metadata : option (gmap string jsstring))
  : outcome StoredMetadata :=
  match response_Metadata with
  | None => Return no_metadata
  | Some md =>
      let userId := truthy (md !! "user-id") in
      obind (decoded (md !! "original-filename")) (fun originalFilename =>
      obind (parsed (md !! "tags")) (fun tags =>
      let isPublic :=
        (fun p => bool_decide (p = js "true")) <$> truthy (md !! "is-public") in
      obind (decoded (md !! "description")) (fun description =>
      Return {| userId := userId; originalFilename := originalFilename;
                tags := tags; isPublic := isPublic;
                description := description; extension := ∅ |})))
  end.

(** [Object.keys(metadata).length > 0]. *)
Definition has_keys {T} (m : FileMetadataOf T) : bool :=
  bool_decide (is_Some (userId m)) || bool_decide (is_Some (originalFilename m))
  || match tags m with Some _ => true | None => false end
  || bool_decide (is_Some (isPublic m))
  || bool_decide (is_Some (description m))
  || negb (bool_decide (extension m = ∅)).

Record FileInfo := {
  exists_ : bool;
  info_contentType : option jsstring;
  info_size : option number;
  info_metadata : option StoredMetadata;
  info_lastModified : option N;
}.

(** [error.name === 'NotFound']. *)
Definition is_NotFound (error : exn) : bool :=
  match error with
  | SdkError name => bool_decide (name = js "NotFound")
  | _ => false
  end.

Definition getFileMetadata (key : jsstring) : M FileInfo :=
  try_catch
    (let fullKey := config.prefix env ++ key in
     let input := object_input fullKey in
     response <- request (Send (HeadObjectCommand input)) (send_head input) ;;
     metadata <- lift (extractMetadata (Metadata response)) ;;
     ret {| exists_ := true;
            info_contentType := ContentType response;
            info_size := ContentLength response;
            info_metadata := if has_keys metadata then Some metadata else None;
            info_lastModified := LastModified response |})%M
    (fun error =>
       if is_NotFound error then
         ret {| exists_ := false; info_contentType := None; info_size := None;
                info_metadata := None; info_lastModified := None |}
       else throw (S3Error "Failed to get file metadata" error)).

Record ListedFile := {
  listed_key : jsstring;
  listed_size : number;
  listed_lastModified : N;
  listed_contentType : option jsstring;
}.

Record ListResult := {
  listed_files : list ListedFile;
  nextContinuationToken : option jsstring;
  isTruncated : bool;
}.

Definition list_input (searchPrefix : jsstring) (maxKeys : number)
    (continuationToken : option jsstring) : gmap string jsval :=
  <["ContinuationToken" :=
      match continuationToken with Some t => VString t | None => VUndefined end]>
    (<["MaxKeys" := VNumber maxKeys]>
       (<["Prefix" := VString searchPrefix]>
          (<["Bucket" := VString (config.bucketName env)]> ∅))).

Definition listed_file (object : S3Object) : M ListedFile :=
  (lastModified <-
     match ObjectLastModified object with
     | Some t => ret t
     | None => observe Date_now
     end ;;
   ret {| listed_key :=
            string_or
              (replace_first_with_empty (config.prefix env) <$> Key object) [];
          listed_size := number_or (Size object) (num 0);
          listed_lastModified := lastModified;
          listed_contentType := None |})%M.

Definition listFiles (prefix : option jsstring) (maxKeys : number)
    (continuationToken : option jsstring) : M ListResult :=
  try_catch
    (let searchPrefix :=
       match prefix with
       | Some (c :: p) => config.prefix env ++ c :: p
       | _ => config.prefix env
       end in
     let input := list_input searchPrefix maxKeys continuationToken in
     response <- request (Send (ListObjectsV2Command input)) (send_list input) ;;
     files <-
       match Contents response with
       | Some objects => mapM listed_file objects
       | None => ret []
       end ;;
     ret {| listed_files := files;
            nextContinuationToken := NextContinuationToken response;
            isTruncated :=
              match IsTruncated response with Some b => b | None => false end |})%M
    (fun error => throw (S3Error "Failed to list files" error)).

End S3Service.
End S3Service.

(** ** [src/services/file.service.ts] *)

Module FileService.
Section FileService.
Context `{Platform}.
Variable env : Env.

(** [allAllowedTypes.includes(contentType)]. *)
Definition includes (l : list jsstring) (x : jsstring) : bool :=
  existsb (fun y => bool_decide (y = x)) l.

Definition validateMimeType (contentType : jsstring) : M unit :=
  if negb (includes (config.allAllowedTypes env) contentType) then
    throw (ValidationError
             (ContentTypeNotAllowed contentType (config.allAllowedTypes env)))
  else ret ().

Definition validateFileSize (size : option number) : M unit :=
  match size with
  | Some size =>
      if number_gt size (Finite (inject_Z (Z.of_N (config.maxFileSizeBytes env)))) then
        throw (ValidationError
                 (FileSizeExceeds size (config.maxFileSizeBytes env)
                    (config.maxFileSizeMB env)))
      else ret ()
  | None => ret ()
  end.

(** [filename.replace(/[^a-zA-Z0-9._-]/g, '_')]. *)
Definition sanitize (filename : jsstring) : jsstring :=
  map (fun c => if is_safe_char c then c else Chr.underscore) filename.

Definition generateSafeKey (filename : jsstring) (fileId : option jsstring)
  : M jsstring :=
  (let sanitized := sanitize filename in
   timestamp <- observe Date_now ;;
   id <- match fileId with
         | Some (c :: i) => ret (c :: i)
         | _ => generateFileId
         end ;;
   ret (decimal timestamp ++ js "-" ++ id ++ js "-" ++ sanitized))%M.

(** [{ ...request.metadata, originalFilename: request.filename }]. *)
Definition with_originalFilename (metadata : option FileMetadata)
    (filename : jsstring) : FileMetadata :=
  let m := match metadata with Some m => m | None => no_metadata end in
  {| userId := userId m; originalFilename := Some filename; tags := tags m;
     isPublic := isPublic m; description := description m;
     extension := extension m |}.

Definition generatePresignedUploadUrl (request : PresignUploadRequest)
  : M PresignUploadResponse :=
  (_ <- validateMimeType (contentType request) ;;
   _ <- validateFileSize (size request) ;;
   fileId <- generateFileId ;;
   key <- generateSafeKey (filename request) (Some fileId) ;;
   r <- S3Service.generatePresignedUploadUrl env key (contentType request)
          (Some (with_originalFilename (metadata request) (filename request)))
          (size request) ;;
   expiresAt <- toISOString r.2 ;;
   ret {| uploadUrl := r.1; uploadMethod := "PUT"; upload_key := key;
          upload_expiresAt := expiresAt; fileId := Some fileId |})%M.

Definition generatePresignedGetUrl (key : jsstring) : M PresignGetResponse :=
  (metadata <- S3Service.getFileMetadata env key ;;
   if negb (S3Service.exists_ metadata) then
     throw (NotFoundError (FileNotFound key))
   else
     r <- S3Service.generatePresignedGetUrl env key ;;
     expiresAt <- toISOString r.2 ;;
     ret {| get_url := r.1; get_expiresAt := expiresAt |})%M.

(** [file.key.split('-').slice(2).join('-')]. *)
Definition filename_of_key (key : jsstring) : jsstring :=
  join (js "-") (slice 2 (split Chr.dash key)).

Definition file_record (file : S3Service.ListedFile) : FileRecord :=
  {| rec_key := S3Service.listed_key file;
     rec_filename := filename_of_key (S3Service.listed_key file);
     rec_contentType :=
       string_or (S3Service.listed_contentType file) (js "application/octet-stream");
     rec_size := S3Service.listed_size file;
     rec_uploadedAt := S3Service.listed_lastModified file |}.

Definition listFiles (query : ListFilesQuery) : M ListFilesResponse :=
  (let page := Math_max (num 1) (number_or (q_page query) (num 1)) in
   let limit :=
     Math_min (num 100) (Math_max (num 1) (number_or (q_limit query) (num 20))) in
   let prefix := string_or (q_prefix query) [] in
   result <- S3Service.listFiles env (Some prefix) limit None ;;
   let files := map file_record (S3Service.listed_files result) in
   let _ :=
     match q_tags query with
     | Some (c :: t) => map trim (split Chr.comma (c :: t))
     | _ => []
     end in
   ret {| files := files;
          pagination :=
            {| page := page; limit := limit; total := length files;
               hasMore := S3Service.isTruncated result |} |})%M.

Definition deleteFile (key : jsstring) : M unit :=
  (metadata <- S3Service.getFileMetadata env key ;;
   if negb (S3Service.exists_ metadata) then
     throw (NotFoundError (FileNotFound key))
   else S3Service.deleteFile env key)%M.

Definition handleUploadComplete (request : UploadCompleteRequest)
  : M UploadCompleteResponse :=
  (metadata <- S3Service.getFileMetadata env (complete_key request) ;;
   if negb (S3Service.exists_ metadata) then
     throw (NotFoundError (FileNotFound (complete_key request)))
   else
     ret {| success := true; message := "Upload completed successfully";
            completed_key := complete_key request |})%M.

End FileService.
End FileService.

(** ** The route [GET /files]

    [validate(listFilesQuerySchema, 'query')] followed by
    [FileController.listFiles]. *)

Module FilesRoute.
Section FilesRoute.
Context `{Platform}.
Variable env : Env.

(** [req.query], each value as the string the client sent, and the
    [userId] of [req.user] when the request is authenticated. *)
Record ListRequest := {
  raw_userId : option jsstring;
  raw_tags : option jsstring;
  raw_page : option jsstring;
  raw_limit : option jsstring;
  raw_prefix : option jsstring;
  user : option jsstring;
}.

(** The issues of [z.coerce.number().int().positive()], with
    [.max(100)] when [max100] is set, on a present value; each issue is
    reported under the path of the field. *)
Definition number_issues (path : string) (max100 : bool) (raw : jsstring)
  : list string :=
  match Number raw with
  | NaN => [path]
  | n =>
      (if Number_isInteger n then [] else [path])
      ++ (if number_gt n (num 0) then [] else [path])
      ++ (if max100 && number_gt n (num 100) then [path] else [])
  end.

(** [listFilesQuerySchema.parse(req.query)]: every field is optional,
    and a string passes [z.string()]. *)
Definition listFilesQuerySchema_issues (req : ListRequest) : list string :=
  match raw_page req with Some r => number_issues "page" false r | None => [] end
  ++ match raw_limit req with Some r => number_issues "limit" true r | None => [] end.

Definition validate (req : ListRequest) : M unit :=
  match listFilesQuerySchema_issues req with
  | [] => ret ()
  | details => throw (ValidationError (ValidationFailed details))
  end.

(** [req.query.page ? Number(req.query.page) : undefined]. *)
Definition optional_Number (raw : option jsstring) : option number :=
  match raw with
  | Some (c :: r) => Some (Number (c :: r))
  | _ => None
  end.

Definition controller_listFiles (req : ListRequest) : M ListFilesResponse :=
  let query :=
    {| q_userId :=
         match user req, raw_userId req with
         | Some (c :: u), (None | Some []) => Some (c :: u)
         | _, q => q
         end;
       q_tags := raw_tags req;
       q_page := optional_Number (raw_page req);
       q_limit := optional_Number (raw_limit req);
       q_prefix := raw_prefix req |} in
  FileService.listFiles env query.

Definition GET_files (req : ListRequest) : M ListFilesResponse :=
  (_ <- validate req ;; controller_listFiles req)%M.

End FilesRoute.
End FilesRoute.

(** ** A scripted platform

    A concrete platform for closed examples: the clock readings, the
    random draws and the answers of the store are read off a script. *)

Module Scripted.

Record Script := {
  clock : list N;
  draws : list (list N);
  heads : list (exn + HeadObjectOutput);
  listing : exn + ListObjectsV2Output;
}.

Definition pop {A} (d : A) (l : list A) : A * list A :=
  match l with
  | a :: l' => (a, l')
  | [] => (d, [])
  end.

Definition Date_now (w : Script) : N * Script :=
  let '(t, c) := pop 0 (clock w) in
  (t, {| clock := c; draws := draws w; heads := heads w; listing := listing w |}).

Definition Math_random (w : Script) : list N * Script :=
  let '(r, d) := pop [] (draws w) in
  (r, {| clock := clock w; draws := d; heads := heads w; listing := listing w |}).

Definition digits_value (s : jsstring) : N :=
  fold_left (fun acc c => acc * 10 + (c - 48)) s 0.

(** The value of a decimal integer literal, [NaN] for any other
    string: on integer literals below [2^53] this is what the built-in
    [Number] gives. *)
Definition Number (s : jsstring) : number :=
  match s with
  | [] => NaN
  | c :: r =>
      if forallb is_digit s then num (Z.of_N (digits_value s))
      else if (c =? Chr.dash) && forallb is_digit r && negb (bool_decide (r = []))
      then num (- Z.of_N (digits_value r))
      else NaN
  end.

Definition send_head (_ : gmap string jsval) (w : Script)
  : (exn + HeadObjectOutput) * Script :=
  let '(a, h) := pop (inl (SdkError (js "NotFound"))) (heads w) in
  (a, {| clock := clock w; draws := draws w; heads := h; listing := listing w |}).

Definition send_delete (_ : gmap string jsval) (w : Script) : (exn + unit) * Script :=
  (inr (), w).

Definition send_list (_ : gmap string jsval) (w : Script)
  : (exn + ListObjectsV2Output) * Script :=
  (listing w, w).

Definition getSignedUrl (_ : command) (_ : N) (w : Script) : (exn + jsstring) * Script :=
  (inr (js "https://bucket.example/signed"), w).

(** The time zone UTC. *)
Definition LocalTZA (_ : Z) (_ : bool) : Z := 0.

Definition platform : Platform :=
  Build_Platform Script Date_now Math_random Number send_head send_delete
    send_list getSignedUrl LocalTZA.

Definition start (w : Script) : @St platform := @Build_St platform w [].

(** The defaults of [envSchema], with the bucket and prefix of the test
    setup. *)
Definition env : Env :=
  {| S3_BUCKET_NAME := js "test-bucket";
     S3_PREFIX := js "test-uploads/";
     PRESIGN_EXPIRY_SECONDS := 900;
     PRESIGN_GET_EXPIRY_SECONDS := 3600;
     MAX_FILE_SIZE_MB := 100;
     ALLOWED_IMAGE_TYPES := js "image/jpeg,image/png,image/gif,image/webp,image/svg+xml";
     ALLOWED_VIDEO_TYPES := js "video/mp4,video/webm,video/quicktime,video/x-msvideo";
     ALLOWED_DOCUMENT_TYPES :=
       js "application/pdf,application/msword,application/vnd.openxmlformats-officedocument.wordprocessingml.document,text/plain";
     ALLOWED_AUDIO_TYPES := js "audio/mpeg,audio/wav,audio/ogg,audio/webm" |}.

End Scripted.

(** ** The object store's treatment of metadata headers *)

Fixpoint string_strip_prefix (p s : string) : option string :=
  match p with
  | EmptyString => Some s
  | String a p' =>
      match s with
      | String b s' => if Ascii.eqb a b then string_strip_prefix p' s' else None
      | EmptyString => None
      end
  end.

(** The [Metadata] that a [HeadObjectCommand] returns for an object
    uploaded with the given headers: the store keeps the headers named
    [x-amz-meta-<name>] and returns each under [<name>], with its value
    unchanged ("AWS S3 supports metadata with x-amz-meta- prefix", as the
    comment in [generatePresignedUploadUrl] has it). *)
Definition user_metadata (headers : gmap string jsstring) : gmap string jsstring :=
  map_fold
    (fun name value acc =>
       match string_strip_prefix "x-amz-meta-" name with
       | Some k => <[k := value]> acc
       | None => acc
       end)
    ∅ headers.

(** ** Notions used by the statements *)

Definition is_base36 (c : N) : bool := is_digit c || is_lower c.

(** A key is safe for storage: its characters are those of
    [[a-zA-Z0-9._-]], so it has no path separator and no ["../"]. *)
Definition storage_safe (key : jsstring) : Prop :=
  Forall (fun c => is_safe_char c = true) key
  ∧ (Chr.slash ∉ key) ∧ (Chr.backslash ∉ key)
  ∧ ¬ (∃ a b, key = a ++ js "../" ++ b).

(** The part of a random draw that enters a file id. *)
Definition random_suffix (r : list N) : jsstring := substring 2 11 (toString36 r).

(** The key assembled from the clock reading of [generateSafeKey], the
    clock reading and the random draw of [generateFileId], and the
    filename. *)
Definition key_of (timestamp now : N) (r : list N) (filename : jsstring) : jsstring :=
  decimal timestamp ++ js "-"
  ++ (decimal now ++ js "-" ++ random_suffix r)
  ++ js "-" ++ FileService.sanitize filename.

(** Two successive calls of [generateSafeKey] without a caller-supplied
    id. *)
Definition two_keys `{Platform} (filename : jsstring) : M (jsstring * jsstring) :=
  (k1 <- FileService.generateSafeKey filename None ;;
   k2 <- FileService.generateSafeKey filename None ;;
   ret (k1, k2))%M.

(** The key derivation of the upload flow: [generateFileId()], then
    [generateSafeKey(request.filename, fileId)]. *)
Definition upload_key_derivation `{Platform} (filename : jsstring) : M jsstring :=
  (fileId <- generateFileId ;;
   FileService.generateSafeKey filename (Some fileId))%M.

(** [config.upload.maxFileSizeBytes] as a number. *)
Definition maxFileSize (env : Env) : number :=
  Finite (inject_Z (Z.of_N (config.maxFileSizeBytes env))).

(** The one request of an existence check. *)
Definition head_call (env : Env) (key : jsstring) : store_call :=
  Send (HeadObjectCommand (S3Service.object_input env (config.prefix env ++ key))).

Definition metadata_header_names : list string :=
  ["x-amz-meta-user-id"; "x-amz-meta-original-filename"; "x-amz-meta-tags";
   "x-amz-meta-is-public"; "x-amz-meta-description"].

(** What passes the guard [if (x)] of an optional string: a string that
    is present and not empty. *)
Definition if_nonempty (x : option jsstring) : option jsstring :=
  match x with
  | Some (c :: s) => Some (c :: s)
  | _ => None
  end.

(** The percent-encoding of what passes the guard [if (x)]; the outer
    [None] stands for the [URIError] of [encodeURIComponent]. *)
Definition percent_encoded (x : option jsstring) : option (option jsstring) :=
  match x with
  | Some (c :: s) =>
      match Builtins.encodeURIComponent (c :: s) with
      | Some e => Some (Some e)
      | None => None
      end
  | _ => Some None
  end.

(** The properties that the input of a signed upload may have. *)
Definition put_names : list string :=
  ["Bucket"; "Key"; "ContentType"; "ContentLength"] ++ metadata_header_names.

(** The pagination values computed by [FileService.listFiles]. *)
Definition clamped_page (query : ListFilesQuery) : number :=
  Math_max (num 1) (number_or (q_page query) (num 1)).

Definition clamped_limit (query : ListFilesQuery) : number :=
  Math_min (num 100) (Math_max (num 1) (number_or (q_limit query) (num 20))).

(** The input of the list command that [FileService.listFiles] sends. *)
Definition list_call (env : Env) (query : ListFilesQuery) : gmap string jsval :=
  S3Service.list_input env (config.prefix env ++ string_or (q_prefix query) [])
    (clamped_limit query) None.

Definition list_response (query : ListFilesQuery) (result : S3Service.ListResult)
  : ListFilesResponse :=
  let files := map FileService.file_record (S3Service.listed_files result) in
  {| files := files;
     pagination :=
       {| page := clamped_page query; limit := clamped_limit query;
          total := length files; hasMore := S3Service.isTruncated result |} |}.

(** A list response without the page it echoes. *)
Definition without_page (o : outcome ListFilesResponse)
  : outcome (list FileRecord * number * nat * bool) :=
  match o with
  | Return r =>
      Return (files r, limit (pagination r), total (pagination r), hasMore (pagination r))
  | Throw e => Throw e
  end.

Definition percent_octets (octets : list N) : jsstring :=
  concat (map Builtins.percent_octet octets).

Definition continue_with (c : N) (r : option (jsstring * jsstring))
  : option (jsstring * jsstring) :=
  match r with
  | Some (str, rest) => Some (c :: str, rest)
  | None => None
  end.

(** Well-formed UTF-16: every code unit fits sixteen bits and every
    surrogate is paired. *)
Fixpoint well_formed (s : jsstring) : bool :=
  match s with
  | [] => true
  | c :: s' =>
      if Builtins.is_lead_surrogate c then
        match s' with
        | c2 :: s'' => Builtins.is_trail_surrogate c2 && well_formed s''
        | [] => false
        end
      else negb (Builtins.is_trail_surrogate c) && (c <? 65536) && well_formed s'
  end.

(** A metadata record as [getFileMetadata] returns it: the tags as the
    JSON array of their strings, no property outside the five fields. *)
Definition stored (m : FileMetadata) : StoredMetadata :=
  {| userId := userId m;
     originalFilename := originalFilename m;
     tags := (fun a => JArray (map JString a)) <$> tags m;
     isPublic := isPublic m;
     description := description m;
     extension := ∅ |}.

Definition nonempty_if_present (x : option jsstring) : bool :=
  match x with
  | Some [] => false
  | _ => true
  end.

Definition well_formed_if_present (x : option jsstring) : bool :=
  match x with
  | Some s => well_formed s
  | None => true
  end.

(** The metadata that the header codec preserves: no field holds the
    empty string, and the two percent-encoded fields are well-formed. *)
Definition survives_headers (m : FileMetadata) : bool :=
  nonempty_if_present (userId m)
  && nonempty_if_present (originalFilename m)
  && well_formed_if_present (originalFilename m)
  && nonempty_if_present (description m)
  && well_formed_if_present (description m).

(** ** Concrete inputs of the examples *)

Module Fixture.

Definition no_objects : exn + ListObjectsV2Output :=
  inr {| Contents := None; NextContinuationToken := None; IsTruncated := None |}.

(** A world in which nothing is stored. *)
Definition idle : Scripted.Script :=
  {| Scripted.clock := [1700000000000; 1700000000001; 1700000000002];
     Scripted.draws := [[4; 15; 35; 34; 24; 8; 2; 22; 31; 34; 27]];
     Scripted.heads := [];
     Scripted.listing := no_objects |}.

(** Four clock readings within one millisecond, and two draws that
    agree on their first nine digits: [0.4fzyo82mvyr] and
    [0.4fzyo82mv71]. *)
Definition same_millisecond : Scripted.Script :=
  {| Scripted.clock :=
       [1700000000000; 1700000000000; 1700000000000; 1700000000000];
     Scripted.draws :=
       [[4; 15; 35; 34; 24; 8; 2; 22; 31; 34; 27];
        [4; 15; 35; 34; 24; 8; 2; 22; 31; 7; 1]];
     Scripted.heads := [];
     Scripted.listing := no_objects |}.

(** A world that stores the object uploaded under the key issued in
    [idle] for ["test.jpg"]. *)
Definition after_upload : Scripted.Script :=
  {| Scripted.clock := [];
     Scripted.draws := [];
     Scripted.heads := [];
     Scripted.listing :=
       inr {| Contents :=
                Some [{| Key :=
                           Some (js "test-uploads/1700000000001-1700000000000-4fzyo82mv-test.jpg");
                         Size := Some (num 1024);
                         ObjectLastModified := Some 1700000005000 |}];
              NextContinuationToken := None;
              IsTruncated := Some false |} |}.

Definition jpeg_request : PresignUploadRequest :=
  {| filename := js "test.jpg"; contentType := js "image/jpeg";
     size := Some (num 1024); metadata := None |}.

Definition executable_request : PresignUploadRequest :=
  {| filename := js "test.exe"; contentType := js "application/x-msdownload";
     size := None; metadata := None |}.

Definition large_request : PresignUploadRequest :=
  {| filename := js "large.jpg"; contentType := js "image/jpeg";
     size := Some (num (200 * 1024 * 1024)); metadata := None |}.

Definition no_query : ListFilesQuery :=
  {| q_userId := None; q_tags := None; q_page := None; q_limit := None;
     q_prefix := None |}.

Definition page_two_of_user : ListFilesQuery :=
  {| q_userId := Some (js "user123"); q_tags := Some (js "photo, profile");
     q_page := Some (num 2); q_limit := None; q_prefix := None |}.

Definition limit_500 : ListFilesQuery :=
  {| q_userId := None; q_tags := None; q_page := Some (num 0);
     q_limit := Some (num 500); q_prefix := None |}.

(** [GET /files?limit=500]. *)
Definition too_many : FilesRoute.ListRequest :=
  {| FilesRoute.raw_userId := None; FilesRoute.raw_tags := None;
     FilesRoute.raw_page := None; FilesRoute.raw_limit := Some (js "500");
     FilesRoute.raw_prefix := None; FilesRoute.user := None |}.

(** [{ userId: "" }] as the upload flow hands it to the encoder, with
    the filename of the request. *)
Definition empty_user : FileMetadata :=
  FileService.with_originalFilename
    (Some {| userId := Some []; originalFilename := None; tags := None;
             isPublic := None; description := None; extension := ∅ |})
    (js "test.jpg").

(** A record with every field set; the filename has an accented letter
    and the description ends with a character outside the basic plane. *)
Definition full_metadata : FileMetadata :=
  {| userId := Some (js "user123");
     originalFilename := Some (js "caf" ++ [233] ++ js ".jpg");
     tags := Some [js "photo"; js "profile"];
     isPublic := Some true;
     description := Some (js "a/b " ++ [55357; 56832]);
     extension := ∅ |}.

End Fixture.

(** ** [src/controllers/upload.controller.ts] *)

Module UploadController.
Section UploadController.
Context `{Platform}.
Variable env : Env.

(** [{ ...request.metadata, userId: req.user.userId }]. *)
Definition with_userId (metadata : option FileMetadata) (user : jsstring)
  : FileMetadata :=
  let m := match metadata with Some m => m | None => no_metadata end in
  {| userId := Some user; originalFilename := originalFilename m; tags := tags m;
     isPublic := isPublic m; description := description m;
     extension := extension m |}.

(** [request.metadata?.userId]. *)
Definition metadata_userId (metadata : option FileMetadata) : option jsstring :=
  match metadata with
  | Some m => userId m
  | None => None
  end.

(** The request as [generatePresignedUrl] hands it to the service; [user]
    is [req.user?.userId]. *)
Definition presign_request (user : option jsstring) (request : PresignUploadRequest)
  : PresignUploadRequest :=
  match S3Service.truthy user, S3Service.truthy (metadata_userId (metadata request)) with
  | Some u, None =>
      {| filename := filename request; contentType := contentType request;
         size := size request;
         metadata := Some (with_userId (metadata request) u) |}
  | _, _ => request
  end.

Definition generatePresignedUrl (user : option jsstring)
    (request : PresignUploadRequest) : M PresignUploadResponse :=
  FileService.generatePresignedUploadUrl env (presign_request user request).

(** The request as [handleUploadComplete] hands it to the service. *)
Definition complete_request (user : option jsstring) (request : UploadCompleteRequest)
  : UploadCompleteRequest :=
  match S3Service.truthy user with
  | Some u =>
      {| complete_key := complete_key request;
         complete_metadata := Some (with_userId (complete_metadata request) u) |}
  | None => request
  end.

Definition handleUploadComplete (user : option jsstring)
    (request : UploadCompleteRequest) : M UploadCompleteResponse :=
  FileService.handleUploadComplete env (complete_request user request).

End UploadController.
End UploadController.

(** ** The route [POST /upload/presign]

    [validate(presignUploadSchema)] on the request body, followed by the
    controller.  The body is taken with the types of
    [PresignUploadRequest]; [user] is the user id that
    [optionalAuthenticate] left in [req.user], if any. *)

Module UploadRoute.
Section UploadRoute.
Context `{Platform}.
Variable env : Env.

(** The issues of [z.string().min(1)], with [.max(255)] when [max255] is
    set. *)
Definition string_issues (path : string) (max255 : bool) (s : jsstring)
  : list string :=
  (if (length s <? 1)%nat then [path] else [])
  ++ (if max255 && (255 <? length s)%nat then [path] else []).

(** The issues of [z.number().int().positive()]. *)
Definition size_issues (n : number) : list string :=
  match n with
  | NaN => ["size"%string]
  | n =>
      (if Number_isInteger n then [] else ["size"%string])
      ++ (if number_gt n (num 0) then [] else ["size"%string])
  end.

Definition presignUploadSchema_issues (body : PresignUploadRequest) : list string :=
  string_issues "filename" true (filename body)
  ++ string_issues "contentType" false (contentType body)
  ++ match size body with Some n => size_issues n | None => [] end.

Definition validate (issues : list string) : M unit :=
  match issues with
  | [] => ret ()
  | details => throw (ValidationError (ValidationFailed details))
  end.

Definition POST_upload_presign (user : option jsstring) (body : PresignUploadRequest)
  : M PresignUploadResponse :=
  (_ <- validate (presignUploadSchema_issues body) ;;
   UploadController.generatePresignedUrl env user body)%M.

End UploadRoute.
End UploadRoute.

(** ** [src/middlewares/auth.ts] *)

Module Auth.

(** The decoded token, of which the code reads [userId]. *)
Record JwtPayload := {
  payload_userId : option jsstring;
  payload_email : option jsstring;
}.

(** What [authenticate] passes on: [next()] with [req.user] set, or
    [next(error)] with an [UnauthorizedError] and its message.  The class
    belongs to [src/utils/errors.ts], which is not among the sources. *)
Inductive auth_result :=
| Authenticated (user : JwtPayload)
| Unauthorized (message : string).

Section Auth.
(** [jwt.verify(token, config.jwt.secret)]: the payload, or [None] when
    the call throws. *)
Variable jwt_verify : jsstring → option JwtPayload.

(** [authHeader.substring(7)] behind
    [authHeader && authHeader.startsWith('Bearer ')]. *)
Definition bearer_token (authHeader : option jsstring) : option jsstring :=
  match authHeader with
  | Some (c :: h) => strip_prefix (js "Bearer ") (c :: h)
  | _ => None
  end.

Definition authenticate (authHeader : option jsstring) : auth_result :=
  match bearer_token authHeader with
  | None => Unauthorized "Missing or invalid authorization header"
  | Some token =>
      match jwt_verify token with
      | Some decoded => Authenticated decoded
      | None => Unauthorized "Invalid or expired token"
      end
  end.

(** [req.user] after [optionalAuthenticate], which always calls
    [next()]. *)
Definition optionalAuthenticate (authHeader : option jsstring) : option JwtPayload :=
  match bearer_token authHeader with
  | Some token => jwt_verify token
  | None => None
  end.

(** [req.user?.userId]. *)
Definition user_id (user : option JwtPayload) : option jsstring :=
  match user with
  | Some u => payload_userId u
  | None => None
  end.

End Auth.
End Auth.

(** ** The routes [DELETE /files/:key] and [GET /files/:key/presign]

    The middlewares of the route, then the method of [FileController]. *)

Module FileRoutes.

Record DeleteResponse := {
  delete_success : bool;
  delete_message : string;
  deleted_key : jsstring;
}.

(** The outcome of a route behind [authenticate]: [Rejected message] is
    [next(new UnauthorizedError(message))], after which neither the
    validation nor the controller runs; [Passed a] is the response of the
    controller. *)
Inductive guarded (A : Type) :=
| Rejected (message : string)
| Passed (a : A).
Arguments Rejected {A} message.
Arguments Passed {A} a.

Section FileRoutes.
Context `{Platform}.
Variable env : Env.
Variable jwt_verify : jsstring → option Auth.JwtPayload.

(** [deleteFileSchema] and [presignGetSchema]: [key: z.string().min(1)]. *)
Definition key_issues (key : jsstring) : list string :=
  UploadRoute.string_issues "key" false key.

(** [FileController.deleteFile]: the identity of the user is not
    consulted. *)
Definition controller_deleteFile (user : option Auth.JwtPayload) (key : jsstring)
  : M DeleteResponse :=
  (_ <- FileService.deleteFile env key ;;
   ret {| delete_success := true; delete_message := "File deleted successfully";
          deleted_key := key |})%M.

Definition DELETE_file (authHeader : option jsstring) (key : jsstring)
  : M (guarded DeleteResponse) :=
  match Auth.authenticate jwt_verify authHeader with
  | Auth.Unauthorized message => ret (Rejected message)
  | Auth.Authenticated user =>
      (_ <- UploadRoute.validate (key_issues key) ;;
       response <- controller_deleteFile (Some user) key ;;
       ret (Passed response))%M
  end.

Definition GET_file_presign (authHeader : option jsstring) (key : jsstring)
  : M PresignGetResponse :=
  let _ := Auth.optionalAuthenticate jwt_verify authHeader in
  (_ <- UploadRoute.validate (key_issues key) ;;
   FileService.generatePresignedGetUrl env key)%M.

End FileRoutes.
End FileRoutes.

(** ** The query of [GET /files] as the query parser gives it

    A parameter given once is a string; a repeated parameter
    ([tags=a&tags=b]) is an array and a bracketed one ([tags[x]=a]) an
    object, which [z.string()] both refuses.  [page] and [limit] are taken
    as given at most once. *)

Module FilesQuery.

Inductive query_value :=
| QString (s : jsstring)
| QOther.

(** [req.query], and the [userId] of [req.user] when the request is
    authenticated. *)
Record Query := {
  query_userId : option query_value;
  query_tags : option query_value;
  query_page : option jsstring;
  query_limit : option jsstring;
  query_prefix : option query_value;
  query_user : option jsstring;
}.

(** The issues of [z.string().optional()]. *)
Definition string_issues (path : string) (value : option query_value) : list string :=
  match value with
  | Some QOther => [path]
  | _ => []
  end.

(** [value as string | undefined] on a value that passed the schema. *)
Definition as_string (value : option query_value) : option jsstring :=
  match value with
  | Some (QString s) => Some s
  | _ => None
  end.

Section FilesQuery.
Context `{Platform}.
Variable env : Env.

(** [listFilesQuerySchema.parse(req.query)], the issues in the order of
    the members of the schema. *)
Definition listFilesQuerySchema_issues (req : Query) : list string :=
  string_issues "userId" (query_userId req)
  ++ string_issues "tags" (query_tags req)
  ++ match query_page req with
     | Some r => FilesRoute.number_issues "page" false r
     | None => []
     end
  ++ match query_limit req with
     | Some r => FilesRoute.number_issues "limit" true r
     | None => []
     end
  ++ string_issues "prefix" (query_prefix req).

(** The request that reaches the controller once the schema has passed. *)
Definition validated (req : Query) : FilesRoute.ListRequest :=
  {| FilesRoute.raw_userId := as_string (query_userId req);
     FilesRoute.raw_tags := as_string (query_tags req);
     FilesRoute.raw_page := query_page req;
     FilesRoute.raw_limit := query_limit req;
     FilesRoute.raw_prefix := as_string (query_prefix req);
     FilesRoute.user := query_user req |}.

Definition GET_files (req : Query) : M ListFilesResponse :=
  (_ <- UploadRoute.validate (listFilesQuerySchema_issues req) ;;
   FilesRoute.controller_listFiles env (validated req))%M.

End FilesQuery.
End FilesQuery.

(** ** Notions used by the further statements *)

(** The first character of a string is not white space. *)
Definition starts_clean (s : jsstring) : Prop :=
  match s with
  | [] => True
  | c :: _ => is_whitespace c = false
  end.

(** The user id that the headers of an upload carry: the one the client
    sent when it is not empty, else the one of the authenticated user. *)
Definition effective_userId (user : option jsstring) (request : PresignUploadRequest)
  : option jsstring :=
  match S3Service.truthy (UploadController.metadata_userId (metadata request)) with
  | Some client => Some client
  | None => S3Service.truthy user
  end.

(** The request of a deletion. *)
Definition delete_call (env : Env) (key : jsstring) : store_call :=
  Send (DeleteObjectCommand (S3Service.object_input env (config.prefix env ++ key))).

(** The request that signs a retrieval. *)
Definition sign_get_call (env : Env) (key : jsstring) : store_call :=
  Sign (GetObjectCommand (S3Service.object_input env (config.prefix env ++ key)))
    (PRESIGN_GET_EXPIRY_SECONDS env).

(** The time value of the local wall-clock time that lies [seconds]
    seconds after the local time of [now]. *)
Definition wall_clock_plus `{Platform} (now seconds : N) : Z :=
  let local := (Z.of_N now + LocalTZA (Z.of_N now) true + Z.of_N seconds * 1000)%Z in
  (local - LocalTZA local false)%Z.

(** A time value that a [Date] can hold: at most 8.64e15 milliseconds
    from the epoch. *)
Definition is_time_value (t : Z) : bool :=
  (-8640000000000000 <=? t)%Z && (t <=? 8640000000000000)%Z.

(** The request that signs an upload. *)
Definition sign_put_call (env : Env) (key contentType : jsstring)
    (headers : gmap string jsstring) (size : option number) : store_call :=
  Sign (PutObjectCommand
          (S3Service.put_input env (config.prefix env ++ key) contentType headers size))
    (PRESIGN_EXPIRY_SECONDS env).

(** A listed object and its record in the response. *)
Definition lists_as (env : Env) (object : S3Object) (record : FileRecord) : Prop :=
  rec_contentType record = js "application/octet-stream"
  ∧ rec_size record = number_or (Size object) (num 0)
  ∧ rec_key record
    = string_or (replace_first_with_empty (config.prefix env) <$> Key object) []
  ∧ rec_filename record = FileService.filename_of_key (rec_key record)
  ∧ ∀ t, ObjectLastModified object = Some t → rec_uploadedAt record = t.

(** ** Further concrete inputs *)

Module Sample.

(** A world whose store has the object asked for, with the metadata of
    a private upload by ["owner456"]. *)
Definition with_object : Scripted.Script :=
  {| Scripted.clock := [1700000000000; 1700000000001];
     Scripted.draws := [];
     Scripted.heads :=
       [inr {| Metadata :=
                 Some (<["user-id" := js "owner456"]>
                         (<["is-public" := js "false"]> ∅));
               ContentType := Some (js "image/jpeg");
               ContentLength := Some (num 1024);
               LastModified := Some 1699999999000 |}];
     Scripted.listing := Fixture.no_objects |}.

(** A world whose store has the object asked for, with a tags header
    that is not JSON. *)
Definition with_broken_tags : Scripted.Script :=
  {| Scripted.clock := [1700000000000];
     Scripted.draws := [];
     Scripted.heads :=
       [inr {| Metadata := Some (<["tags" := js "photo,profile"]> ∅);
               ContentType := Some (js "image/jpeg");
               ContentLength := Some (num 1024);
               LastModified := Some 1699999999000 |}];
     Scripted.listing := Fixture.no_objects |}.

(** A world whose store refuses the existence check. *)
Definition access_denied : Scripted.Script :=
  {| Scripted.clock := [];
     Scripted.draws := [];
     Scripted.heads := [inl (SdkError (js "AccessDenied"))];
     Scripted.listing := Fixture.no_objects |}.

(** A token check that accepts the token ["good"] of ["user123"]. *)
Definition jwt_verify (token : jsstring) : option Auth.JwtPayload :=
  if bool_decide (token = js "good") then
    Some {| Auth.payload_userId := Some (js "user123");
            Auth.payload_email := Some (js "test@example.com") |}
  else None.

(** [GET /files?page=2&limit=10]. *)
Definition page_2_limit_10 : FilesRoute.ListRequest :=
  {| FilesRoute.raw_userId := None; FilesRoute.raw_tags := None;
     FilesRoute.raw_page := Some (js "2"); FilesRoute.raw_limit := Some (js "10");
     FilesRoute.raw_prefix := None; FilesRoute.user := None |}.

(** An upload whose filename is an unpaired surrogate. *)
Definition surrogate_request : PresignUploadRequest :=
  {| filename := [55296]; contentType := js "image/jpeg";
     size := None; metadata := None |}.

(** An upload that names another user. *)
Definition other_user_request : PresignUploadRequest :=
  {| filename := js "test.jpg"; contentType := js "image/jpeg"; size := None;
     metadata :=
       Some {| userId := Some (js "someone-else"); originalFilename := None;
               tags := None; isPublic := None; description := None;
               extension := ∅ |} |}.

(** The zone America/New_York around the end of daylight saving time
    on 2023-11-05: four hours behind UTC before 06:00 UTC (02:00 local
    time), five hours behind from then on; the local hour from 01:00 to
    02:00, which occurs twice, is read with the offset before the change. *)
Definition new_york (t : Z) (isUTC : bool) : Z :=
  if isUTC then (if (t <? 1699164000000)%Z then -14400000 else -18000000)%Z
  else (if (t <? 1699149600000)%Z then -14400000 else -18000000)%Z.

(** The scripted platform in that zone. *)
Definition in_new_york : Platform :=
  Build_Platform Scripted.Script Scripted.Date_now Scripted.Math_random
    Scripted.Number Scripted.send_head Scripted.send_delete Scripted.send_list
    Scripted.getSignedUrl new_york.

(** The store has the object asked for, and the clock reads 01:30 local
    time (05:30 UTC) on 2023-11-05. *)
Definition before_the_change : Scripted.Script :=
  {| Scripted.clock := [1699162200000];
     Scripted.draws := [];
     Scripted.heads :=
       [inr {| Metadata := None; ContentType := Some (js "image/jpeg");
               ContentLength := Some (num 1024);
               LastModified := Some 1699000000000 |}];
     Scripted.listing := Fixture.no_objects |}.

(** [GET /files?tags=a&tags=b]. *)
Definition repeated_tags : FilesQuery.Query :=
  {| FilesQuery.query_userId := None; FilesQuery.query_tags := Some FilesQuery.QOther;
     FilesQuery.query_page := None; FilesQuery.query_limit := None;
     FilesQuery.query_prefix := None; FilesQuery.query_user := None |}.

(** [GET /files?userId=user123&tags=photo&page=2&limit=10] by an
    authenticated user, and [GET /files?page=2&limit=10] by anyone. *)
Definition page_2_by_user123 : FilesQuery.Query :=
  {| FilesQuery.query_userId := Some (FilesQuery.QString (js "user123"));
     FilesQuery.query_tags := Some (FilesQuery.QString (js "photo"));
     FilesQuery.query_page := Some (js "2"); FilesQuery.query_limit := Some (js "10");
     FilesQuery.query_prefix := None; FilesQuery.query_user := Some (js "user123") |}.

Definition page_2_by_anyone : FilesQuery.Query :=
  {| FilesQuery.query_userId := None; FilesQuery.query_tags := None;
     FilesQuery.query_page := Some (js "2"); FilesQuery.query_limit := Some (js "10");
     FilesQuery.query_prefix := None; FilesQuery.query_user := None |}.

End Sample.

(** * Properties *)

(** ** Tactics *)

(** Decide every comparison of the goal, discarding the impossible
    branches by arithmetic. *)
Ltac decide_comparisons :=
  repeat match goal with
    | |- context [?a <=? ?b] => destruct (N.leb_spec a b); try lia
    | |- context [?a <? ?b] => destruct (N.ltb_spec a b); try lia
    | |- context [?a =? ?b] => destruct (N.eqb_spec a b); try lia
    end.

(** Arithmetic on the character classes. *)
Ltac unfold_classes :=
  unfold is_base36, is_safe_char, is_digit, is_lower, is_upper, in_range,
    Chr.dash, Chr.dot, Chr.underscore, Chr.slash, Chr.backslash in *.

Ltac class_arith :=
  unfold_classes;
  repeat match goal with
    | H : _ || _ = true |- _ => apply orb_true_iff in H as [H|H]
    | H : _ && _ = true |- _ => apply andb_true_iff in H as [? ?]
    | H : (_ <=? _) = true |- _ => apply N.leb_le in H
    | H : (_ =? _) = true |- _ => apply N.eqb_eq in H
    | H : (_ <? _) = true |- _ => apply N.ltb_lt in H
    end;
  try lia.

(** Unfold the operations of the monad. *)
Ltac run_monad :=
  repeat (unfold bind, try_catch, lift, ret, throw, observe, request, S3Service.expiry;
          cbn beta iota delta [fst snd world calls]).


(** ** Strings *)

Section Split.
Variable sep : N.

Lemma split_nonempty s : split sep s ≠ [].
Proof. destruct s as [|c s]; simpl; [done|]. destruct (c =? sep); [done|]. destruct (split sep s); done. Qed.

Lemma split_cons_ne c s :
  c ≠ sep →
  split sep (c :: s) =
    match split sep s with seg :: segs => (c :: seg) :: segs | [] => [[c]] end.
Proof. intros Hc. simpl. by apply N.eqb_neq in Hc as ->. Qed.

Lemma split_cons_eq s : split sep (sep :: s) = [] :: split sep s.
Proof. simpl. by rewrite N.eqb_refl. Qed.

(** A prefix free of the separator is the first segment. *)
Lemma split_app_sep a b :
  sep ∉ a → split sep (a ++ sep :: b) = a :: split sep b.
Proof.
  induction a as [|c a IH]; intros Ha.
  - apply split_cons_eq.
  - apply not_elem_of_cons in Ha as [Hc Ha].
    rewrite <- app_comm_cons, split_cons_ne by done. by rewrite IH.
Qed.

Lemma join_split s : join [sep] (split sep s) = s.
Proof.
  induction s as [|c s IH]; [done|].
  destruct (N.eq_dec c sep) as [->|Hc].
  - rewrite split_cons_eq. simpl. pose proof (split_nonempty s).
    destruct (split sep s) eqn:E; [done|]. by rewrite IH.
  - rewrite split_cons_ne by done. pose proof (split_nonempty s).
    destruct (split sep s) as [|seg segs] eqn:E; [done|].
    simpl in *. destruct segs; simpl in *; by rewrite <- IH.
Qed.
End Split.

Lemma uint_digits_digit d : Forall (λ c, is_digit c = true) (uint_digits d).
Proof. induction d; simpl; constructor; done. Qed.

Lemma decimal_digit n : Forall (λ c, is_digit c = true) (decimal n).
Proof. apply uint_digits_digit. Qed.

Lemma uint_digits_inj d d' : uint_digits d = uint_digits d' → d = d'.
Proof.
  revert d'. induction d; intros d'; destruct d'; simpl; try done;
    intros [= E]; f_equal; auto.
Qed.

Lemma decimal_inj n n' : decimal n = decimal n' → n = n'.
Proof.
  intros E%uint_digits_inj.
  rewrite <- (DecimalN.Unsigned.of_to n), <- (DecimalN.Unsigned.of_to n'). by rewrite E.
Qed.

Lemma digit36_base36 d : is_base36 (digit36 d) = true.
Proof.
  unfold digit36. pose proof (N.mod_upper_bound d 36 ltac:(done)) as Hb.
  destruct (N.ltb_spec (d mod 36) 10); unfold_classes.
  - apply orb_true_iff; left. apply andb_true_iff; split; apply N.leb_le; lia.
  - apply orb_true_iff; right. apply andb_true_iff; split; apply N.leb_le; lia.
Qed.

Lemma random_suffix_base36 r :
  Forall (λ c, is_base36 c = true) (random_suffix r).
Proof.
  unfold random_suffix, substring, toString36. destruct r as [|d r]; [by constructor|].
  change (drop 2 (js "0." ++ map digit36 (d :: r))) with (map digit36 (d :: r)).
  apply Forall_take, Forall_map, Forall_forall. intros; apply digit36_base36.
Qed.

Lemma digit_safe c : is_digit c = true → is_safe_char c = true.
Proof. intros Hc. unfold is_safe_char. rewrite Hc. by rewrite orb_true_r. Qed.

Lemma base36_safe c : is_base36 c = true → is_safe_char c = true.
Proof.
  unfold is_base36, is_safe_char. intros [->| ->]%orb_true_iff; [by rewrite orb_true_r|done].
Qed.

Lemma digit_not_dash c : is_digit c = true → c ≠ Chr.dash.
Proof. intros Hc ->. class_arith. Qed.

Lemma base36_not_dash c : is_base36 c = true → c ≠ Chr.dash.
Proof. intros Hc ->. class_arith. Qed.

Lemma safe_not_separator c :
  is_safe_char c = true → c ≠ Chr.slash ∧ c ≠ Chr.backslash.
Proof. intros Hc. split; intros ->; class_arith. Qed.

Lemma no_dash_in (P : N → bool) s :
  (∀ c, P c = true → c ≠ Chr.dash) → Forall (λ c, P c = true) s → Chr.dash ∉ s.
Proof. intros HP Hs Hin. rewrite Forall_forall in Hs. by apply (HP _ (Hs _ Hin)). Qed.

Lemma decimal_no_dash n : Chr.dash ∉ decimal n.
Proof. eapply no_dash_in; [apply digit_not_dash | apply decimal_digit]. Qed.

Lemma random_suffix_no_dash r : Chr.dash ∉ random_suffix r.
Proof. eapply no_dash_in; [apply base36_not_dash | apply random_suffix_base36]. Qed.

Lemma sanitize_safe filename :
  Forall (λ c, is_safe_char c = true) (FileService.sanitize filename).
Proof.
  apply Forall_map, Forall_forall. intros c _. simpl.
  destruct (is_safe_char c) eqn:E; done.
Qed.

Lemma safe_chars_storage_safe key :
  Forall (λ c, is_safe_char c = true) key → storage_safe key.
Proof.
  intros Hk. pose proof Hk as Hk'. rewrite Forall_forall in Hk'.
  assert (Chr.slash ∉ key) as Hs
    by (intros Hin; by destruct (safe_not_separator _ (Hk' _ Hin))).
  repeat split; [done|done| |].
  - intros Hin. by destruct (safe_not_separator _ (Hk' _ Hin)).
  - intros (a & b & ->). apply Hs. rewrite !elem_of_app. right; left.
    change (js "../") with [46; 46; 47]. set_solver.
Qed.

(** ** Key generation *)

Section Keys.
Context `{Platform}.

Lemma generateFileId_run st :
  generateFileId st =
    (Return (decimal (Date_now (world st)).1 ++ js "-"
             ++ random_suffix (Math_random (Date_now (world st)).2).1),
     {| world := (Math_random (Date_now (world st)).2).2; calls := calls st |}).
Proof.
  unfold generateFileId, bind, observe, ret.
  destruct (Date_now (world st)) as [now w1]; simpl.
  destruct (Math_random w1) as [r w2]; reflexivity.
Qed.

Lemma generateSafeKey_generated filename st :
  let t := Date_now (world st) in
  let t' := Date_now t.2 in
  let r := Math_random t'.2 in
  FileService.generateSafeKey filename None st =
    (Return (key_of t.1 t'.1 r.1 filename), {| world := r.2; calls := calls st |}).
Proof.
  unfold FileService.generateSafeKey, bind, observe at 1.
  destruct (Date_now (world st)) as [t w1] eqn:E1. cbn -[generateFileId decimal js FileService.sanitize].
  rewrite generateFileId_run. reflexivity.
Qed.

Lemma generateSafeKey_supplied filename c i st :
  FileService.generateSafeKey filename (Some (c :: i)) st =
    (Return (decimal (Date_now (world st)).1 ++ js "-" ++ (c :: i) ++ js "-"
             ++ FileService.sanitize filename),
     {| world := (Date_now (world st)).2; calls := calls st |}).
Proof.
  unfold FileService.generateSafeKey, bind, observe, ret.
  destruct (Date_now (world st)) as [t w1]; reflexivity.
Qed.

Lemma key_of_safe t t' r filename :
  Forall (λ c, is_safe_char c = true) (key_of t t' r filename).
Proof.
  unfold key_of. repeat apply Forall_app_2;
    try (by repeat constructor);
    try (eapply Forall_impl; [apply decimal_digit | apply digit_safe]).
  - eapply Forall_impl; [apply random_suffix_base36 | apply base36_safe].
  - apply sanitize_safe.
Qed.

Lemma filename_of_key_of t t' r filename :
  FileService.filename_of_key (key_of t t' r filename) =
    random_suffix r ++ js "-" ++ FileService.sanitize filename.
Proof.
  unfold FileService.filename_of_key, key_of.
  change (js "-") with [Chr.dash]. rewrite <- !app_assoc. simpl.
  rewrite (split_app_sep _ _ _ (decimal_no_dash t)).
  rewrite (split_app_sep _ _ _ (decimal_no_dash t')).
  unfold slice; simpl. apply join_split.
Qed.
Lemma generateSafeKey_truthy filename id st :
  id ≠ [] →
  FileService.generateSafeKey filename (Some id) st =
    (Return (decimal (Date_now (world st)).1 ++ js "-" ++ id ++ js "-"
             ++ FileService.sanitize filename),
     {| world := (Date_now (world st)).2; calls := calls st |}).
Proof. destruct id as [|c i]; [done|]. intros _. apply generateSafeKey_supplied. Qed.

(** The key derivation of the upload flow: [generateFileId()], then
    [generateSafeKey(request.filename, fileId)]. *)
Lemma upload_key_run filename st :
  let now := Date_now (world st) in
  let r := Math_random now.2 in
  let t := Date_now r.2 in
  upload_key_derivation filename st =
    (Return (key_of t.1 now.1 r.1 filename), {| world := t.2; calls := calls st |}).
Proof.
  intros now r t. unfold upload_key_derivation, bind. rewrite generateFileId_run.
  rewrite generateSafeKey_truthy by (by destruct (decimal _)). reflexivity.
Qed.

Lemma split_key_of t t' r filename :
  split Chr.dash (key_of t t' r filename) =
    decimal t :: decimal t' :: random_suffix r
      :: split Chr.dash (FileService.sanitize filename).
Proof.
  unfold key_of. change (js "-") with [Chr.dash]. rewrite <- !app_assoc. simpl.
  rewrite (split_app_sep _ _ _ (decimal_no_dash t)).
  rewrite (split_app_sep _ _ _ (decimal_no_dash t')).
  by rewrite (split_app_sep _ _ _ (random_suffix_no_dash r)).
Qed.

Lemma key_of_eq_iff t1 t1' r1 t2 t2' r2 filename :
  key_of t1 t1' r1 filename = key_of t2 t2' r2 filename
  ↔ t1 = t2 ∧ t1' = t2' ∧ random_suffix r1 = random_suffix r2.
Proof.
  split.
  - intros E%(f_equal (split Chr.dash)). rewrite !split_key_of in E.
    injection E as E1 E2 E3. by apply decimal_inj in E1, E2.
  - intros (-> & -> & E). unfold key_of. fold (random_suffix r1) (random_suffix r2).
    by rewrite E.
Qed.

Lemma upload_flow_key env request st resp st' :
  FileService.generatePresignedUploadUrl env request st = (Return resp, st') →
  ∃ t now r, upload_key resp = key_of t now r (filename request).
Proof.
  unfold FileService.generatePresignedUploadUrl.
  unfold bind at 1. destruct (FileService.validateMimeType _ _ st) as [[[]|e] st1]; [|done].
  unfold bind at 1. destruct (FileService.validateFileSize _ _ st1) as [[[]|e] st2]; [|done].
  unfold bind at 1. rewrite generateFileId_run.
  unfold bind at 1. rewrite generateSafeKey_truthy by (by destruct (decimal _)).
  unfold bind at 1.
  destruct (S3Service.generatePresignedUploadUrl _ _ _ _ _ _) as [[r|e] st3]; [|done].
  unfold bind, toISOString. destruct r.2 as [expiresAt|]; [|done].
  intros [= <- _]. simpl. by eexists _, _, _.
Qed.
End Keys.

(** ** The claims on key generation *)

(** C9.  For every filename, whatever the clock and the random source
    give, [generateSafeKey] returns a key, and every character of that key
    lies in [[a-zA-Z0-9._-]]; the key therefore has no ['/'], no [''] and
    no ["../"].  This holds when [generateSafeKey] generates the id
    itself, when it is given the id of [generateFileId] as in the upload
    flow, and for the key of every response of that flow. *)
Theorem generated_keys_are_storage_safe `{Platform} (env : Env)
    (filename : jsstring) (request : PresignUploadRequest) (st : St) :
  (∃ key st', FileService.generateSafeKey filename None st = (Return key, st')
              ∧ storage_safe key)
  ∧ (∃ key st', upload_key_derivation filename st = (Return key, st')
                ∧ storage_safe key)
  ∧ match FileService.generatePresignedUploadUrl env request st with
    | (Return response, _) => storage_safe (upload_key response)
    | (Throw _, _) => True
    end.
Proof.
  split; [|split].
  - eexists _, _. split; [apply generateSafeKey_generated|].
    apply safe_chars_storage_safe, key_of_safe.
  - eexists _, _. split; [apply upload_key_run|].
    apply safe_chars_storage_safe, key_of_safe.
  - destruct (FileService.generatePresignedUploadUrl env request st) as [[resp|e] st'] eqn:E; [|done].
    apply upload_flow_key in E as (t & now & r & ->).
    apply safe_chars_storage_safe, key_of_safe.
Qed.

(** C1.  The key of an upload has the form
    [{timestamp}-{id}-{sanitized filename}], but the id of
    [generateFileId] is itself [{now}-{random suffix}]: dropping the first
    two dash-separated segments, as [listFiles] does, leaves the random
    suffix in front of the sanitized filename.  For every filename the
    recovered name differs from the sanitized filename. *)
Theorem recovered_filename_keeps_id_suffix `{Platform} (filename : jsstring) (st : St) :
  let now := Date_now (world st) in
  let r := Math_random now.2 in
  let t := Date_now r.2 in
  let id := decimal now.1 ++ js "-" ++ random_suffix r.1 in
  let key := decimal t.1 ++ js "-" ++ id ++ js "-" ++ FileService.sanitize filename in
  upload_key_derivation filename st
  = (Return key, {| world := t.2; calls := calls st |})
  ∧ FileService.filename_of_key key
    = random_suffix r.1 ++ js "-" ++ FileService.sanitize filename
  ∧ FileService.filename_of_key key ≠ FileService.sanitize filename.
Proof.
  intros now r t id key. split; [apply upload_key_run|].
  change key with (key_of t.1 now.1 r.1 filename).
  rewrite filename_of_key_of. split; [done|].
  intros E%(f_equal length). rewrite !length_app in E. simpl in E. lia.
Qed.

(** C8, as amended.  Two successive calls of [generateSafeKey] on the
    same filename, without a caller-supplied id, both return a key, and
    the two keys are equal exactly when the calls observed the same clock
    readings and drew random numbers with the same suffix (the first nine
    radix-36 digits of the fraction).  Keys are distinct as soon as one of
    the three differs. *)
Theorem successive_keys_equal_iff `{Platform} (filename : jsstring) (st : St) :
  let t1 := Date_now (world st) in
  let t1' := Date_now t1.2 in
  let r1 := Math_random t1'.2 in
  let t2 := Date_now r1.2 in
  let t2' := Date_now t2.2 in
  let r2 := Math_random t2'.2 in
  ∃ k1 k2,
    two_keys filename st = (Return (k1, k2), {| world := r2.2; calls := calls st |})
    ∧ (k1 = k2 ↔ t1.1 = t2.1 ∧ t1'.1 = t2'.1 ∧ random_suffix r1.1 = random_suffix r2.1).
Proof.
  intros. eexists _, _. split.
  - unfold two_keys, bind. rewrite !generateSafeKey_generated. reflexivity.
  - apply key_of_eq_iff.
Qed.

(** C8, the claim as stated fails: within one millisecond, two draws that
    agree on their first nine digits give the same key twice. *)
Lemma successive_keys_collide :
  ∃ st',
    two_keys (H := Scripted.platform) (js "report.pdf") (Scripted.start Fixture.same_millisecond)
    = (Return (js "1700000000000-1700000000000-4fzyo82mv-report.pdf",
               js "1700000000000-1700000000000-4fzyo82mv-report.pdf"), st').
Proof. eexists. vm_compute. reflexivity. Qed.

(** ** Validation *)

Lemma includes_true_iff l x : FileService.includes l x = true ↔ x ∈ l.
Proof.
  unfold FileService.includes. rewrite existsb_exists. split.
  - intros (y & Hy%list_elem_of_In & ->%bool_decide_eq_true). done.
  - intros Hx. exists x. split; [by apply list_elem_of_In | by apply bool_decide_eq_true].
Qed.

Lemma includes_false_iff l x : FileService.includes l x = false ↔ x ∉ l.
Proof. rewrite <- includes_true_iff. destruct (FileService.includes l x); naive_solver. Qed.

Lemma allAllowedTypes_union env t :
  t ∈ config.allAllowedTypes env
  ↔ t ∈ config.images env ∨ t ∈ config.videos env
    ∨ t ∈ config.documents env ∨ t ∈ config.audio env.
Proof.
  unfold config.allAllowedTypes, config.images, config.videos, config.documents,
    config.audio. rewrite !elem_of_app. tauto.
Qed.

Lemma number_le_not_gt a b : number_le a b = true → number_gt a b = false.
Proof.
  unfold number_gt. destruct a, b; simpl; try done. by intros ->.
Qed.

Section Validation.
Context `{Platform}.
Variable env : Env.

Lemma validateMimeType_rejects contentType st :
  contentType ∉ config.allAllowedTypes env →
  FileService.validateMimeType env contentType st =
    (Throw (ValidationError
              (ContentTypeNotAllowed contentType (config.allAllowedTypes env))), st).
Proof.
  intros Hn%includes_false_iff. unfold FileService.validateMimeType. by rewrite Hn.
Qed.

Lemma validateMimeType_outcome contentType st :
  FileService.validateMimeType env contentType st = (Return (), st)
  ∨ ∃ m, FileService.validateMimeType env contentType st = (Throw (ValidationError m), st).
Proof.
  unfold FileService.validateMimeType.
  destruct (negb _); [right; by eexists | by left].
Qed.

Lemma validateFileSize_rejects s st :
  number_gt s (maxFileSize env) = true →
  FileService.validateFileSize env (Some s) st =
    (Throw (ValidationError
              (FileSizeExceeds s (config.maxFileSizeBytes env) (config.maxFileSizeMB env))),
     st).
Proof. intros Hs. unfold FileService.validateFileSize. fold (maxFileSize env). by rewrite Hs. Qed.

Lemma validateFileSize_accepts s st :
  number_gt s (maxFileSize env) = false →
  FileService.validateFileSize env (Some s) st = (Return (), st).
Proof. intros Hs. unfold FileService.validateFileSize. fold (maxFileSize env). by rewrite Hs. Qed.
End Validation.

(** C5.  For every upload request whose content type is in none of the
    four configured lists (images, videos, documents, audio), the upload
    flow fails with a [ValidationError] (status 400) and leaves the state
    as it found it: the store has received no request, and neither the
    clock nor the random source has been read. *)
Theorem disallowed_content_type_fails_before_storage `{Platform} (env : Env)
    (request : PresignUploadRequest) (st : St) :
  contentType request
    ∉ config.images env ++ config.videos env ++ config.documents env ++ config.audio env →
  ∃ m, FileService.generatePresignedUploadUrl env request st
       = (Throw (ValidationError m), st)
       ∧ statusCode (ValidationError m) = Some 400.
Proof.
  intros Hn. eexists. split; [|done].
  unfold FileService.generatePresignedUploadUrl, bind.
  by rewrite (validateMimeType_rejects env _ st Hn).
Qed.

(** The hypothesis of C5 at [application/x-msdownload] under the default
    lists. *)
Lemma disallowed_content_type_witness :
  ∃ m, FileService.generatePresignedUploadUrl (H := Scripted.platform) Scripted.env
         Fixture.executable_request (Scripted.start Fixture.idle)
       = (Throw (ValidationError m), Scripted.start Fixture.idle)
       ∧ statusCode (ValidationError m) = Some 400.
Proof.
  apply (disallowed_content_type_fails_before_storage (H := Scripted.platform)).
  apply includes_false_iff. vm_compute. reflexivity.
Defined.

(** C7.  For every upload request with a size above
    [maxFileSizeBytes] the upload flow fails with a [ValidationError] and
    no effect; for every request without a size, and for every request
    whose size is at most [maxFileSizeBytes], the size check passes. *)
Theorem oversized_upload_fails_validation `{Platform} (env : Env)
    (request : PresignUploadRequest) (st : St) :
  (∀ s, size request = Some s → number_gt s (maxFileSize env) = true →
        ∃ m, FileService.generatePresignedUploadUrl env request st
             = (Throw (ValidationError m), st))
  ∧ (size request = None →
     FileService.validateFileSize env (size request) st = (Return (), st))
  ∧ (∀ s, size request = Some s → number_le s (maxFileSize env) = true →
        FileService.validateFileSize env (size request) st = (Return (), st)).
Proof.
  split; [|split].
  - intros s Hs Hgt. unfold FileService.generatePresignedUploadUrl, bind.
    destruct (validateMimeType_outcome env (contentType request) st) as [-> | [m ->]];
      [|by eexists].
    rewrite Hs, (validateFileSize_rejects env s st Hgt). by eexists.
  - by intros ->.
  - intros s -> Hle. by apply validateFileSize_accepts, number_le_not_gt.
Qed.

(** The three hypotheses of C7 under the default ceiling of 100 MB: a
    size of 200 MB, no size, and a size of 1024 bytes. *)
Lemma oversized_upload_witness :
  (∃ m, FileService.generatePresignedUploadUrl (H := Scripted.platform) Scripted.env
          Fixture.large_request (Scripted.start Fixture.idle)
        = (Throw (ValidationError m), Scripted.start Fixture.idle))
  ∧ FileService.validateFileSize (H := Scripted.platform) Scripted.env
      (size Fixture.executable_request) (Scripted.start Fixture.idle) = (Return (), Scripted.start Fixture.idle)
  ∧ FileService.validateFileSize (H := Scripted.platform) Scripted.env
      (Some (num 1024)) (Scripted.start Fixture.idle) = (Return (), Scripted.start Fixture.idle).
Proof.
  split; [|split].
  - apply (proj1 (oversized_upload_fails_validation (H := Scripted.platform) Scripted.env
                    Fixture.large_request (Scripted.start Fixture.idle)) (num (200 * 1024 * 1024)));
      reflexivity.
  - apply (proj1 (proj2 (oversized_upload_fails_validation (H := Scripted.platform)
                           Scripted.env Fixture.executable_request (Scripted.start Fixture.idle))));
      reflexivity.
  - apply (proj2 (proj2 (oversized_upload_fails_validation (H := Scripted.platform)
                           Scripted.env
                           {| filename := js "test.jpg"; contentType := js "image/jpeg";
                              size := Some (num 1024); metadata := None |}
                           (Scripted.start Fixture.idle))) (num 1024));
      reflexivity.
Defined.

(** ** Existence checks *)

Section Existence.
Context `{Platform}.
Variable env : Env.

(** Whatever the store answers, [getFileMetadata] hands it exactly one
    request, the [HeadObjectCommand] of the key. *)
Lemma getFileMetadata_calls key st o st' :
  S3Service.getFileMetadata env key st = (o, st') →
  calls st' = calls st ++ [head_call env key].
Proof.
  unfold S3Service.getFileMetadata, try_catch, bind, request, lift, ret, throw.
  destruct (send_head _ (world st)) as [[e|response] w]; simpl.
  - destruct (S3Service.is_NotFound e); by intros [= _ <-].
  - destruct (S3Service.extractMetadata _) as [m|e]; simpl.
    + by intros [= _ <-].
    + destruct (S3Service.is_NotFound e); by intros [= _ <-].
Qed.
End Existence.

(** C4.  For every key whose existence check reports [exists: false],
    the completion, retrieval and deletion flows each fail with
    [NotFoundError] (status 404), in the state the check left: the only
    request the store has received is the [HeadObjectCommand] of the check,
    so nothing was deleted and nothing was signed. *)
Theorem absent_key_is_not_found_without_store_mutation `{Platform} (env : Env)
    (key : jsstring) (metadata : option FileMetadata) (st st' : St)
    (info : S3Service.FileInfo) :
  S3Service.getFileMetadata env key st = (Return info, st') →
  S3Service.exists_ info = false →
  FileService.handleUploadComplete env
    {| complete_key := key; complete_metadata := metadata |} st
  = (Throw (NotFoundError (FileNotFound key)), st')
  ∧ FileService.generatePresignedGetUrl env key st
    = (Throw (NotFoundError (FileNotFound key)), st')
  ∧ FileService.deleteFile env key st
    = (Throw (NotFoundError (FileNotFound key)), st')
  ∧ statusCode (NotFoundError (FileNotFound key)) = Some 404
  ∧ calls st' = calls st ++ [head_call env key].
Proof.
  intros Hmeta Hexists.
  unfold FileService.handleUploadComplete, FileService.generatePresignedGetUrl,
    FileService.deleteFile, bind; simpl.
  rewrite Hmeta, Hexists; simpl.
  repeat split. by apply getFileMetadata_calls in Hmeta.
Qed.


(** The hypotheses of C4 in a world that stores nothing. *)
Lemma absent_key_witness :
  let st' := @Build_St Scripted.platform Fixture.idle
               [head_call Scripted.env (js "non-existent-key")] in
  FileService.handleUploadComplete (H := Scripted.platform) Scripted.env
    {| complete_key := js "non-existent-key"; complete_metadata := None |}
    (Scripted.start Fixture.idle)
  = (Throw (NotFoundError (FileNotFound (js "non-existent-key"))), st')
  ∧ FileService.generatePresignedGetUrl (H := Scripted.platform) Scripted.env
      (js "non-existent-key") (Scripted.start Fixture.idle)
    = (Throw (NotFoundError (FileNotFound (js "non-existent-key"))), st')
  ∧ FileService.deleteFile (H := Scripted.platform) Scripted.env
      (js "non-existent-key") (Scripted.start Fixture.idle)
    = (Throw (NotFoundError (FileNotFound (js "non-existent-key"))), st')
  ∧ statusCode (NotFoundError (FileNotFound (js "non-existent-key"))) = Some 404
  ∧ calls st' = calls (Scripted.start Fixture.idle)
                ++ [head_call Scripted.env (js "non-existent-key")].
Proof.
  intros st'.
  apply (absent_key_is_not_found_without_store_mutation (H := Scripted.platform)
           Scripted.env (js "non-existent-key") None (Scripted.start Fixture.idle) st'
           {| S3Service.exists_ := false; S3Service.info_contentType := None;
              S3Service.info_size := None; S3Service.info_metadata := None;
              S3Service.info_lastModified := None |});
    reflexivity.
Defined.

(** ** Signed requests *)

Lemma lookup_set_if_present_ne {V} name k (v : option V) (h : gmap string V) :
  k ≠ name → S3Service.set_if_present k v h !! name = h !! name.
Proof. intros Hk. destruct v; simpl; [by apply lookup_insert_ne | done]. Qed.

Lemma lookup_set_if_present_eq {V} k (v : option V) (h : gmap string V) :
  S3Service.set_if_present k v h !! k = match v with Some x => Some x | None => h !! k end.
Proof. destruct v; simpl; [by apply lookup_insert_eq | done]. Qed.

Lemma metadataHeaders_names metadata headers name :
  S3Service.metadataHeaders metadata = Return headers →
  name ∉ metadata_header_names → headers !! name = None.
Proof.
  unfold metadata_header_names. rewrite !not_elem_of_cons.
  intros Hh (? & ? & ? & ? & ? & _). revert Hh.
  unfold S3Service.metadataHeaders.
  destruct metadata as [m|]; [|by intros [= <-]].
  destruct (S3Service.encoded (originalFilename m)) as [f|]; [|done].
  destruct (S3Service.encoded (description m)) as [d|]; [|done].
  intros [= <-]. rewrite !lookup_set_if_present_ne by done. apply lookup_empty.
Qed.

Lemma positive_truthy n : number_gt n (num 0) = true → number_truthy n = true.
Proof.
  destruct n as [| | |q]; try done. unfold number_gt, num; simpl.
  intros Hq%negb_true_iff. apply negb_true_iff.
  destruct (Qeq_bool q 0) eqn:E; [|done].
  apply Qeq_bool_iff in E. assert (Qle_bool q (inject_Z 0) = true) as Hle; [|congruence].
  apply Qle_bool_iff. rewrite E. apply Qle_refl.
Qed.

Section Signing.
Context `{Platform}.
Variable env : Env.

Lemma put_input_named fullKey contentType headers maxSizeBytes name :
  name ∈ ["Bucket"; "Key"; "ContentType"] →
  (∀ n, n ∉ metadata_header_names → headers !! n = None) →
  S3Service.put_input env fullKey contentType headers maxSizeBytes !! name
  = (<["ContentType" := VString contentType]>
       (<["Key" := VString fullKey]>
          (<["Bucket" := VString (config.bucketName env)]> (∅ : gmap string jsval)))) !! name.
Proof.
  intros Hname Hdom. unfold S3Service.put_input.
  assert ((VString <$> headers) !! name = None) as Hnone.
  { rewrite lookup_fmap, Hdom; [done|]. unfold metadata_header_names.
    rewrite !elem_of_cons, elem_of_nil in Hname. rewrite !not_elem_of_cons.
    destruct Hname as [->|[->|[->|[]]]]; repeat split; done || apply not_elem_of_nil. }
  assert (name ≠ "ContentLength").
  { rewrite !elem_of_cons, elem_of_nil in Hname. by destruct Hname as [->|[->|[->|[]]]]. }
  destruct maxSizeBytes as [n|]; [destruct (number_truthy n)|];
    rewrite ?lookup_insert_ne by done; by rewrite lookup_union_r.
Qed.

Lemma put_input_header fullKey contentType headers maxSizeBytes name value :
  (∀ n, n ∉ metadata_header_names → headers !! n = None) →
  headers !! name = Some value →
  S3Service.put_input env fullKey contentType headers maxSizeBytes !! name
  = Some (VString value).
Proof.
  intros Hdom Hv. unfold S3Service.put_input.
  assert (name ≠ "ContentLength").
  { intros ->. rewrite Hdom in Hv; [done|]. unfold metadata_header_names.
    rewrite !not_elem_of_cons. repeat split; done || apply not_elem_of_nil. }
  assert (((VString <$> headers) ∪
           (<["ContentType" := VString contentType]>
              (<["Key" := VString fullKey]>
                 (<["Bucket" := VString (config.bucketName env)]> ∅)))) !! name
          = Some (VString value)) as Hu.
  { apply lookup_union_Some_l. by rewrite lookup_fmap, Hv. }
  destruct maxSizeBytes as [n|]; [destruct (number_truthy n)|];
    rewrite ?lookup_insert_ne by done; done.
Qed.

Lemma put_input_ContentLength fullKey contentType headers n :
  number_truthy n = true →
  S3Service.put_input env fullKey contentType headers (Some n) !! "ContentLength"
  = Some (VNumber n).
Proof. intros Hn. unfold S3Service.put_input. rewrite Hn. apply lookup_insert_eq. Qed.

Lemma generatePresignedUploadUrl_calls key contentType metadata maxSizeBytes headers st :
  S3Service.metadataHeaders metadata = Return headers →
  calls (S3Service.generatePresignedUploadUrl env key contentType metadata maxSizeBytes st).2
  = calls st
    ++ [Sign (PutObjectCommand
                (S3Service.put_input env (config.prefix env ++ key) contentType
                   headers maxSizeBytes))
          (PRESIGN_EXPIRY_SECONDS env)].
Proof.
  intros Hh.
  unfold S3Service.generatePresignedUploadUrl. run_monad. rewrite Hh.
  destruct (getSignedUrl _ _ (world st)) as [[e|url] w]; run_monad; [done|].
  by destruct (Date_now w).
Qed.

Lemma generatePresignedUploadUrl_encoding_fails key contentType metadata maxSizeBytes e st :
  S3Service.metadataHeaders metadata = Throw e →
  S3Service.generatePresignedUploadUrl env key contentType metadata maxSizeBytes st
  = (Throw (S3Error "Failed to generate presigned upload URL" e), st).
Proof.
  intros Hh.
  unfold S3Service.generatePresignedUploadUrl, try_catch, bind, lift. by rewrite Hh.
Qed.

Lemma generatePresignedGetUrl_calls key st :
  calls (S3Service.generatePresignedGetUrl env key st).2
  = calls st
    ++ [Sign (GetObjectCommand (S3Service.object_input env (config.prefix env ++ key)))
          (PRESIGN_GET_EXPIRY_SECONDS env)].
Proof.
  unfold S3Service.generatePresignedGetUrl. run_monad.
  destruct (getSignedUrl _ _ (world st)) as [[e|url] w]; run_monad; [done|].
  by destruct (Date_now w).
Qed.

Lemma metadataHeaders_default metadata :
  S3Service.metadataHeaders metadata
  = S3Service.metadataHeaders (Some (default no_metadata metadata)).
Proof. by destruct metadata. Qed.

Lemma encoded_percent_encoded x :
  S3Service.encoded x
  = match percent_encoded x with
    | Some e => Return e
    | None => Throw URIError
    end.
Proof.
  destruct x as [[|c s]|]; [done| |done].
  unfold S3Service.encoded, S3Service.encodeURIComponent, percent_encoded.
  cbn [S3Service.truthy]. by destruct (Builtins.encodeURIComponent (c :: s)).
Qed.

(** The headers, field by field. *)
Lemma metadataHeaders_run (m : FileMetadata) :
  match percent_encoded (originalFilename m), percent_encoded (description m) with
  | Some name, Some text =>
      ∃ headers,
        S3Service.metadataHeaders (Some m) = Return headers
        ∧ headers !! "x-amz-meta-user-id" = if_nonempty (userId m)
        ∧ headers !! "x-amz-meta-original-filename" = name
        ∧ headers !! "x-amz-meta-tags" = JSON.stringify <$> tags m
        ∧ headers !! "x-amz-meta-is-public" = S3Service.bool_toString <$> isPublic m
        ∧ headers !! "x-amz-meta-description" = text
  | _, _ => S3Service.metadataHeaders (Some m) = Throw URIError
  end.
Proof.
  unfold S3Service.metadataHeaders. rewrite !encoded_percent_encoded.
  destruct (percent_encoded (originalFilename m)) as [name|]; [|done]. cbn [obind].
  destruct (percent_encoded (description m)) as [text|]; [|done]. cbn [obind].
  exists (S3Service.set_if_present "x-amz-meta-description" text
            (S3Service.set_if_present "x-amz-meta-is-public"
               (S3Service.bool_toString <$> isPublic m)
               (S3Service.set_if_present "x-amz-meta-tags" (JSON.stringify <$> tags m)
                  (S3Service.set_if_present "x-amz-meta-original-filename" name
                     (S3Service.set_if_present "x-amz-meta-user-id"
                        (S3Service.truthy (userId m)) ∅))))).
  split; [done|]. split; [|split; [|split; [|split]]].
  - rewrite !lookup_set_if_present_ne by done. rewrite lookup_set_if_present_eq.
    by destruct (userId m) as [[|c u]|].
  - rewrite !lookup_set_if_present_ne by done. rewrite lookup_set_if_present_eq.
    destruct name; [done|]. by rewrite lookup_set_if_present_ne by done.
  - rewrite !lookup_set_if_present_ne by done. rewrite lookup_set_if_present_eq.
    destruct (tags m); [done|]. cbn [fmap option_fmap option_map].
    by rewrite !lookup_set_if_present_ne by done.
  - rewrite !lookup_set_if_present_ne by done. rewrite lookup_set_if_present_eq.
    destruct (isPublic m); [done|]. cbn [fmap option_fmap option_map].
    by rewrite !lookup_set_if_present_ne by done.
  - rewrite lookup_set_if_present_eq.
    destruct text; [done|]. by rewrite !lookup_set_if_present_ne by done.
Qed.

Lemma put_input_metadata_header fullKey contentType metadata headers maxSizeBytes name :
  S3Service.metadataHeaders metadata = Return headers →
  name ∈ metadata_header_names →
  S3Service.put_input env fullKey contentType headers maxSizeBytes !! name
  = VString <$> headers !! name.
Proof.
  intros Hh Hname.
  destruct (headers !! name) as [v|] eqn:Hv.
  - apply put_input_header; [|done].
    intros n Hn. by apply (metadataHeaders_names metadata).
  - unfold S3Service.put_input.
    assert (name ≠ "ContentLength" ∧ name ≠ "ContentType" ∧ name ≠ "Key"
            ∧ name ≠ "Bucket") as (? & ? & ? & ?).
    { unfold metadata_header_names in Hname.
      rewrite !elem_of_cons, elem_of_nil in Hname.
      by destruct Hname as [->|[->|[->|[->|[->|[]]]]]]. }
    assert (((VString <$> headers) ∪
             (<["ContentType" := VString contentType]>
                (<["Key" := VString fullKey]>
                   (<["Bucket" := VString (config.bucketName env)]> ∅)))) !! name
            = None) as Hu.
    { apply lookup_union_None. split; [by rewrite lookup_fmap, Hv|].
      by rewrite !lookup_insert_ne. }
    destruct maxSizeBytes as [n|]; [destruct (number_truthy n)|];
      rewrite ?lookup_insert_ne by done; done.
Qed.

Lemma put_input_other fullKey contentType metadata headers maxSizeBytes name :
  S3Service.metadataHeaders metadata = Return headers →
  name ∉ put_names →
  S3Service.put_input env fullKey contentType headers maxSizeBytes !! name = None.
Proof.
  intros Hh Hname. unfold put_names in Hname. cbn [app] in Hname.
  apply not_elem_of_cons in Hname as [? Hname].
  apply not_elem_of_cons in Hname as [? Hname].
  apply not_elem_of_cons in Hname as [? Hname].
  apply not_elem_of_cons in Hname as [? Hname].
  unfold S3Service.put_input.
  assert (((VString <$> headers) ∪
           (<["ContentType" := VString contentType]>
              (<["Key" := VString fullKey]>
                 (<["Bucket" := VString (config.bucketName env)]> ∅)))) !! name
          = None) as Hu.
  { apply lookup_union_None. split.
    - by rewrite lookup_fmap, (metadataHeaders_names metadata headers name).
    - by rewrite !lookup_insert_ne. }
  destruct maxSizeBytes as [n|]; [destruct (number_truthy n)|];
    rewrite ?lookup_insert_ne by done; done.
Qed.

Lemma put_input_ContentLength_guard fullKey contentType metadata headers maxSizeBytes :
  S3Service.metadataHeaders metadata = Return headers →
  S3Service.put_input env fullKey contentType headers maxSizeBytes !! "ContentLength"
  = match maxSizeBytes with
    | Some n => if number_truthy n then Some (VNumber n) else None
    | None => None
    end.
Proof.
  intros Hh. unfold S3Service.put_input.
  assert (((VString <$> headers) ∪
           (<["ContentType" := VString contentType]>
              (<["Key" := VString fullKey]>
                 (<["Bucket" := VString (config.bucketName env)]> ∅))))
            !! "ContentLength" = None) as Hu.
  { apply lookup_union_None. split.
    - rewrite lookup_fmap, (metadataHeaders_names metadata headers); [done..|].
      unfold metadata_header_names. rewrite !not_elem_of_cons.
      repeat split; done || apply not_elem_of_nil.
    - by rewrite !lookup_insert_ne. }
  destruct maxSizeBytes as [n|]; [destruct (number_truthy n)|]; [|done..].
  apply lookup_insert_eq.
Qed.
End Signing.

(** C3, as amended.  For every call of [generatePresignedUploadUrl]
    whose filename and description can be percent-encoded, the signer
    receives exactly one request, under [PRESIGN_EXPIRY_SECONDS]: a
    [PutObjectCommand] carrying the bucket, the key under the configured
    prefix, the content type, and the metadata headers, each present
    exactly when its field passes the guard of the code: the user id as
    given, the filename and the description percent-encoded, the tags as
    JSON, the public flag as ["true"] or ["false"].  It carries
    [ContentLength], equal to the size supplied, exactly when that size is
    truthy: a size of [0] or [NaN] puts no constraint.  It carries nothing
    else.  When the filename or the description cannot be encoded the
    call fails before anything is signed.  For every call of
    [generatePresignedGetUrl] the signer receives a [GetObjectCommand]
    carrying the bucket and the prefixed key, under
    [PRESIGN_GET_EXPIRY_SECONDS], a setting of its own. *)
Theorem signed_requests_carry_their_constraints `{Platform} (env : Env)
    (key contentType : jsstring) (metadata : option FileMetadata)
    (maxSizeBytes : option number) (st : St) :
  let m := default no_metadata metadata in
  let get := S3Service.object_input env (config.prefix env ++ key) in
  match percent_encoded (originalFilename m), percent_encoded (description m) with
  | Some name, Some text =>
      ∃ put,
        calls (S3Service.generatePresignedUploadUrl env key contentType metadata
                 maxSizeBytes st).2
        = calls st ++ [Sign (PutObjectCommand put) (PRESIGN_EXPIRY_SECONDS env)]
        ∧ put !! "Bucket" = Some (VString (S3_BUCKET_NAME env))
        ∧ put !! "Key" = Some (VString (config.prefix env ++ key))
        ∧ put !! "ContentType" = Some (VString contentType)
        ∧ put !! "x-amz-meta-user-id" = VString <$> if_nonempty (userId m)
        ∧ put !! "x-amz-meta-original-filename" = VString <$> name
        ∧ put !! "x-amz-meta-tags" = VString <$> (JSON.stringify <$> tags m)
        ∧ put !! "x-amz-meta-is-public"
          = (λ b : bool, VString (js (if b then "true" else "false"))) <$> isPublic m
        ∧ put !! "x-amz-meta-description" = VString <$> text
        ∧ put !! "ContentLength"
          = match maxSizeBytes with
            | Some n => if number_truthy n then Some (VNumber n) else None
            | None => None
            end
        ∧ ∀ other, other ∉ put_names → put !! other = None
  | _, _ =>
      S3Service.generatePresignedUploadUrl env key contentType metadata maxSizeBytes st
      = (Throw (S3Error "Failed to generate presigned upload URL" URIError), st)
  end
  ∧ calls (S3Service.generatePresignedGetUrl env key st).2
    = calls st ++ [Sign (GetObjectCommand get) (PRESIGN_GET_EXPIRY_SECONDS env)]
  ∧ get !! "Bucket" = Some (VString (S3_BUCKET_NAME env))
  ∧ get !! "Key" = Some (VString (config.prefix env ++ key)).
Proof.
  intros m get. split; [|split; [apply generatePresignedGetUrl_calls | done]].
  pose proof (metadataHeaders_run m) as Hrun. subst m.
  rewrite <- (metadataHeaders_default metadata) in Hrun.
  set (m := default no_metadata metadata) in *.
  destruct (percent_encoded (originalFilename m)) as [name|];
    [|by apply generatePresignedUploadUrl_encoding_fails].
  destruct (percent_encoded (description m)) as [text|];
    [|by apply generatePresignedUploadUrl_encoding_fails].
  destruct Hrun as (headers & Hh & Huser & Hname & Htags & Hpublic & Htext).
  pose proof (λ n, metadataHeaders_names metadata headers n Hh) as Hdom.
  pose proof (λ n, put_input_metadata_header env (config.prefix env ++ key) contentType
                     metadata headers maxSizeBytes n Hh) as Hheader.
  eexists. split; [by apply generatePresignedUploadUrl_calls|].
  split; [by rewrite put_input_named by (first [done | repeat constructor])|].
  split; [by rewrite put_input_named by (first [done | repeat constructor])|].
  split; [by rewrite put_input_named by (first [done | repeat constructor])|].
  unfold metadata_header_names in Hheader.
  split; [rewrite Hheader, Huser by (rewrite !elem_of_cons; auto 10); done|].
  split; [rewrite Hheader, Hname by (rewrite !elem_of_cons; auto 10); done|].
  split; [rewrite Hheader, Htags by (rewrite !elem_of_cons; auto 10); done|].
  split.
  { rewrite Hheader, Hpublic by (rewrite !elem_of_cons; auto 10).
    by destruct (isPublic m) as [[]|]. }
  split; [rewrite Hheader, Htext by (rewrite !elem_of_cons; auto 10); done|].
  split; [by apply (put_input_ContentLength_guard env _ _ metadata)|].
  intros other Hother. by apply (put_input_other env _ _ metadata).
Qed.

(** C3 at the upload of ["caf\u00e9.jpg"] by ["user123"] with a size of
    1024 bytes: the command carries the size, the user id and the
    percent-encoded filename. *)
Lemma signed_requests_witness :
  ∃ put,
    calls (S3Service.generatePresignedUploadUrl (H := Scripted.platform) Scripted.env
             (js "k") (js "image/jpeg") (Some Fixture.full_metadata)
             (Some (num 1024)) (Scripted.start Fixture.idle)).2
    = [Sign (PutObjectCommand put) 900]
    ∧ put !! "x-amz-meta-user-id" = Some (VString (js "user123"))
    ∧ put !! "x-amz-meta-original-filename" = Some (VString (js "caf%C3%A9.jpg"))
    ∧ put !! "x-amz-meta-tags" = Some (VString (js "[" ++ [34] ++ js "photo"
                                                 ++ [34] ++ js "," ++ [34]
                                                 ++ js "profile" ++ [34] ++ js "]"))
    ∧ put !! "x-amz-meta-is-public" = Some (VString (js "true"))
    ∧ put !! "ContentLength" = Some (VNumber (num 1024)).
Proof.
  pose proof (signed_requests_carry_their_constraints (H := Scripted.platform)
                Scripted.env (js "k") (js "image/jpeg") (Some Fixture.full_metadata)
                (Some (num 1024)) (Scripted.start Fixture.idle)) as T.
  cbv zeta in T. destruct T as [T _].
  change (percent_encoded (originalFilename (default no_metadata (Some Fixture.full_metadata))))
    with (Some (Some (js "caf%C3%A9.jpg"))) in T.
  destruct (percent_encoded (description (default no_metadata (Some Fixture.full_metadata))))
    as [text|] eqn:Etext; [|by vm_compute in Etext].
  destruct T as (put & Hcalls & _ & _ & _ & Huser & Hname & Htags & Hpublic & _ & Hlength & _).
  exists put. split; [exact Hcalls|]. split; [exact Huser|]. split; [exact Hname|].
  split; [exact Htags|]. split; [exact Hpublic|exact Hlength].
Defined.

(** C3, the claim as stated fails: an upload request with the size [0]
    passes the size check and is signed, and the command handed to the
    signer carries no [ContentLength] although a size was supplied. *)
Lemma zero_size_is_signed_without_ContentLength :
  let run :=
    FileService.generatePresignedUploadUrl (H := Scripted.platform) Scripted.env
      {| filename := js "test.jpg"; contentType := js "image/jpeg";
         size := Some (num 0); metadata := None |}
      (Scripted.start Fixture.idle) in
  let put :=
    S3Service.put_input Scripted.env
      (js "test-uploads/1700000000001-1700000000000-4fzyo82mv-test.jpg")
      (js "image/jpeg") (<["x-amz-meta-original-filename" := js "test.jpg"]> ∅)
      (Some (num 0)) in
  (∃ response, run.1 = Return response)
  ∧ calls run.2 = [Sign (PutObjectCommand put) 900]
  ∧ put !! "ContentLength" = None.
Proof.
  intros run put. split; [eexists; vm_compute; reflexivity|].
  split; [vm_compute; reflexivity|reflexivity].
Qed.

(** ** Listing *)

Lemma number_or_not_NaN x d : d ≠ NaN → number_or x d ≠ NaN.
Proof. intros Hd. destruct x as [[| | |q]|]; simpl; try done. by destruct (negb _). Qed.

Lemma Qle_bool_false x y : Qle_bool x y = false → (y < x)%Q.
Proof.
  intros E. apply Qnot_le_lt. intros Hle%Qle_bool_iff. congruence.
Qed.

Lemma Math_max_lower x : x ≠ NaN → number_le (num 1) (Math_max (num 1) x) = true.
Proof.
  destruct x as [| | |q]; try done. intros _. unfold num; simpl.
  destruct (Qle_bool q (inject_Z 1)) eqn:E; simpl.
  - by apply Qle_bool_iff.
  - apply Qle_bool_iff, Qlt_le_weak. by apply Qle_bool_false.
Qed.

Lemma Math_min_max_bounds x :
  x ≠ NaN →
  number_le (num 1) (Math_min (num 100) (Math_max (num 1) x)) = true
  ∧ number_le (Math_min (num 100) (Math_max (num 1) x)) (num 100) = true.
Proof.
  destruct x as [| | |q]; try done; intros _; unfold num; simpl; [done..|].
  destruct (Qle_bool q (inject_Z 1)) eqn:E1; simpl; [done|].
  destruct (Qle_bool (inject_Z 100) q) eqn:E2; simpl; [done|].
  split; apply Qle_bool_iff, Qlt_le_weak; by apply Qle_bool_false.
Qed.

Section Listing.
Context `{Platform}.
Variable env : Env.

Lemma listFiles_run query st :
  FileService.listFiles env query st =
    match S3Service.listFiles env (Some (string_or (q_prefix query) []))
            (clamped_limit query) None st with
    | (Return result, st') => (Return (list_response query result), st')
    | (Throw e, st') => (Throw e, st')
    end.
Proof.
  unfold FileService.listFiles, bind, clamped_limit.
  by destruct (S3Service.listFiles _ _ _ _ _) as [[result|e] st'].
Qed.

Lemma search_prefix prefix :
  match string_or prefix [] with
  | c :: p => config.prefix env ++ c :: p
  | [] => config.prefix env
  end = config.prefix env ++ string_or prefix [].
Proof. destruct (string_or prefix []); [by rewrite app_nil_r | done]. Qed.

Lemma S3_listFiles_store_fails query e w st :
  send_list (list_call env query) (world st) = (inl e, w) →
  S3Service.listFiles env (Some (string_or (q_prefix query) [])) (clamped_limit query)
    None st
  = (Throw (S3Error "Failed to list files" e),
     {| world := w; calls := calls st ++ [Send (ListObjectsV2Command (list_call env query))] |}).
Proof.
  unfold list_call. rewrite <- search_prefix. intros Hs.
  unfold S3Service.listFiles. run_monad. by rewrite Hs.
Qed.

Lemma mapM_listed_file_returns objects st :
  ∃ listed st', mapM (S3Service.listed_file env) objects st = (Return listed, st').
Proof.
  revert st. induction objects as [|o objects IH]; intros st; [by eexists _, _|].
  simpl. unfold bind at 1.
  assert (∃ f st1, S3Service.listed_file env o st = (Return f, st1)) as (f & st1 & ->).
  { unfold S3Service.listed_file. run_monad.
    destruct (ObjectLastModified o); [by eexists _, _|].
    destruct (Date_now (world st)); by eexists _, _. }
  unfold bind. destruct (IH st1) as (listed & st' & ->). by eexists _, _.
Qed.

Lemma S3_listFiles_store_answers query out w st :
  send_list (list_call env query) (world st) = (inr out, w) →
  ∃ result st',
    S3Service.listFiles env (Some (string_or (q_prefix query) [])) (clamped_limit query)
      None st
    = (Return result, st').
Proof.
  unfold list_call. rewrite <- search_prefix. intros Hs.
  unfold S3Service.listFiles. unfold try_catch, bind at 1, request. rewrite Hs.
  cbn beta iota. unfold bind at 1.
  destruct (Contents out) as [objects|].
  - edestruct (mapM_listed_file_returns objects) as (listed & st' & ->). by eexists _, _.
  - by eexists _, _.
Qed.
End Listing.

(** C10.  For every two list queries with the same prefix and the same
    limit, run in the same state, [listFiles] fails alike or returns the
    same files, limit, total and [hasMore], and leaves the same state:
    page, user id and tags take no part, and the page is only echoed
    (after clamping). *)
Theorem listing_ignores_page_user_and_tags `{Platform} (env : Env)
    (q1 q2 : ListFilesQuery) (st : St) :
  q_prefix q1 = q_prefix q2 →
  q_limit q1 = q_limit q2 →
  without_page (FileService.listFiles env q1 st).1
  = without_page (FileService.listFiles env q2 st).1
  ∧ (FileService.listFiles env q1 st).2 = (FileService.listFiles env q2 st).2
  ∧ match (FileService.listFiles env q1 st).1 with
    | Return r => page (pagination r) = Math_max (num 1) (number_or (q_page q1) (num 1))
    | Throw _ => True
    end.
Proof.
  intros Hp Hl. rewrite !listFiles_run. unfold list_response, clamped_limit, clamped_page.
  rewrite Hp, Hl.
  by destruct (S3Service.listFiles _ _ _ _ _) as [[result|e] st'].
Qed.

(** The hypotheses of C10 at the query without parameters and the query
    for page 2 of a user's tagged files, over a store with one object. *)
Lemma listing_ignores_page_witness :
  q_prefix Fixture.no_query = q_prefix Fixture.page_two_of_user
  ∧ q_limit Fixture.no_query = q_limit Fixture.page_two_of_user
  ∧ without_page
      (FileService.listFiles (H := Scripted.platform) Scripted.env Fixture.no_query
         (Scripted.start Fixture.after_upload)).1
    = without_page
        (FileService.listFiles (H := Scripted.platform) Scripted.env
           Fixture.page_two_of_user (Scripted.start Fixture.after_upload)).1.
Proof.
  split; [reflexivity|]. split; [reflexivity|].
  exact (proj1 (listing_ignores_page_user_and_tags (H := Scripted.platform)
                  Scripted.env Fixture.no_query Fixture.page_two_of_user
                  (Scripted.start Fixture.after_upload) eq_refl eq_refl)).
Defined.

Lemma limit_above_100_is_an_issue `{Platform} (request : FilesRoute.ListRequest) raw :
  FilesRoute.raw_limit request = Some raw →
  number_gt (Number raw) (num 100) = true →
  FilesRoute.listFilesQuerySchema_issues request ≠ [].
Proof.
  intros Hraw Hgt. unfold FilesRoute.listFilesQuerySchema_issues. rewrite Hraw.
  unfold FilesRoute.number_issues.
  intros [_ E]%app_eq_nil. revert E.
  destruct (Number raw) as [| | |q]; [done|..]; cbn [andb]; rewrite Hgt;
    by intros [_ [_ E]%app_eq_nil]%app_eq_nil.
Qed.

(** C6, as amended.  [FileService.listFiles] never rejects a query for
    its page or limit: whatever the requested values (absent, zero,
    negative, fractional, [NaN], infinite, too large) it computes a limit
    in [1, 100] and a page of at least 1, 20 and 1 when the value is
    absent; it returns them whenever the list call of the store succeeds,
    and fails, with the storage error, only when that call fails.  The
    route [GET /files] validates the query first: a request on which the
    query schema reports an issue, as it does on a limit above 100, is
    answered with a [ValidationError] and never reaches [listFiles]. *)
Theorem listFiles_clamps_and_the_route_validates `{Platform} (env : Env)
    (query : ListFilesQuery) (request : FilesRoute.ListRequest) (st : St) :
  let P := Math_max (num 1) (number_or (q_page query) (num 1)) in
  let L := Math_min (num 100) (Math_max (num 1) (number_or (q_limit query) (num 20))) in
  number_le (num 1) L = true ∧ number_le L (num 100) = true
  ∧ number_le (num 1) P = true
  ∧ (q_page query = None → P = num 1)
  ∧ (q_limit query = None → L = num 20)
  ∧ (∀ out w, send_list (list_call env query) (world st) = (inr out, w) →
       ∃ r st', FileService.listFiles env query st = (Return r, st')
                ∧ page (pagination r) = P ∧ limit (pagination r) = L)
  ∧ (∀ e w, send_list (list_call env query) (world st) = (inl e, w) →
       FileService.listFiles env query st
       = (Throw (S3Error "Failed to list files" e),
          {| world := w;
             calls := calls st ++ [Send (ListObjectsV2Command (list_call env query))] |}))
  ∧ (FilesRoute.listFilesQuerySchema_issues request ≠ [] →
     FilesRoute.GET_files env request st
     = (Throw (ValidationError
                 (ValidationFailed (FilesRoute.listFilesQuerySchema_issues request))), st))
  ∧ (∀ raw, FilesRoute.raw_limit request = Some raw →
            number_gt (Number raw) (num 100) = true →
            FilesRoute.listFilesQuerySchema_issues request ≠ []).
Proof.
  intros P L.
  assert (num 20 ≠ NaN ∧ num 1 ≠ NaN) as [H20 H1] by done.
  pose proof (Math_min_max_bounds _ (number_or_not_NaN (q_limit query) _ H20)) as [HL1 HL2].
  pose proof (Math_max_lower _ (number_or_not_NaN (q_page query) _ H1)) as HP.
  repeat split; try done.
  - unfold P. by intros ->.
  - unfold L. by intros ->.
  - intros out w Hs. rewrite listFiles_run.
    destruct (S3_listFiles_store_answers env query out w st Hs) as (result & st' & ->).
    by eexists _, _.
  - intros e w Hs. rewrite listFiles_run.
    by rewrite (S3_listFiles_store_fails env query e w st Hs).
  - intros Hi. unfold FilesRoute.GET_files, bind, FilesRoute.validate.
    by destruct (FilesRoute.listFilesQuerySchema_issues request).
  - apply limit_above_100_is_an_issue.
Qed.

(** The hypotheses of C6 at [{ page: 0, limit: 500 }] handed to
    [listFiles] over a store that answers, and at [GET /files?limit=500]. *)
Lemma listFiles_clamps_witness :
  (∃ r st',
     FileService.listFiles (H := Scripted.platform) Scripted.env Fixture.limit_500
       (Scripted.start Fixture.idle) = (Return r, st')
     ∧ page (pagination r) = num 1 ∧ limit (pagination r) = num 100)
  ∧ FilesRoute.listFilesQuerySchema_issues (H := Scripted.platform) Fixture.too_many ≠ []
  ∧ ∃ m, FilesRoute.GET_files (H := Scripted.platform) Scripted.env Fixture.too_many
           (Scripted.start Fixture.idle)
         = (Throw (ValidationError m), Scripted.start Fixture.idle).
Proof.
  destruct (listFiles_clamps_and_the_route_validates (H := Scripted.platform)
              Scripted.env Fixture.limit_500 Fixture.too_many
              (Scripted.start Fixture.idle))
    as (_ & _ & _ & _ & _ & Hanswers & _ & Hroute & Habove).
  split; [|split].
  - destruct (Hanswers {| Contents := None; NextContinuationToken := None;
                          IsTruncated := None |} Fixture.idle eq_refl)
      as (r & st' & Hr & Hpage & Hlimit).
    exists r, st'. split; [exact Hr|]. split; [exact Hpage | exact Hlimit].
  - apply (Habove (js "500")); reflexivity.
  - eexists. apply Hroute. apply (Habove (js "500")); reflexivity.
Defined.

(** C6, the claim as stated fails: [GET /files?limit=500] is rejected
    with a [ValidationError] (status 400), and nothing is listed. *)
Lemma out_of_range_limit_is_rejected :
  FilesRoute.GET_files (H := Scripted.platform) Scripted.env Fixture.too_many (Scripted.start Fixture.idle)
  = (Throw (ValidationError (ValidationFailed ["limit"%string])), Scripted.start Fixture.idle)
  ∧ statusCode (ValidationError (ValidationFailed ["limit"%string])) = Some 400.
Proof. split; reflexivity. Qed.

(** ** Percent-encoding *)

Section Percent.
Import Builtins.

Lemma hex_value_upper v : v < 16 → hex_value (hex_upper v) = Some v.
Proof.
  intros Hv. unfold hex_value, hex_upper, is_digit, in_range.
  decide_comparisons; cbn [andb]; f_equal; lia.
Qed.

Lemma hex_value_lower v : v < 16 → hex_value (hex_lower v) = Some v.
Proof.
  intros Hv. unfold hex_value, hex_lower, is_digit, in_range.
  decide_comparisons; cbn [andb]; f_equal; lia.
Qed.

Lemma parse_hex_octet_percent b rest :
  b < 256 →
  parse_hex_octet (hex_upper (b / 16) :: hex_upper (b mod 16) :: rest) = Some (b, rest).
Proof.
  intros Hb. unfold parse_hex_octet.
  rewrite !hex_value_upper by lia. do 2 f_equal. lia.
Qed.

Lemma continuation_octets_percent bs rest :
  Forall (λ b, b < 256) bs →
  continuation_octets (length bs) (percent_octets bs ++ rest) = Some (bs, rest).
Proof.
  induction 1 as [|b bs Hb _ IH]; [done|].
  cbn [length continuation_octets percent_octets map concat percent_octet app].
  unfold Chr.percent at 2. rewrite N.eqb_refl, parse_hex_octet_percent by done.
  fold (percent_octets bs). by rewrite IH.
Qed.

(** The shape of the octets of a code point outside the ASCII range. *)
Lemma utf8_multi cp :
  128 ≤ cp → cp < 1114112 → (cp < 55296 ∨ 57343 < cp) →
  ∃ b0 bs,
    utf8 cp = b0 :: bs ∧ b0 < 256 ∧ Forall (λ b, b < 256) bs
    ∧ leading_ones b0 = S (length bs) ∧ (1 ≤ length bs ≤ 3)%nat
    ∧ utf8_code_point (b0 :: bs) = Some cp.
Proof.
  intros Hlo Hhi Hsur. unfold utf8.
  destruct (N.ltb_spec cp 128); [lia|].
  destruct (N.ltb_spec cp 2048); [|destruct (N.ltb_spec cp 65536)];
    eexists _, _; (split; [reflexivity|]);
    (split; [lia|]); (split; [repeat constructor; lia|]);
    (split; [unfold leading_ones; decide_comparisons; reflexivity|]);
    (split; [simpl; lia|]);
    unfold utf8_code_point, is_continuation, in_range;
    decide_comparisons; cbn [andb negb]; f_equal; lia.
Qed.

Lemma decode_step_percent_ascii cp rest :
  cp < 128 →
  decode_step Chr.percent (tail (percent_octet cp) ++ rest) = Some ([cp], rest).
Proof.
  intros Hcp. unfold decode_step. rewrite N.eqb_refl.
  cbn [percent_octet tail app]. rewrite parse_hex_octet_percent by lia.
  unfold leading_ones. by destruct (N.ltb_spec cp 128); [|lia].
Qed.

Lemma decode_step_percent_multi b0 bs cp rest :
  b0 < 256 → Forall (λ b, b < 256) bs →
  leading_ones b0 = S (length bs) → (1 ≤ length bs ≤ 3)%nat →
  utf8_code_point (b0 :: bs) = Some cp →
  decode_step Chr.percent (tail (percent_octets (b0 :: bs)) ++ rest)
  = Some (utf16 cp, rest).
Proof.
  intros Hb0 Hbs Hlead Hlen Hcp. unfold decode_step. rewrite N.eqb_refl.
  cbn [percent_octets map concat percent_octet tail app].
  fold (percent_octets bs).
  rewrite parse_hex_octet_percent, Hlead by done.
  destruct (length bs) as [|n] eqn:El; [lia|].
  destruct (Nat.leb_spec 3 n); [lia|].
  rewrite <- El, continuation_octets_percent by done. by rewrite Hcp.
Qed.

(** Decoding the escape of one code point gives its code units back. *)
Lemma decode_step_code_point cp rest :
  cp < 1114112 → (cp < 55296 ∨ 57343 < cp) →
  ∃ s, percent_octets (utf8 cp) ++ rest = Chr.percent :: s
       ∧ decode_step Chr.percent s = Some (utf16 cp, rest)
       ∧ (length rest < length s)%nat.
Proof.
  intros Hhi Hsur. destruct (N.lt_ge_cases cp 128) as [Hascii|Hmulti].
  - exists (tail (percent_octet cp) ++ rest). unfold utf8.
    destruct (N.ltb_spec cp 128); [|lia]. split; [done|]. split.
    + rewrite decode_step_percent_ascii by done. unfold utf16.
      by destruct (N.ltb_spec cp 65536); [|lia].
    + simpl. lia.
  - destruct (utf8_multi cp) as (b0 & bs & -> & ? & ? & ? & ? & ?); [done..|].
    exists (tail (percent_octets (b0 :: bs)) ++ rest). split; [done|]. split.
    + by apply decode_step_percent_multi.
    + cbn [percent_octets map concat percent_octet tail app length].
      rewrite length_app. lia.
Qed.

Lemma unreserved_not_surrogate c :
  uri_unreserved c = true → is_lead_surrogate c = false ∧ c < 128 ∧ c ≠ Chr.percent.
Proof.
  unfold uri_unreserved, is_lead_surrogate, is_lower, is_upper, is_digit, in_range,
    Chr.percent.
  decide_comparisons; cbn [andb orb]; intros; try done; repeat split; lia.
Qed.

Lemma pair_code_point_utf16 c c2 :
  is_lead_surrogate c = true → is_trail_surrogate c2 = true →
  65536 ≤ pair_code_point c c2 < 1114112 ∧ utf16 (pair_code_point c c2) = [c; c2].
Proof.
  unfold is_lead_surrogate, is_trail_surrogate, in_range, pair_code_point, utf16.
  intros [H1 H2]%andb_true_iff [H3 H4]%andb_true_iff.
  apply N.leb_le in H1, H2, H3, H4. split; [lia|].
  destruct (N.ltb_spec ((c - 55296) * 1024 + (c2 - 56320) + 65536) 65536); [lia|].
  f_equal; [|f_equal]; lia.
Qed.

Lemma encodeURIComponent_total s :
  well_formed s = true → ∃ e, encodeURIComponent s = Some e.
Proof.
  remember (length s) as n eqn:En. revert s En.
  induction n as [n IH] using lt_wf_ind. intros [|c s] En; [by eexists|].
  simpl in En. cbn [well_formed encodeURIComponent].
  destruct (uri_unreserved c) eqn:Eu.
  - destruct (unreserved_not_surrogate c Eu) as (-> & _ & _).
    intros [_ Hwf]%andb_true_iff.
    destruct (IH (length s) ltac:(lia) s eq_refl Hwf) as [e ->]. by eexists.
  - destruct (is_lead_surrogate c) eqn:El.
    + assert (is_trail_surrogate c = false) as ->.
      { revert El. unfold is_lead_surrogate, is_trail_surrogate, in_range.
        decide_comparisons; done. }
      destruct s as [|c2 s]; [done|]. intros [-> Hwf]%andb_true_iff.
      simpl in En.
      destruct (IH (length s) ltac:(lia) s eq_refl Hwf) as [e ->]. by eexists.
    + intros [[->%negb_true_iff _]%andb_true_iff Hwf]%andb_true_iff.
      destruct (IH (length s) ltac:(lia) s eq_refl Hwf) as [e ->]. by eexists.
Qed.

Lemma decode_loop_encode n : ∀ s e fuel,
  (length s ≤ n)%nat → well_formed s = true →
  encodeURIComponent s = Some e → (length e ≤ fuel)%nat →
  decode_loop fuel e = Some s.
Proof.
  induction n as [n IH] using lt_wf_ind. intros [|c s] e fuel Hn.
  { intros _ [= <-] _. by destruct fuel. }
  simpl in Hn. cbn [well_formed encodeURIComponent].
  destruct (uri_unreserved c) eqn:Eu.
  - destruct (unreserved_not_surrogate c Eu) as (-> & _ & Hp).
    intros [_ Hwf]%andb_true_iff.
    destruct (encodeURIComponent s) as [e'|] eqn:Ee; [|done].
    intros [= <-] Hfuel. simpl in Hfuel. destruct fuel as [|fuel]; [lia|].
    cbn [decode_loop]. unfold decode_step. apply N.eqb_neq in Hp as ->.
    by rewrite (IH (length s) ltac:(lia) s e' fuel) by (done || lia).
  - destruct (is_lead_surrogate c) eqn:El.
    + assert (is_trail_surrogate c = false) as ->.
      { revert El. unfold is_lead_surrogate, is_trail_surrogate, in_range.
        decide_comparisons; done. }
      destruct s as [|c2 s]; [done|]. intros [Et Hwf]%andb_true_iff. rewrite Et.
      destruct (encodeURIComponent s) as [e'|] eqn:Ee; [|done].
      intros [= <-] Hfuel. simpl in Hn.
      destruct (pair_code_point_utf16 c c2 El Et) as [Hcp Hunits].
      destruct (decode_step_code_point (pair_code_point c c2) e')
        as (x & Hx & Hstep & Hlen); [lia..|].
      fold (percent_octets (utf8 (pair_code_point c c2))) in Hfuel |- *.
      rewrite Hx in Hfuel |- *. simpl in Hfuel. destruct fuel as [|fuel]; [lia|].
      cbn [decode_loop]. rewrite Hstep, Hunits.
      by rewrite (IH (length s) ltac:(lia) s e' fuel) by (done || lia).
    + intros [[Et%negb_true_iff Hc%N.ltb_lt]%andb_true_iff Hwf]%andb_true_iff.
      rewrite Et.
      destruct (encodeURIComponent s) as [e'|] eqn:Ee; [|done].
      intros [= <-] Hfuel.
      destruct (decode_step_code_point c e') as (x & Hx & Hstep & Hlen); [lia| |].
      { revert El Et. unfold is_lead_surrogate, is_trail_surrogate, in_range.
        decide_comparisons; cbn [andb]; try done; lia. }
      fold (percent_octets (utf8 c)) in Hfuel |- *.
      rewrite Hx in Hfuel |- *. simpl in Hfuel. destruct fuel as [|fuel]; [lia|].
      cbn [decode_loop]. rewrite Hstep. unfold utf16.
      destruct (N.ltb_spec c 65536); [|lia].
      by rewrite (IH (length s) ltac:(lia) s e' fuel) by (done || lia).
Qed.

(** [decodeURIComponent(encodeURIComponent(s)) = s] for well-formed [s]. *)
Lemma decodeURIComponent_encodeURIComponent s :
  well_formed s = true →
  ∃ e, encodeURIComponent s = Some e ∧ decodeURIComponent e = Some s
       ∧ (s ≠ [] → e ≠ []).
Proof.
  intros Hwf. destruct (encodeURIComponent_total s Hwf) as [e He].
  assert (decodeURIComponent e = Some s) as Hd
    by (unfold decodeURIComponent; by apply (decode_loop_encode (length s) s)).
  exists e. repeat split; [done..|].
  intros Hs ->. by injection Hd as <-.
Qed.

End Percent.

(** ** JSON and the header codec *)

Section Json.
Import Builtins JSON.

Lemma hex4_unicode_escape c :
  c < 65536 →
  hex4 (hex_lower (c / 4096)) (hex_lower ((c / 256) mod 16))
    (hex_lower ((c / 16) mod 16)) (hex_lower (c mod 16)) = Some c.
Proof.
  intros Hc. unfold hex4. rewrite !hex_value_lower by lia. f_equal. lia.
Qed.

Lemma parse_unicode_escape c s :
  c < 65536 →
  parse_string_body (unicode_escape c ++ s) = continue_with c (parse_string_body s).
Proof.
  intros Hc. unfold unicode_escape. cbn [app parse_string_body].
  change (Chr.backslash =? Chr.quote) with false.
  change (Chr.backslash =? Chr.backslash) with true.
  change (117 =? 117) with true. cbn iota.
  by rewrite hex4_unicode_escape.
Qed.

Lemma parse_plain_unit c s :
  c ≠ Chr.quote → c ≠ Chr.backslash → 32 ≤ c →
  parse_string_body (c :: s) = continue_with c (parse_string_body s).
Proof.
  intros H1%N.eqb_neq H2%N.eqb_neq H3. cbn [parse_string_body]. rewrite H1, H2.
  by destruct (N.ltb_spec c 32); [lia|].
Qed.

Lemma parse_quote_unit c s :
  parse_string_body (quote_unit c ++ s) = continue_with c (parse_string_body s).
Proof.
  unfold quote_unit.
  repeat match goal with
         | |- context [if ?a =? ?b then _ else _] => destruct (N.eqb_spec a b); [by subst|]
         end.
  destruct (N.ltb_spec c 32); [apply parse_unicode_escape; lia|].
  by apply parse_plain_unit.
Qed.

Lemma surrogate_bounds c :
  is_lead_surrogate c = true ∨ is_trail_surrogate c = true →
  c < 65536 ∧ c ≠ Chr.quote ∧ c ≠ Chr.backslash ∧ 32 ≤ c.
Proof.
  unfold is_lead_surrogate, is_trail_surrogate, in_range, Chr.quote, Chr.backslash.
  intros [[?%N.leb_le ?%N.leb_le]%andb_true_iff|[?%N.leb_le ?%N.leb_le]%andb_true_iff]; lia.
Qed.

(** Quoting a string and reading it back. *)
Lemma parse_string_body_quote_body n : ∀ s rest,
  (length s ≤ n)%nat →
  parse_string_body (quote_body s ++ Chr.quote :: rest) = Some (s, rest).
Proof.
  induction n as [n IH] using lt_wf_ind. intros [|c s] rest Hn.
  { cbn [quote_body app parse_string_body]. by rewrite N.eqb_refl. }
  simpl in Hn. cbn [quote_body].
  destruct (is_lead_surrogate c) eqn:El.
  - destruct (surrogate_bounds c (or_introl El)) as (? & ? & ? & ?).
    destruct s as [|c2 s].
    + rewrite parse_unicode_escape by done. cbn [app parse_string_body].
      by rewrite N.eqb_refl.
    + destruct (is_trail_surrogate c2) eqn:Et.
      * destruct (surrogate_bounds c2 (or_intror Et)) as (? & ? & ? & ?).
        simpl in Hn.
        rewrite <- !app_comm_cons, !parse_plain_unit by done.
        by rewrite (IH (length s)) by (done || lia).
      * rewrite <- app_assoc, parse_unicode_escape by done.
        by rewrite (IH (length (c2 :: s))) by (done || simpl; lia).
  - destruct (is_trail_surrogate c) eqn:Et.
    + destruct (surrogate_bounds c (or_intror Et)) as (? & _).
      rewrite <- app_assoc, parse_unicode_escape by done.
      by rewrite (IH (length s)) by (done || lia).
    + rewrite <- app_assoc, parse_quote_unit.
      by rewrite (IH (length s)) by (done || lia).
Qed.

Lemma parse_value_quote fuel s rest :
  parse_value (S fuel) (quote s ++ rest) = Some (JString s, rest).
Proof.
  unfold quote. cbn [parse_value app skip_ws].
  change (Chr.quote =? 9) with false. change (Chr.quote =? 10) with false.
  change (Chr.quote =? 13) with false. change (Chr.quote =? 32) with false.
  cbn [orb]. rewrite N.eqb_refl. rewrite <- app_assoc. cbn [app].
  by rewrite (parse_string_body_quote_body (length s)).
Qed.

Lemma parse_elements_quoted a : ∀ fuel rest,
  a ≠ [] → (length a < fuel)%nat →
  parse_elements fuel (join (js ",") (map quote a) ++ 93 :: rest)
  = Some (map JString a, rest).
Proof.
  induction a as [|x a IH]; [done|]. intros fuel rest _ Hfuel.
  destruct fuel as [|fuel]; [simpl in Hfuel; lia|].
  cbn [parse_elements].
  destruct fuel as [|fuel]; [simpl in Hfuel; lia|].
  destruct a as [|y a].
  - cbn [map join]. rewrite parse_value_quote.
    cbn [mbind option_bind skip_ws]. reflexivity.
  - change (join (js ",") (map quote (x :: y :: a)))
      with (quote x ++ [Chr.comma] ++ join (js ",") (map quote (y :: a))).
    set (t := join (js ",") (map quote (y :: a))) in *.
    rewrite <- !app_assoc. rewrite parse_value_quote.
    cbn [mbind option_bind skip_ws app].
    change ((Chr.comma =? 9) || (Chr.comma =? 10) || (Chr.comma =? 13) || (Chr.comma =? 32))
      with false. cbn iota. rewrite N.eqb_refl.
    subst t. rewrite IH by (done || simpl in *; lia). reflexivity.
Qed.

Lemma length_join_quote a : (length a ≤ length (join (js ",") (map quote a)))%nat.
Proof.
  induction a as [|x [|y a] IH]; [done| |].
  - unfold quote. simpl. lia.
  - change (join (js ",") (map quote (x :: y :: a)))
      with (quote x ++ js "," ++ join (js ",") (map quote (y :: a))).
    rewrite !length_app. simpl in *. lia.
Qed.

(** [JSON.parse(JSON.stringify(a))] is the array of the strings of [a]. *)
Lemma parse_stringify a :
  JSON.parse (stringify a) = Some (JArray (map JString a)).
Proof.
  unfold JSON.parse, stringify.
  assert (length a < 2 * length (js "[" ++ join (js ",") (map quote a) ++ js "]"))%nat
    as Hfuel.
  { rewrite !length_app. pose proof (length_join_quote a). simpl. lia. }
  set (fuel := (2 * _)%nat) in *. clearbody fuel.
  change (js "[") with [91]. change (js "]") with [93]. cbn [app parse_value skip_ws].
  change ((91 =? 9) || (91 =? 10) || (91 =? 13) || (91 =? 32)) with false.
  cbn iota. change (91 =? Chr.quote) with false. change (91 =? 91) with true. cbn iota.
  destruct a as [|x a].
  - reflexivity.
  - assert (∃ s, join (js ",") (map quote (x :: a)) ++ [93] = Chr.quote :: s) as [s Hs].
    { destruct a; cbn [map join]; unfold quote; by eexists. }
    rewrite Hs. cbn [skip_ws].
    change ((Chr.quote =? 9) || (Chr.quote =? 10) || (Chr.quote =? 13) || (Chr.quote =? 32))
      with false. cbn iota. change (Chr.quote =? 93) with false. cbn iota.
    rewrite <- Hs. rewrite parse_elements_quoted by done.
    reflexivity.
Qed.


End Json.



Lemma string_strip_prefix_Some p s k :
  string_strip_prefix p s = Some k ↔ s = (p +:+ k)%string.
Proof.
  revert s. induction p as [|a p IH]; intros s; simpl.
  - split; [by intros [= ->] | by intros ->].
  - destruct s as [|b s]; [done|].
    destruct (Ascii.eqb_spec a b) as [->|Hab].
    + rewrite IH. split; [by intros -> | by intros [= ->]].
    + split; [done | intros [= -> ->]; done].
Qed.

Lemma user_metadata_lookup headers k :
  user_metadata headers !! k = headers !! ("x-amz-meta-" +:+ k)%string.
Proof.
  unfold user_metadata.
  apply (map_fold_weak_ind
           (λ acc (m : gmap string jsstring),
              acc !! k = m !! ("x-amz-meta-" +:+ k)%string)); [done|].
  intros name value m acc Hfresh IH.
  destruct (string_strip_prefix "x-amz-meta-" name) as [k'|] eqn:E.
  - apply string_strip_prefix_Some in E as ->.
    destruct (decide (k' = k)) as [->|Hk].
    + by rewrite !lookup_insert_eq.
    + rewrite !lookup_insert_ne; [done| |done]. intros [= ?]. done.
  - rewrite lookup_insert_ne; [done|].
    intros ->. by rewrite (proj2 (string_strip_prefix_Some _ _ k) eq_refl) in E.
Qed.

Section Codec.
Import S3Service.


Lemma truthy_present x : nonempty_if_present x = true → truthy x = x.
Proof. by destruct x as [[|c s]|]. Qed.

Lemma encoded_decoded x :
  nonempty_if_present x = true → well_formed_if_present x = true →
  ∃ e, encoded x = Return e ∧ decoded e = Return x.
Proof.
  destruct x as [[|c s]|]; [done| |by exists None].
  intros _ Hwf. simpl in Hwf.
  destruct (decodeURIComponent_encodeURIComponent (c :: s) Hwf) as (e & He & Hd & Hne).
  exists (Some e). unfold encoded, decoded, truthy, encodeURIComponent. rewrite He.
  split; [done|]. destruct e as [|c' e]; [by destruct Hne|].
  cbn [obind]. unfold decodeURIComponent. by rewrite Hd.
Qed.

Lemma parsed_stringify (t : option (list jsstring)) :
  parsed (JSON.stringify <$> t) = Return ((λ a, JArray (map JString a)) <$> t).
Proof.
  destruct t as [a|]; [|done]. unfold parsed. cbn [fmap option_fmap option_map truthy].
  pose proof (parse_stringify a) as Hp.
  destruct (JSON.stringify a) as [|c s] eqn:E; [done|].
  unfold JSON_parse. by rewrite Hp.
Qed.

Lemma is_public_restored (p : option bool) :
  (λ v, bool_decide (v = js "true")) <$> truthy (bool_toString <$> p) = p.
Proof. by destruct p as [[]|]. Qed.

Lemma lookup_set_if_present_fresh {V} k (v : option V) (h : gmap string V) :
  h !! k = None → set_if_present k v h !! k = v.
Proof. intros Hk. rewrite lookup_set_if_present_eq. by destruct v. Qed.

End Codec.

(** Encoding a record and decoding what the store returns. *)
Lemma extractMetadata_metadataHeaders (m : FileMetadata) :
  survives_headers m = true →
  ∃ headers,
    S3Service.metadataHeaders (Some m) = Return headers
    ∧ S3Service.extractMetadata (Some (user_metadata headers)) = Return (stored m).
Proof.
  unfold survives_headers.
  intros [[[[Hu Hf]%andb_true_iff Hfw]%andb_true_iff Hd]%andb_true_iff Hdw]%andb_true_iff.
  destruct (encoded_decoded _ Hf Hfw) as (f & Ef & Df).
  destruct (encoded_decoded _ Hd Hdw) as (d & Ed & Dd).
  eexists. unfold S3Service.metadataHeaders. rewrite Ef, Ed. cbn [obind]. split; [reflexivity|].
  unfold S3Service.extractMetadata. rewrite !user_metadata_lookup.
  change ("x-amz-meta-" +:+ "user-id")%string with "x-amz-meta-user-id".
  change ("x-amz-meta-" +:+ "original-filename")%string with "x-amz-meta-original-filename".
  change ("x-amz-meta-" +:+ "tags")%string with "x-amz-meta-tags".
  change ("x-amz-meta-" +:+ "is-public")%string with "x-amz-meta-is-public".
  change ("x-amz-meta-" +:+ "description")%string with "x-amz-meta-description".
  repeat (rewrite ?lookup_set_if_present_ne by done;
          rewrite lookup_set_if_present_fresh
            by (by rewrite ?lookup_set_if_present_ne by done);
          rewrite ?Df, ?parsed_stringify, ?Dd; cbn [obind]).
  by rewrite is_public_restored, !(truthy_present (userId m)) by done.
Qed.

Section Retrieval.
Context `{Platform}.
Variable env : Env.

(** [getFileMetadata] on an object that the store has. *)
Lemma getFileMetadata_present key st response w md :
  send_head (S3Service.object_input env (config.prefix env ++ key)) (world st)
  = (inr response, w) →
  S3Service.extractMetadata (Metadata response) = Return md →
  S3Service.getFileMetadata env key st
  = (Return {| S3Service.exists_ := true;
               S3Service.info_contentType := ContentType response;
               S3Service.info_size := ContentLength response;
               S3Service.info_metadata :=
                 if S3Service.has_keys md then Some md else None;
               S3Service.info_lastModified := LastModified response |},
     {| world := w; calls := calls st ++ [head_call env key] |}).
Proof.
  intros Hs Hmd. unfold S3Service.getFileMetadata. run_monad. by rewrite Hs, Hmd.
Qed.
End Retrieval.

(** ** The claim on the metadata codec *)

(** C2, as amended.  For every metadata record in which no field holds
    the empty string and the two percent-encoded fields are well-formed
    UTF-16, the headers can be built, and decoding what the store returns
    for them gives the record back: the same user id, filename, public
    flag and description, the tags as the array of the same strings, and
    no property outside the schema.  [getFileMetadata] reports that record
    for every object stored with these headers, and reports no metadata
    at all when the record has none of the five fields. *)
Theorem metadata_survives_headers `{Platform} (env : Env) (m : FileMetadata)
    (key : jsstring) (st : St) :
  survives_headers m = true →
  ∃ headers,
    S3Service.metadataHeaders (Some m) = Return headers
    ∧ S3Service.extractMetadata (Some (user_metadata headers)) = Return (stored m)
    ∧ ∀ response w,
        send_head (S3Service.object_input env (config.prefix env ++ key)) (world st)
        = (inr response, w) →
        Metadata response = Some (user_metadata headers) →
        ∃ info st',
          S3Service.getFileMetadata env key st = (Return info, st')
          ∧ S3Service.exists_ info = true
          ∧ S3Service.info_metadata info
            = if S3Service.has_keys (stored m) then Some (stored m) else None.
Proof.
  intros Hm. destruct (extractMetadata_metadataHeaders m Hm) as (headers & He & Hd).
  exists headers. repeat split; [done..|].
  intros response w Hs Hmd. rewrite <- Hmd in Hd.
  eexists _, _. split; [by apply getFileMetadata_present|]. done.
Qed.

(** The hypothesis of C2 at a record with every field set. *)
Lemma metadata_survives_headers_witness :
  survives_headers Fixture.full_metadata = true
  ∧ ∃ headers,
      S3Service.metadataHeaders (Some Fixture.full_metadata) = Return headers
      ∧ S3Service.extractMetadata (Some (user_metadata headers))
        = Return (stored Fixture.full_metadata).
Proof.
  split; [reflexivity|].
  destruct (metadata_survives_headers (H := Scripted.platform) Scripted.env
              Fixture.full_metadata (js "k") (Scripted.start Fixture.idle) eq_refl)
    as (headers & He & Hd & _).
  exists headers. split; assumption.
Defined.

(** C2, the claim as stated fails: a record whose user id is the empty
    string is within the schema, yet no header is built for the user id
    and the record decodes without it. *)
Lemma empty_user_id_is_lost :
  ∃ headers decoded,
    S3Service.metadataHeaders (Some Fixture.empty_user) = Return headers
    ∧ S3Service.extractMetadata (Some (user_metadata headers)) = Return decoded
    ∧ headers !! "x-amz-meta-user-id" = None
    ∧ userId decoded = None
    ∧ originalFilename decoded = Some (js "test.jpg")
    ∧ userId (stored Fixture.empty_user) = Some []
    ∧ decoded ≠ stored Fixture.empty_user.
Proof.
  eexists _, _. split; [reflexivity|]. split; [vm_compute; reflexivity|].
  repeat split. intros E. discriminate E.
Qed.

(** ** Closed examples *)

(** The upload of ["test.jpg"] and the listing that follows it: the
    filename reported for the issued key. *)
Example listing_after_upload :
  match (FileService.generatePresignedUploadUrl (H := Scripted.platform) Scripted.env
           Fixture.jpeg_request (Scripted.start Fixture.idle)).1 with
  | Return r => upload_key r = js "1700000000001-1700000000000-4fzyo82mv-test.jpg"
  | Throw _ => False
  end
  ∧ match (FileService.listFiles (H := Scripted.platform) Scripted.env Fixture.no_query
             (Scripted.start Fixture.after_upload)).1 with
    | Return r =>
        map rec_key (files r) = [js "1700000000001-1700000000000-4fzyo82mv-test.jpg"]
        ∧ map rec_filename (files r) = [js "4fzyo82mv-test.jpg"]
        ∧ FileService.sanitize (js "test.jpg") = js "test.jpg"
    | Throw _ => False
    end.
Proof. vm_compute. auto. Qed.

(** An unpaired surrogate in a percent-encoded field: no URL is
    issued. *)
Example unpaired_surrogate_fails_encoding :
  S3Service.metadataHeaders
    (Some {| userId := None; originalFilename := None; tags := None;
             isPublic := None; description := Some [55296]; extension := ∅ |})
  = Throw URIError.
Proof. reflexivity. Qed.

(** An upload without a size, and with the size zero, carries no
    content-length constraint. *)
Example no_size_no_ContentLength :
  S3Service.put_input Scripted.env (js "k") (js "image/png") ∅ None !! "ContentLength"
  = None
  ∧ S3Service.put_input Scripted.env (js "k") (js "image/png") ∅ (Some (num 0))
      !! "ContentLength" = None.
Proof. split; reflexivity. Qed.

(** * Further properties of the code *)

(** ** Further properties of keys and filenames *)

Lemma sanitize_fixes_safe s :
  Forall (λ c, is_safe_char c = true) s → FileService.sanitize s = s.
Proof.
  induction 1 as [|c s Hc _ IH]; [done|].
  unfold FileService.sanitize in *. cbn [map]. by rewrite Hc, IH.
Qed.

(** X1. Sanitizing a filename keeps its length, changes nothing when it
    is applied a second time, and leaves a filename as it is exactly when
    every character of it is in [[a-zA-Z0-9._-]]. *)
Theorem sanitize_is_a_projection (filename : jsstring) :
  length (FileService.sanitize filename) = length filename
  ∧ FileService.sanitize (FileService.sanitize filename)
    = FileService.sanitize filename
  ∧ (FileService.sanitize filename = filename
     ↔ Forall (λ c, is_safe_char c = true) filename).
Proof.
  split; [apply length_map|]. split.
  - apply sanitize_fixes_safe, sanitize_safe.
  - split; [|apply sanitize_fixes_safe].
    intros <-. apply sanitize_safe.
Qed.

Lemma split_without_separator sep s : sep ∉ s → split sep s = [s].
Proof.
  induction s as [|c s IH]; [done|]. intros Hs.
  apply not_elem_of_cons in Hs as [Hc Hs].
  rewrite split_cons_ne by done. by rewrite IH.
Qed.

(** X2. When the caller of [generateSafeKey] supplies an id that is not
    empty and has no dash, the filename that [listFiles] reads off the
    key is the sanitized filename, also when the filename itself has
    dashes. *)
Theorem supplied_id_without_dash_recovers_filename `{Platform}
    (filename id : jsstring) (st : St) :
  id ≠ [] → Chr.dash ∉ id →
  ∃ key st',
    FileService.generateSafeKey filename (Some id) st = (Return key, st')
    ∧ FileService.filename_of_key key = FileService.sanitize filename.
Proof.
  intros Hid Hdash. destruct id as [|c i]; [done|].
  rewrite generateSafeKey_supplied. eexists _, _. split; [done|].
  unfold FileService.filename_of_key.
  change (js "-") with [Chr.dash]. cbn [app].
  rewrite split_app_sep by apply decimal_no_dash.
  rewrite app_comm_cons, (split_app_sep Chr.dash (c :: i)) by done.
  cbn [slice drop]. apply join_split.
Qed.

Lemma supplied_id_witness :
  ∃ key st',
    @FileService.generateSafeKey Scripted.platform (js "my-photo.jpg")
      (Some (js "abc123")) (Scripted.start Fixture.idle) = (Return key, st')
    ∧ FileService.filename_of_key key = FileService.sanitize (js "my-photo.jpg").
Proof.
  apply (@supplied_id_without_dash_recovers_filename Scripted.platform).
  - done.
  - vm_compute. intros Hin. repeat (apply elem_of_cons in Hin as [Hin|Hin]; [done|]).
    by apply elem_of_nil in Hin.
Defined.

Lemma length_random_suffix r : (length (random_suffix r) ≤ 9)%nat.
Proof. unfold random_suffix, substring. rewrite length_take. lia. Qed.

(** X3. A file id is the decimal clock reading, a dash, and at most nine
    characters of [[0-9a-z]]; it has exactly one dash, so it splits into
    those two parts; and making it sends nothing to the store. *)
Theorem generateFileId_format `{Platform} (st : St) :
  ∃ suffix st',
    let now := (Date_now (world st)).1 in
    generateFileId st = (Return (decimal now ++ js "-" ++ suffix), st')
    ∧ calls st' = calls st
    ∧ split Chr.dash (decimal now ++ js "-" ++ suffix) = [decimal now; suffix]
    ∧ (length suffix ≤ 9)%nat
    ∧ Forall (λ c, is_base36 c = true) suffix.
Proof.
  rewrite generateFileId_run. eexists _, _. cbn zeta.
  split; [done|]. split; [done|]. split; [|split].
  - change (js "-") with [Chr.dash]. cbn [app].
    rewrite split_app_sep by apply decimal_no_dash.
    by rewrite split_without_separator by apply random_suffix_no_dash.
  - apply length_random_suffix.
  - apply random_suffix_base36.
Qed.

(** ** Configuration *)

Lemma endsWith_app_singleton c s : endsWith c (s ++ [c]) = true.
Proof. unfold endsWith. rewrite rev_app_distr. cbn. apply N.eqb_refl. Qed.

(** X4. The configured prefix is the environment's prefix, followed by a
    slash unless it already ends with one: so it always ends with a
    slash and is never empty. *)
Theorem config_prefix_ends_with_slash (env : Env) :
  endsWith Chr.slash (config.prefix env) = true
  ∧ config.prefix env ≠ []
  ∧ ∃ t, config.prefix env = S3_PREFIX env ++ t ∧ (t = [] ∨ t = js "/").
Proof.
  assert (Hends : endsWith Chr.slash (config.prefix env) = true).
  { unfold config.prefix. destruct (endsWith Chr.slash (S3_PREFIX env)) eqn:E; [done|].
    apply endsWith_app_singleton. }
  split; [done|]. split.
  - intros Hnil. by rewrite Hnil in Hends.
  - unfold config.prefix. destruct (endsWith Chr.slash (S3_PREFIX env)).
    + exists []. by rewrite app_nil_r; auto.
    + exists (js "/"). auto.
Qed.

Lemma trim_start_starts_clean s : starts_clean (trim_start s).
Proof.
  induction s as [|c s IH]; [done|]. cbn [trim_start].
  destruct (is_whitespace c) eqn:E; [done|]. exact E.
Qed.

Lemma trim_start_clean s : starts_clean s → trim_start s = s.
Proof. destruct s as [|c s]; [done|]. cbn. by intros ->. Qed.

Lemma trim_start_suffix s : ∃ p, s = p ++ trim_start s.
Proof.
  induction s as [|c s [p IH]]; [by exists []|]. cbn [trim_start].
  destruct (is_whitespace c); [|by exists []].
  exists (c :: p). cbn. by rewrite <- IH.
Qed.

Lemma trim_trim s : trim (trim s) = trim s.
Proof.
  unfold trim. set (A := trim_start s). set (B := trim_start (rev A)).
  assert (HA : starts_clean A) by apply trim_start_starts_clean.
  assert (HB : starts_clean B) by apply trim_start_starts_clean.
  destruct (trim_start_suffix (rev A)) as [p Hp]. fold B in Hp.
  assert (HrB : starts_clean (rev B)).
  { apply (f_equal (@rev N)) in Hp. rewrite rev_involutive, rev_app_distr in Hp.
    destruct (rev B) as [|c b]; [done|]. by rewrite Hp in HA. }
  rewrite (trim_start_clean (rev B)) by done.
  rewrite rev_involutive. by rewrite (trim_start_clean B).
Qed.

Lemma allowed_types_are_trimmed env t :
  t ∈ config.allAllowedTypes env → trim t = t.
Proof.
  unfold config.allAllowedTypes, mime_list. rewrite !elem_of_app.
  intros Hin.
  assert (∃ x, t = trim x) as [x ->]; [|apply trim_trim].
  destruct Hin as [Hin|[Hin|[Hin|Hin]]];
    apply (list_elem_of_fmap_1 trim) in Hin as (x & -> & _); by exists x.
Qed.

(** X5. The allowed types are compared as trimmed strings with the
    content type as sent: a content type with white space before or
    after it is rejected, whatever the configuration. *)
Theorem padded_content_type_is_rejected `{Platform} (env : Env)
    (contentType : jsstring) (st : St) :
  trim contentType ≠ contentType →
  FileService.validateMimeType env contentType st
  = (Throw (ValidationError
              (ContentTypeNotAllowed contentType (config.allAllowedTypes env))), st).
Proof.
  intros Hpad. apply validateMimeType_rejects.
  intros Hin. by apply allowed_types_are_trimmed in Hin.
Qed.

Lemma padded_content_type_witness :
  ∃ m, @FileService.validateMimeType Scripted.platform Scripted.env
         (js "image/jpeg ") (Scripted.start Fixture.idle)
       = (Throw (ValidationError m), Scripted.start Fixture.idle).
Proof.
  eexists. apply (@padded_content_type_is_rejected Scripted.platform). by vm_compute.
Defined.

(** ** Operations on a key after its existence check *)

Section AfterCheck.
Context `{Platform}.
Variable env : Env.

Lemma S3_deleteFile_run key st :
  let r := send_delete (S3Service.object_input env (config.prefix env ++ key)) (world st) in
  S3Service.deleteFile env key st
  = (match r.1 with
     | inr _ => Return ()
     | inl e => Throw (S3Error "Failed to delete file from S3" e)
     end,
     {| world := r.2; calls := calls st ++ [delete_call env key] |}).
Proof.
  unfold S3Service.deleteFile. run_monad.
  destruct (send_delete _ (world st)) as [[e|[]] w]; by run_monad.
Qed.

Lemma TimeClip_is_time_value t :
  TimeClip t = if is_time_value t then Some t else None.
Proof.
  unfold TimeClip, is_time_value.
  destruct (Z.leb_spec (Z.abs t) 8640000000000000),
    (Z.leb_spec (-8640000000000000) t), (Z.leb_spec t 8640000000000000);
    cbn [andb]; first [done | lia].
Qed.

Lemma TimeClip_is_time_value_setSeconds now seconds :
  setSeconds_getSeconds_plus now seconds
  = if is_time_value (wall_clock_plus now seconds)
    then Some (wall_clock_plus now seconds) else None.
Proof.
  unfold setSeconds_getSeconds_plus. cbv zeta. by rewrite TimeClip_is_time_value.
Qed.

(** [toISOString] on the date that [setSeconds] leaves. *)
Lemma toISOString_expiry now seconds st :
  toISOString (setSeconds_getSeconds_plus now seconds) st
  = (if is_time_value (wall_clock_plus now seconds)
     then Return (wall_clock_plus now seconds) else Throw RangeError, st).
Proof.
  unfold setSeconds_getSeconds_plus. cbv zeta. rewrite TimeClip_is_time_value.
  unfold wall_clock_plus. cbv zeta. by destruct (is_time_value _).
Qed.

Lemma S3_generatePresignedGetUrl_run key st :
  let r := getSignedUrl
             (GetObjectCommand (S3Service.object_input env (config.prefix env ++ key)))
             (PRESIGN_GET_EXPIRY_SECONDS env) (world st) in
  S3Service.generatePresignedGetUrl env key st
  = match r.1 with
    | inr url =>
        (Return (url, setSeconds_getSeconds_plus (Date_now r.2).1
                        (PRESIGN_GET_EXPIRY_SECONDS env)),
         {| world := (Date_now r.2).2; calls := calls st ++ [sign_get_call env key] |})
    | inl e =>
        (Throw (S3Error "Failed to generate presigned GET URL" e),
         {| world := r.2; calls := calls st ++ [sign_get_call env key] |})
    end.
Proof.
  unfold S3Service.generatePresignedGetUrl. run_monad.
  destruct (getSignedUrl _ _ (world st)) as [[e|url] w]; run_monad; [done|].
  by destruct (Date_now w).
Qed.

(** Retrieval of a key that the existence check found. *)
Lemma generatePresignedGetUrl_found key st st1 info :
  S3Service.getFileMetadata env key st = (Return info, st1) →
  S3Service.exists_ info = true →
  let r := getSignedUrl
             (GetObjectCommand (S3Service.object_input env (config.prefix env ++ key)))
             (PRESIGN_GET_EXPIRY_SECONDS env) (world st1) in
  FileService.generatePresignedGetUrl env key st
  = match r.1 with
    | inr url =>
        let now := Date_now r.2 in
        let expiresAt := wall_clock_plus now.1 (PRESIGN_GET_EXPIRY_SECONDS env) in
        (if is_time_value expiresAt
         then Return {| get_url := url; get_expiresAt := expiresAt |}
         else Throw RangeError,
         {| world := now.2;
            calls := calls st ++ [head_call env key; sign_get_call env key] |})
    | inl e =>
        (Throw (S3Error "Failed to generate presigned GET URL" e),
         {| world := r.2;
            calls := calls st ++ [head_call env key; sign_get_call env key] |})
    end.
Proof.
  intros Hcheck Hexists r.
  unfold FileService.generatePresignedGetUrl. unfold bind at 1.
  rewrite Hcheck, Hexists. cbn [negb]. unfold bind at 1.
  rewrite S3_generatePresignedGetUrl_run. fold r.
  apply getFileMetadata_calls in Hcheck as ->. rewrite <- !app_assoc.
  destruct r.1 as [e|url]; [done|]. cbn [fst snd]. unfold bind.
  rewrite toISOString_expiry. cbv zeta. by destruct (is_time_value _).
Qed.

(** An error of the existence check is the error of the operation. *)
Lemma check_failure_propagates key metadata st e st' :
  S3Service.getFileMetadata env key st = (Throw e, st') →
  FileService.generatePresignedGetUrl env key st = (Throw e, st')
  ∧ FileService.deleteFile env key st = (Throw e, st')
  ∧ FileService.handleUploadComplete env
      {| complete_key := key; complete_metadata := metadata |} st
    = (Throw e, st').
Proof.
  intros Hcheck.
  unfold FileService.generatePresignedGetUrl, FileService.deleteFile,
    FileService.handleUploadComplete, bind. cbn [complete_key]. by rewrite Hcheck.
Qed.

Lemma getFileMetadata_store_error key st e w :
  send_head (S3Service.object_input env (config.prefix env ++ key)) (world st)
  = (inl e, w) →
  S3Service.is_NotFound e = false →
  S3Service.getFileMetadata env key st
  = (Throw (S3Error "Failed to get file metadata" e),
     {| world := w; calls := calls st ++ [head_call env key] |}).
Proof.
  intros Hs He. unfold S3Service.getFileMetadata. run_monad. by rewrite Hs, He.
Qed.

Lemma getFileMetadata_undecodable key st response w e :
  send_head (S3Service.object_input env (config.prefix env ++ key)) (world st)
  = (inr response, w) →
  S3Service.extractMetadata (Metadata response) = Throw e →
  S3Service.is_NotFound e = false →
  S3Service.getFileMetadata env key st
  = (Throw (S3Error "Failed to get file metadata" e),
     {| world := w; calls := calls st ++ [head_call env key] |}).
Proof.
  intros Hs Hmd He. unfold S3Service.getFileMetadata. run_monad.
  by rewrite Hs, Hmd, He.
Qed.

Lemma extractMetadata_unparsable_tags headers t :
  headers !! "tags" = Some t → t ≠ [] → JSON.parse t = None →
  S3Service.extractMetadata (Some headers) = Throw URIError
  ∨ S3Service.extractMetadata (Some headers) = Throw SyntaxError.
Proof.
  intros Ht Hne Hparse. unfold S3Service.extractMetadata.
  destruct (S3Service.decoded (headers !! "original-filename")) as [o|e] eqn:Ed.
  - right. cbn [obind]. rewrite Ht. destruct t as [|c t]; [done|].
    unfold S3Service.parsed, S3Service.truthy, S3Service.JSON_parse.
    by rewrite Hparse.
  - left. cbn [obind]. f_equal.
    unfold S3Service.decoded, S3Service.decodeURIComponent in Ed.
    destruct (S3Service.truthy _); [|done].
    destruct (Builtins.decodeURIComponent _); cbn in Ed; congruence.
Qed.

End AfterCheck.

(** X6. Deleting a key that the existence check found sends the store
    exactly two requests, the check and one [DeleteObjectCommand] for the
    bucket and the key under the configured prefix; it succeeds when the
    store accepts the deletion and fails with [S3Error] around the store's
    error otherwise.  Nothing of what the check returned (the stored user
    id among it) is consulted. *)
Theorem deleteFile_checks_then_deletes `{Platform} (env : Env) (key : jsstring)
    (st st1 : St) (info : S3Service.FileInfo) :
  S3Service.getFileMetadata env key st = (Return info, st1) →
  S3Service.exists_ info = true →
  let input := S3Service.object_input env (config.prefix env ++ key) in
  let r := send_delete input (world st1) in
  FileService.deleteFile env key st
  = (match r.1 with
     | inr _ => Return ()
     | inl e => Throw (S3Error "Failed to delete file from S3" e)
     end,
     {| world := r.2;
        calls := calls st ++ [head_call env key; Send (DeleteObjectCommand input)] |})
  ∧ input !! "Bucket" = Some (VString (S3_BUCKET_NAME env))
  ∧ input !! "Key" = Some (VString (config.prefix env ++ key)).
Proof.
  intros Hcheck Hexists input r. split; [|done].
  unfold FileService.deleteFile, bind. rewrite Hcheck, Hexists. cbn [negb].
  rewrite S3_deleteFile_run. apply getFileMetadata_calls in Hcheck as ->.
  by rewrite <- app_assoc.
Qed.

Lemma deleteFile_checks_then_deletes_witness :
  FileService.deleteFile (H := Scripted.platform) Scripted.env (js "some-key")
    (Scripted.start Sample.with_object)
  = (Return (),
     @Build_St Scripted.platform
       {| Scripted.clock := [1700000000000; 1700000000001]; Scripted.draws := [];
          Scripted.heads := []; Scripted.listing := Fixture.no_objects |}
       [head_call Scripted.env (js "some-key");
        delete_call Scripted.env (js "some-key")]).
Proof.
  destruct (S3Service.getFileMetadata (H := Scripted.platform) Scripted.env
              (js "some-key") (Scripted.start Sample.with_object))
    as [[info|e] st1] eqn:E; [|by vm_compute in E].
  assert (Hexists : S3Service.exists_ info = true).
  { vm_compute in E. by injection E as <- <-. }
  rewrite (proj1 (deleteFile_checks_then_deletes (H := Scripted.platform)
                    Scripted.env (js "some-key") _ _ _ E Hexists)).
  vm_compute in E. injection E as <- <-. reflexivity.
Defined.

(** X7. Retrieving a key that the existence check found sends the check
    and then asks the signer for one [GetObjectCommand] under
    [PRESIGN_GET_EXPIRY_SECONDS].  The response carries the signed URL
    and, as its expiry, the time of the local wall clock that many
    seconds after the local time of the clock reading taken after
    signing: that is the reading plus that many seconds where the offset
    of the zone is the same at both ends, and differs from it by the
    change of the offset otherwise.  A date out of range fails with
    [RangeError] after signing, and a failure of the signer is reported
    as [S3Error].  Neither the stored user id nor the public flag that
    the check returned is consulted. *)
Theorem existing_key_gets_a_signed_url `{Platform} (env : Env) (key : jsstring)
    (st st1 : St) (info : S3Service.FileInfo) :
  S3Service.getFileMetadata env key st = (Return info, st1) →
  S3Service.exists_ info = true →
  let r := getSignedUrl
             (GetObjectCommand (S3Service.object_input env (config.prefix env ++ key)))
             (PRESIGN_GET_EXPIRY_SECONDS env) (world st1) in
  let now := Date_now r.2 in
  let seconds := PRESIGN_GET_EXPIRY_SECONDS env in
  let local := (Z.of_N now.1 + LocalTZA (Z.of_N now.1) true + Z.of_N seconds * 1000)%Z in
  let expiresAt := (local - LocalTZA local false)%Z in
  FileService.generatePresignedGetUrl env key st
  = match r.1 with
    | inr url =>
        (if is_time_value expiresAt
         then Return {| get_url := url; get_expiresAt := expiresAt |}
         else Throw RangeError,
         {| world := now.2;
            calls := calls st ++ [head_call env key; sign_get_call env key] |})
    | inl e =>
        (Throw (S3Error "Failed to generate presigned GET URL" e),
         {| world := r.2;
            calls := calls st ++ [head_call env key; sign_get_call env key] |})
    end
  ∧ (LocalTZA local false = LocalTZA (Z.of_N now.1) true →
     expiresAt = (Z.of_N now.1 + Z.of_N seconds * 1000)%Z).
Proof.
  intros Hcheck Hexists r now seconds local expiresAt. split.
  - by rewrite (generatePresignedGetUrl_found env key st st1 info).
  - subst expiresAt local. cbv zeta. intros ->. lia.
Qed.

(** X7 in New York at 01:30 local time before the clocks go back: a
    URL signed for 3600 seconds is given an expiry 7200 seconds after
    the clock reading. *)
Lemma existing_key_gets_a_signed_url_witness :
  FileService.generatePresignedGetUrl (H := Sample.in_new_york) Scripted.env
    (js "some-key") (@Build_St Sample.in_new_york Sample.before_the_change [])
  = (Return {| get_url := js "https://bucket.example/signed";
               get_expiresAt := 1699162200000 + 7200 * 1000 |},
     @Build_St Sample.in_new_york
       {| Scripted.clock := []; Scripted.draws := [];
          Scripted.heads := []; Scripted.listing := Fixture.no_objects |}
       [head_call Scripted.env (js "some-key");
        sign_get_call Scripted.env (js "some-key")]).
Proof.
  pose (info := {| S3Service.exists_ := true;
                   S3Service.info_contentType := Some (js "image/jpeg");
                   S3Service.info_size := Some (num 1024);
                   S3Service.info_metadata := None;
                   S3Service.info_lastModified := Some 1699000000000 |}).
  pose (st1 := @Build_St Sample.in_new_york
                 {| Scripted.clock := [1699162200000]; Scripted.draws := [];
                    Scripted.heads := []; Scripted.listing := Fixture.no_objects |}
                 [head_call Scripted.env (js "some-key")]).
  assert (E : S3Service.getFileMetadata (H := Sample.in_new_york) Scripted.env
                (js "some-key")
                (@Build_St Sample.in_new_york Sample.before_the_change [])
              = (Return info, st1)) by reflexivity.
  rewrite (proj1 (existing_key_gets_a_signed_url (H := Sample.in_new_york)
                    Scripted.env (js "some-key") _ st1 info E eq_refl)).
  reflexivity.
Defined.

(** X8. Completing an upload only checks that the key exists: for two
    requests with the same key, [UploadController.handleUploadComplete]
    has the same outcome and leaves the same state, whoever is
    authenticated and whatever metadata the requests carry; the user id
    that the controller puts into the metadata is never read.  The store
    receives the one request of the check; a success echoes the key, and
    a failure is [NotFoundError] for the key or the [S3Error] of the
    check. *)
Theorem upload_completion_only_checks_existence `{Platform} (env : Env)
    (user1 user2 : option jsstring) (r1 r2 : UploadCompleteRequest) (st : St) :
  complete_key r1 = complete_key r2 →
  UploadController.handleUploadComplete env user1 r1 st
  = UploadController.handleUploadComplete env user2 r2 st
  ∧ calls (UploadController.handleUploadComplete env user1 r1 st).2
    = calls st ++ [head_call env (complete_key r1)]
  ∧ match (UploadController.handleUploadComplete env user1 r1 st).1 with
    | Return response =>
        success response = true ∧ completed_key response = complete_key r1
    | Throw e =>
        e = NotFoundError (FileNotFound (complete_key r1))
        ∨ ∃ cause, e = S3Error "Failed to get file metadata" cause
    end.
Proof.
  intros Hkey.
  assert (Hrun : ∀ user r,
    UploadController.handleUploadComplete env user r st
    = FileService.handleUploadComplete env
        {| complete_key := complete_key r; complete_metadata := None |} st).
  { intros user r. unfold UploadController.handleUploadComplete,
      UploadController.complete_request, FileService.handleUploadComplete.
    by destruct (S3Service.truthy user). }
  rewrite !Hrun, Hkey. split; [done|]. rewrite <- Hkey.
  unfold FileService.handleUploadComplete, bind. cbn [complete_key].
  destruct (S3Service.getFileMetadata env (complete_key r1) st) as [[info|e] st'] eqn:E.
  - pose proof (getFileMetadata_calls _ _ _ _ _ E) as Hcalls.
    destruct (S3Service.exists_ info); cbn; auto.
  - pose proof (getFileMetadata_calls _ _ _ _ _ E) as Hcalls. cbn.
    split; [done|]. right.
    unfold S3Service.getFileMetadata in E. revert E. run_monad.
    destruct (send_head _ (world st)) as [[e0|response] w].
    + destruct (S3Service.is_NotFound e0); [done|]. intros [= <- _]. by eexists.
    + destruct (S3Service.extractMetadata _) as [m|e0]; [done|].
      destruct (S3Service.is_NotFound e0); [done|]. intros [= <- _]. by eexists.
Qed.

Lemma upload_completion_witness :
  UploadController.handleUploadComplete (H := Scripted.platform) Scripted.env
    (Some (js "user123"))
    {| complete_key := js "some-key"; complete_metadata := None |}
    (Scripted.start Sample.with_object)
  = UploadController.handleUploadComplete (H := Scripted.platform) Scripted.env
      None
      {| complete_key := js "some-key";
         complete_metadata := Some Fixture.full_metadata |}
      (Scripted.start Sample.with_object).
Proof.
  refine (proj1 (upload_completion_only_checks_existence (H := Scripted.platform)
                   Scripted.env _ _ _ _ _ _)).
  reflexivity.
Defined.

(** X9. When the store answers the existence check with an error
    whose name is not ["NotFound"] (a refused or failed request),
    retrieval, deletion and completion each fail with [S3Error] around
    that error, not with [NotFoundError], and the store receives nothing
    after the check. *)
Theorem store_error_on_check_is_not_reported_as_missing `{Platform} (env : Env)
    (key : jsstring) (metadata : option FileMetadata) (st : St) (e : exn)
    (w : World) :
  send_head (S3Service.object_input env (config.prefix env ++ key)) (world st)
  = (inl e, w) →
  S3Service.is_NotFound e = false →
  let st' := {| world := w; calls := calls st ++ [head_call env key] |} in
  FileService.generatePresignedGetUrl env key st
  = (Throw (S3Error "Failed to get file metadata" e), st')
  ∧ FileService.deleteFile env key st
    = (Throw (S3Error "Failed to get file metadata" e), st')
  ∧ FileService.handleUploadComplete env
      {| complete_key := key; complete_metadata := metadata |} st
    = (Throw (S3Error "Failed to get file metadata" e), st').
Proof.
  intros Hs He st'. apply check_failure_propagates.
  by apply getFileMetadata_store_error.
Qed.

Lemma store_error_on_check_witness :
  FileService.deleteFile (H := Scripted.platform) Scripted.env (js "some-key")
    (Scripted.start Sample.access_denied)
  = (Throw (S3Error "Failed to get file metadata" (SdkError (js "AccessDenied"))),
     @Build_St Scripted.platform
       {| Scripted.clock := []; Scripted.draws := []; Scripted.heads := [];
          Scripted.listing := Fixture.no_objects |}
       [head_call Scripted.env (js "some-key")]).
Proof.
  refine (proj1 (proj2 (store_error_on_check_is_not_reported_as_missing
                          (H := Scripted.platform) Scripted.env (js "some-key") None
                          (Scripted.start Sample.access_denied) _ _ _ _))).
  - reflexivity.
  - reflexivity.
Defined.

(** X10. An object that exists but whose [tags] header is not JSON
    cannot be retrieved, deleted or completed: the existence check fails
    while decoding the metadata, and each of the three operations fails
    with [S3Error] around the [SyntaxError] (or around the [URIError] of
    the filename header, which is decoded first), after the one request
    of the check. *)
Theorem unparsable_tags_block_the_object `{Platform} (env : Env)
    (key : jsstring) (metadata : option FileMetadata) (st : St)
    (response : HeadObjectOutput) (w : World) (headers : gmap string jsstring)
    (t : jsstring) :
  send_head (S3Service.object_input env (config.prefix env ++ key)) (world st)
  = (inr response, w) →
  Metadata response = Some headers →
  headers !! "tags" = Some t → t ≠ [] → JSON.parse t = None →
  ∃ cause,
    let st' := {| world := w; calls := calls st ++ [head_call env key] |} in
    (cause = SyntaxError ∨ cause = URIError)
    ∧ FileService.generatePresignedGetUrl env key st
      = (Throw (S3Error "Failed to get file metadata" cause), st')
    ∧ FileService.deleteFile env key st
      = (Throw (S3Error "Failed to get file metadata" cause), st')
    ∧ FileService.handleUploadComplete env
        {| complete_key := key; complete_metadata := metadata |} st
      = (Throw (S3Error "Failed to get file metadata" cause), st').
Proof.
  intros Hs Hmd Ht Hne Hparse.
  destruct (extractMetadata_unparsable_tags headers t Ht Hne Hparse) as [E|E].
  - exists URIError. split; [auto|]. apply check_failure_propagates.
    apply (getFileMetadata_undecodable env key st response w); [done| |done].
    by rewrite Hmd.
  - exists SyntaxError. split; [auto|]. apply check_failure_propagates.
    apply (getFileMetadata_undecodable env key st response w); [done| |done].
    by rewrite Hmd.
Qed.

Lemma unparsable_tags_witness :
  ∃ cause,
    (cause = SyntaxError ∨ cause = URIError)
    ∧ FileService.deleteFile (H := Scripted.platform) Scripted.env (js "some-key")
        (Scripted.start Sample.with_broken_tags)
      = (Throw (S3Error "Failed to get file metadata" cause),
         @Build_St Scripted.platform
           {| Scripted.clock := [1700000000000]; Scripted.draws := [];
              Scripted.heads := []; Scripted.listing := Fixture.no_objects |}
           [head_call Scripted.env (js "some-key")]).
Proof.
  destruct (unparsable_tags_block_the_object (H := Scripted.platform) Scripted.env
              (js "some-key") None (Scripted.start Sample.with_broken_tags)
              _ _ _ (js "photo,profile") eq_refl eq_refl eq_refl)
    as (cause & Hcause & _ & Hdelete & _).
  - done.
  - vm_compute. reflexivity.
  - exists cause. split; [exact Hcause|exact Hdelete].
Defined.

(** ** What a listing reports *)

Lemma strip_prefix_app p k : strip_prefix p (p ++ k) = Some k.
Proof. induction p as [|a p IH]; [done|]. cbn. by rewrite N.eqb_refl. Qed.

Lemma replace_first_with_empty_prefix p k : replace_first_with_empty p (p ++ k) = k.
Proof.
  destruct (p ++ k) as [|c s] eqn:E; cbn [replace_first_with_empty];
    rewrite <- E; by rewrite strip_prefix_app.
Qed.

Section ListingContents.
Context `{Platform}.
Variable env : Env.

Lemma listed_file_run object st :
  ∃ listed st',
    S3Service.listed_file env object st = (Return listed, st')
    ∧ calls st' = calls st
    ∧ lists_as env object (FileService.file_record listed).
Proof.
  unfold S3Service.listed_file. run_monad.
  destruct (ObjectLastModified object) as [t|] eqn:E.
  - eexists _, _. split; [done|]. split; [done|].
    repeat split. intros t' Ht'. cbn. congruence.
  - destruct (Date_now (world st)) as [t w]. eexists _, _.
    split; [done|]. split; [done|]. repeat split. intros t' Ht'. cbn. congruence.
Qed.

Lemma mapM_listed_file_run objects st :
  ∃ listed st',
    mapM (S3Service.listed_file env) objects st = (Return listed, st')
    ∧ calls st' = calls st
    ∧ Forall2 (lists_as env) objects (map FileService.file_record listed).
Proof.
  revert st. induction objects as [|o objects IH]; intros st.
  - eexists _, _. split; [done|]. split; [done|]. constructor.
  - cbn [mapM]. unfold bind at 1.
    destruct (listed_file_run o st) as (f & st1 & -> & Hc1 & Hf).
    unfold bind at 1. destruct (IH st1) as (listed & st' & -> & Hc & Hl).
    eexists _, _. split; [done|]. split; [cbn; congruence|].
    by constructor.
Qed.

Lemma listFiles_answered query out w st :
  send_list (list_call env query) (world st) = (inr out, w) →
  ∃ response st',
    FileService.listFiles env query st = (Return response, st')
    ∧ Forall2 (lists_as env) (default [] (Contents out)) (files response)
    ∧ page (pagination response) = clamped_page query
    ∧ limit (pagination response) = clamped_limit query
    ∧ total (pagination response) = length (default [] (Contents out))
    ∧ hasMore (pagination response) = default false (IsTruncated out)
    ∧ calls st' = calls st ++ [Send (ListObjectsV2Command (list_call env query))].
Proof.
  intros Hs. rewrite listFiles_run.
  revert Hs. unfold list_call. rewrite <- search_prefix. intros Hs.
  unfold S3Service.listFiles. unfold try_catch, bind at 1, request. rewrite Hs.
  cbn beta iota. unfold bind at 1.
  destruct (Contents out) as [objects|]; cbn [default].
  - edestruct (mapM_listed_file_run objects) as (listed & st' & -> & Hc & Hl).
    eexists _, _. split; [done|]. cbn.
    split; [done|]. split; [done|]. split; [done|]. split.
    + apply Forall2_length in Hl. by rewrite Hl.
    + split; [by destruct (IsTruncated out)|]. by rewrite Hc.
  - eexists _, _. split; [done|]. cbn. split; [constructor|].
    by repeat split.
Qed.

Lemma listFiles_calls query st :
  calls (FileService.listFiles env query st).2
  = calls st ++ [Send (ListObjectsV2Command (list_call env query))].
Proof.
  destruct (send_list (list_call env query) (world st)) as [[e|out] w] eqn:Hs.
  - rewrite listFiles_run. by rewrite (S3_listFiles_store_fails env query e w st Hs).
  - destruct (listFiles_answered query out w st Hs) as (r & st' & -> & Hrest).
    apply Hrest.
Qed.

End ListingContents.

(** X11. When the store answers the list request, the listing succeeds
    and has one record for each object of the answer, in the same order
    (none when the answer has no [Contents]): the key without the first
    occurrence of the configured prefix, the filename read off that key,
    the size (0 when absent), the modification time of the object, and
    the content type ["application/octet-stream"] for every file.  The
    total is the number of records of this answer, and [hasMore] is the
    store's [IsTruncated] (false when absent). *)
Theorem listing_reports_the_objects_of_the_answer `{Platform} (env : Env)
    (query : ListFilesQuery) (st : St) (out : ListObjectsV2Output) (w : World) :
  send_list (list_call env query) (world st) = (inr out, w) →
  ∃ response st',
    FileService.listFiles env query st = (Return response, st')
    ∧ Forall2 (lists_as env) (default [] (Contents out)) (files response)
    ∧ total (pagination response) = length (default [] (Contents out))
    ∧ hasMore (pagination response) = default false (IsTruncated out).
Proof.
  intros Hs.
  destruct (listFiles_answered env query out w st Hs)
    as (r & st' & Hr & Hfiles & _ & _ & Htotal & Hmore & _).
  by exists r, st'.
Qed.

Lemma listing_reports_witness :
  ∃ response st',
    FileService.listFiles (H := Scripted.platform) Scripted.env Fixture.no_query
      (Scripted.start Fixture.after_upload) = (Return response, st')
    ∧ rec_contentType <$> files response = [js "application/octet-stream"]
    ∧ total (pagination response) = 1%nat
    ∧ hasMore (pagination response) = false.
Proof.
  destruct (listing_reports_the_objects_of_the_answer (H := Scripted.platform)
              Scripted.env Fixture.no_query (Scripted.start Fixture.after_upload)
              _ Fixture.after_upload eq_refl)
    as (r & st' & Hr & Hfiles & Htotal & Hmore).
  exists r, st'. split; [exact Hr|]. split; [|split; [exact Htotal|exact Hmore]].
  cbn [default Contents] in Hfiles.
  destruct (files r) as [|f fs]; [inversion Hfiles|].
  apply Forall2_cons in Hfiles as [[Hf _] Hrest].
  apply Forall2_nil_inv_l in Hrest as ->. cbn. by rewrite Hf.
Defined.

(** X12. An object stored under the configured prefix is listed under
    its key without the prefix, and that key addresses the object again:
    the existence check that retrieval and deletion make for the listed
    key sends the store a [HeadObjectCommand] for the [Key] the object is
    stored under. *)
Theorem listed_key_addresses_the_object `{Platform} (env : Env) (k : jsstring)
    (size : option number) (modified : option N) (st : St) :
  ∃ listed st',
    S3Service.listed_file env
      {| Key := Some (config.prefix env ++ k); Size := size;
         ObjectLastModified := modified |} st
    = (Return listed, st')
    ∧ rec_key (FileService.file_record listed) = k
    ∧ calls (S3Service.getFileMetadata env
               (rec_key (FileService.file_record listed)) st').2
      = calls st
        ++ [Send (HeadObjectCommand
                    (<["Key" := VString (config.prefix env ++ k)]>
                       (<["Bucket" := VString (S3_BUCKET_NAME env)]> ∅)))].
Proof.
  destruct (listed_file_run env
              {| Key := Some (config.prefix env ++ k); Size := size;
                 ObjectLastModified := modified |} st)
    as (listed & st' & Hrun & Hcalls & _ & _ & Hkey & _).
  exists listed, st'. split; [done|].
  assert (rec_key (FileService.file_record listed) = k) as ->.
  { rewrite Hkey. cbn [Key fmap option_fmap option_map].
    rewrite replace_first_with_empty_prefix. by destruct k. }
  split; [done|].
  destruct (S3Service.getFileMetadata env k st') as [o st''] eqn:E.
  apply getFileMetadata_calls in E. cbn [snd]. by rewrite E, Hcalls.
Qed.

(** X13. Whatever page a query asks for and however the store answers,
    [listFiles] sends the store exactly one request: a
    [ListObjectsV2Command] with no continuation token, for at most the
    clamped limit of keys under the configured prefix followed by the
    prefix of the query.  Every page is therefore read from the start of
    the listing. *)
Theorem listing_always_requests_the_first_page `{Platform} (env : Env)
    (query : ListFilesQuery) (st : St) :
  ∃ input,
    calls (FileService.listFiles env query st).2
    = calls st ++ [Send (ListObjectsV2Command input)]
    ∧ input !! "ContinuationToken" = Some VUndefined
    ∧ input !! "MaxKeys" = Some (VNumber (clamped_limit query))
    ∧ input !! "Prefix"
      = Some (VString (config.prefix env ++ string_or (q_prefix query) []))
    ∧ input !! "Bucket" = Some (VString (S3_BUCKET_NAME env)).
Proof.
  exists (list_call env query). split; [apply listFiles_calls|].
  unfold list_call, S3Service.list_input. repeat split.
Qed.

(** X14. An object whose key under the prefix has fewer than two dashes,
    as an object stored by other means may have, is listed with its key
    and with the empty filename. *)
Theorem key_with_fewer_than_two_dashes_has_no_filename `{Platform} (env : Env)
    (k : jsstring) (size : option number) (modified : option N) (st : St) :
  (length (split Chr.dash k) ≤ 2)%nat →
  ∃ listed st',
    S3Service.listed_file env
      {| Key := Some (config.prefix env ++ k); Size := size;
         ObjectLastModified := modified |} st
    = (Return listed, st')
    ∧ rec_key (FileService.file_record listed) = k
    ∧ rec_filename (FileService.file_record listed) = [].
Proof.
  intros Hlen.
  destruct (listed_file_run env
              {| Key := Some (config.prefix env ++ k); Size := size;
                 ObjectLastModified := modified |} st)
    as (listed & st' & Hrun & _ & _ & _ & Hkey & Hname & _).
  exists listed, st'. split; [done|].
  assert (rec_key (FileService.file_record listed) = k) as Hk.
  { rewrite Hkey. cbn [Key fmap option_fmap option_map].
    rewrite replace_first_with_empty_prefix. by destruct k. }
  split; [done|]. rewrite Hname, Hk.
  unfold FileService.filename_of_key, slice. by rewrite drop_ge.
Qed.

Lemma key_with_fewer_than_two_dashes_witness :
  ∃ listed st',
    S3Service.listed_file (H := Scripted.platform) Scripted.env
      {| Key := Some (config.prefix Scripted.env ++ js "holiday-photo.jpg");
         Size := None; ObjectLastModified := None |} (Scripted.start Fixture.idle)
    = (Return listed, st')
    ∧ rec_key (FileService.file_record listed) = js "holiday-photo.jpg"
    ∧ rec_filename (FileService.file_record listed) = [].
Proof.
  apply (key_with_fewer_than_two_dashes_has_no_filename (H := Scripted.platform)).
  vm_compute. lia.
Defined.

(** X15. The listing of [GET /files] does not depend on who asks: two
    requests with the same page, limit and prefix, in each of which
    [userId] and [tags] are absent or given once (a string, as the schema
    demands), get the same answer and leave the same state, whoever is
    authenticated and whatever those strings are.  The user id that the
    controller fills in for an authenticated user filters nothing.  A
    request in which [userId] or [tags] is repeated or bracketed is
    rejected with a [ValidationError] and lists nothing. *)
Theorem listing_route_is_the_same_for_every_user `{Platform} (env : Env)
    (r1 r2 : FilesQuery.Query) (st : St) :
  (FilesQuery.query_page r1 = FilesQuery.query_page r2 →
   FilesQuery.query_limit r1 = FilesQuery.query_limit r2 →
   FilesQuery.query_prefix r1 = FilesQuery.query_prefix r2 →
   FilesQuery.query_userId r1 ≠ Some FilesQuery.QOther →
   FilesQuery.query_tags r1 ≠ Some FilesQuery.QOther →
   FilesQuery.query_userId r2 ≠ Some FilesQuery.QOther →
   FilesQuery.query_tags r2 ≠ Some FilesQuery.QOther →
   FilesQuery.GET_files env r1 st = FilesQuery.GET_files env r2 st)
  ∧ (FilesQuery.query_userId r1 = Some FilesQuery.QOther
     ∨ FilesQuery.query_tags r1 = Some FilesQuery.QOther →
     ∃ details,
       FilesQuery.GET_files env r1 st
       = (Throw (ValidationError (ValidationFailed details)), st)).
Proof.
  split.
  - intros Hpage Hlimit Hprefix Hu1 Ht1 Hu2 Ht2.
    assert (Hplain : ∀ path v, v ≠ Some FilesQuery.QOther →
                               FilesQuery.string_issues path v = []).
    { intros path [[s|]|] Hv; done. }
    unfold FilesQuery.GET_files, FilesQuery.listFilesQuerySchema_issues.
    rewrite (Hplain "userId" _ Hu1), (Hplain "tags" _ Ht1),
      (Hplain "userId" _ Hu2), (Hplain "tags" _ Ht2).
    rewrite Hpage, Hlimit, Hprefix. cbn [app].
    unfold bind, UploadRoute.validate.
    destruct (_ ++ _); [|done]. unfold ret.
    unfold FilesRoute.controller_listFiles. rewrite !listFiles_run.
    unfold list_response, clamped_page, clamped_limit, FilesQuery.validated.
    cbn [q_page q_limit q_prefix FilesRoute.raw_page FilesRoute.raw_limit
         FilesRoute.raw_prefix].
    by rewrite Hpage, Hlimit, Hprefix.
  - intros Hother. unfold FilesQuery.GET_files, FilesQuery.listFilesQuerySchema_issues.
    unfold bind, UploadRoute.validate.
    destruct Hother as [-> | ->].
    + cbn [FilesQuery.string_issues app]. by eexists.
    + destruct (FilesQuery.string_issues "userId" _); cbn [FilesQuery.string_issues app];
        by eexists.
Qed.

Lemma listing_route_witness :
  FilesQuery.GET_files (H := Scripted.platform) Scripted.env Sample.page_2_by_user123
    (Scripted.start Fixture.after_upload)
  = FilesQuery.GET_files (H := Scripted.platform) Scripted.env Sample.page_2_by_anyone
      (Scripted.start Fixture.after_upload)
  ∧ ∃ details,
      FilesQuery.GET_files (H := Scripted.platform) Scripted.env Sample.repeated_tags
        (Scripted.start Fixture.after_upload)
      = (Throw (ValidationError (ValidationFailed details)),
         Scripted.start Fixture.after_upload).
Proof.
  split.
  - apply (proj1 (listing_route_is_the_same_for_every_user (H := Scripted.platform)
                    Scripted.env Sample.page_2_by_user123 Sample.page_2_by_anyone
                    (Scripted.start Fixture.after_upload))); done.
  - apply (proj2 (listing_route_is_the_same_for_every_user (H := Scripted.platform)
                    Scripted.env Sample.repeated_tags Sample.repeated_tags
                    (Scripted.start Fixture.after_upload))).
    right. reflexivity.
Defined.

(** ** Pagination over the route *)

Lemma Number_isInteger_num z : Number_isInteger (num z) = true.
Proof.
  unfold Number_isInteger, num, inject_Z, Qred.
  pose proof (Z.ggcd_correct_divisors z 1) as Hdiv.
  pose proof (Z.ggcd_gcd z 1) as Hgcd. rewrite Z.gcd_1_r in Hgcd.
  destruct (Z.ggcd z 1) as [g [aa bb]]. cbn in Hgcd. subst g.
  destruct Hdiv as [_ Hbb]. rewrite Z.mul_1_l in Hbb. by subst bb.
Qed.

Lemma number_gt_num a b : number_gt (num a) (num b) = bool_decide (b < a)%Z.
Proof.
  unfold number_gt, number_lt, num.
  destruct (Qle_bool (inject_Z a) (inject_Z b)) eqn:E; cbn [negb].
  - apply Qle_bool_iff in E. rewrite <- Zle_Qle in E.
    symmetry. apply bool_decide_eq_false. lia.
  - symmetry. apply bool_decide_eq_true.
    destruct (Z.lt_ge_cases b a) as [|Hle]; [done|].
    rewrite Zle_Qle in Hle. apply Qle_bool_iff in Hle. congruence.
Qed.

Lemma number_truthy_num z : z ≠ 0%Z → number_truthy (num z) = true.
Proof.
  intros Hz. unfold number_truthy, num. apply negb_true_iff.
  destruct (Qeq_bool (inject_Z z) 0) eqn:E; [|done].
  apply Qeq_bool_eq in E. unfold Qeq in E. cbn in E. lia.
Qed.

Lemma number_issues_valid `{Platform} path max100 raw z :
  Number raw = num z → (1 ≤ z)%Z → (max100 = true → (z ≤ 100)%Z) →
  FilesRoute.number_issues path max100 raw = [].
Proof.
  intros Hraw Hlo Hhi. unfold FilesRoute.number_issues. rewrite Hraw.
  unfold num at 1. fold (num z).
  rewrite Number_isInteger_num, !number_gt_num.
  rewrite bool_decide_eq_true_2 by lia.
  destruct max100; [|done].
  by rewrite bool_decide_eq_false_2 by (specialize (Hhi eq_refl); lia).
Qed.

Lemma clamp_valid_page z : (1 ≤ z)%Z → Math_max (num 1) (number_or (Some (num z)) (num 1)) = num z.
Proof.
  intros Hz. unfold number_or. rewrite number_truthy_num by lia.
  unfold Math_max, num at 1 2 3. fold (num 1) (num z).
  change (number_lt (num 1) (num z)) with (number_gt (num z) (num 1)).
  rewrite number_gt_num. destruct (decide (1 < z)%Z).
  - by rewrite bool_decide_eq_true_2.
  - rewrite bool_decide_eq_false_2 by done. f_equal. lia.
Qed.

Lemma clamp_valid_limit z :
  (1 ≤ z ≤ 100)%Z →
  Math_min (num 100) (Math_max (num 1) (number_or (Some (num z)) (num 20))) = num z.
Proof.
  intros Hz.
  assert (Math_max (num 1) (number_or (Some (num z)) (num 20)) = num z) as ->.
  { unfold number_or. rewrite number_truthy_num by lia.
    unfold Math_max, num at 1 2 3. fold (num 1) (num z).
    change (number_lt (num 1) (num z)) with (number_gt (num z) (num 1)).
    rewrite number_gt_num. destruct (decide (1 < z)%Z).
    - by rewrite bool_decide_eq_true_2.
    - rewrite bool_decide_eq_false_2 by done. f_equal. lia. }
  unfold Math_min, num at 1 2. fold (num 100) (num z).
  change (number_lt (num z) (num 100)) with (number_gt (num 100) (num z)).
  rewrite number_gt_num. destruct (decide (z < 100)%Z).
  - by rewrite bool_decide_eq_true_2.
  - rewrite bool_decide_eq_false_2 by done. f_equal. lia.
Qed.

(** X16. A page and a limit that pass the query schema (an integer of
    at least 1, the limit at most 100) reach [listFiles] unchanged and
    are echoed unchanged in the response of [GET /files]: on requests
    that the route admits, the clamping of [listFiles] changes nothing.
    Such a request fails only when the store's list call fails. *)
Theorem valid_pagination_is_echoed `{Platform} (env : Env)
    (request : FilesRoute.ListRequest) (p l : jsstring) (zp zl : Z) (st : St) :
  FilesRoute.raw_page request = Some p → p ≠ [] → Number p = num zp →
  FilesRoute.raw_limit request = Some l → l ≠ [] → Number l = num zl →
  (1 ≤ zp)%Z → (1 ≤ zl ≤ 100)%Z →
  match FilesRoute.GET_files env request st with
  | (Return response, _) =>
      page (pagination response) = num zp ∧ limit (pagination response) = num zl
  | (Throw e, _) => ∃ cause, e = S3Error "Failed to list files" cause
  end.
Proof.
  intros Hp Hpne HNp Hl Hlne HNl Hzp Hzl.
  unfold FilesRoute.GET_files, FilesRoute.validate,
    FilesRoute.listFilesQuerySchema_issues.
  rewrite Hp, Hl.
  rewrite (number_issues_valid "page" false p zp), (number_issues_valid "limit" true l zl)
    by (done || lia).
  cbn [app]. unfold bind at 1, ret. unfold FilesRoute.controller_listFiles.
  rewrite Hp, Hl. destruct p as [|cp p]; [done|]. destruct l as [|cl l]; [done|].
  cbn [FilesRoute.optional_Number]. rewrite HNp, HNl.
  match goal with |- context [FileService.listFiles env ?q st] => set (query := q) end.
  destruct (send_list (list_call env query) (world st)) as [[e|out] w] eqn:Hs.
  - rewrite listFiles_run, (S3_listFiles_store_fails env query e w st Hs). by eexists.
  - destruct (listFiles_answered env query out w st Hs)
      as (r & st' & -> & _ & Hpage & Hlimit & _).
    rewrite Hpage, Hlimit. unfold clamped_page, clamped_limit, query.
    cbn [q_page q_limit]. by rewrite clamp_valid_page, clamp_valid_limit.
Qed.

Lemma valid_pagination_witness :
  match FilesRoute.GET_files (H := Scripted.platform) Scripted.env
          Sample.page_2_limit_10 (Scripted.start Fixture.after_upload) with
  | (Return response, _) =>
      page (pagination response) = num 2 ∧ limit (pagination response) = num 10
  | (Throw e, _) => ∃ cause, e = S3Error "Failed to list files" cause
  end.
Proof.
  apply (valid_pagination_is_echoed (H := Scripted.platform) Scripted.env
           Sample.page_2_limit_10 (js "2") (js "10") 2 10);
    first [reflexivity | done | lia].
Defined.

(** ** The upload flow *)

Section UploadFlow.
Context `{Platform}.
Variable env : Env.

Lemma validateMimeType_accepts contentType st :
  contentType ∈ config.allAllowedTypes env →
  FileService.validateMimeType env contentType st = (Return (), st).
Proof.
  intros Hin%includes_true_iff. unfold FileService.validateMimeType. by rewrite Hin.
Qed.

Lemma validateFileSize_within size st :
  (∀ n, size = Some n → number_gt n (maxFileSize env) = false) →
  FileService.validateFileSize env size st = (Return (), st).
Proof.
  intros Hsize. destruct size as [n|]; [|done].
  by apply validateFileSize_accepts, Hsize.
Qed.

(** The flow up to the call of the storage service. *)
Lemma upload_flow_steps request st :
  contentType request ∈ config.allAllowedTypes env →
  (∀ n, size request = Some n → number_gt n (maxFileSize env) = false) →
  let now := Date_now (world st) in
  let r := Math_random now.2 in
  let t := Date_now r.2 in
  let key := key_of t.1 now.1 r.1 (filename request) in
  FileService.generatePresignedUploadUrl env request st
  = match S3Service.generatePresignedUploadUrl env key (contentType request)
            (Some (FileService.with_originalFilename (metadata request)
                     (filename request)))
            (size request) {| world := t.2; calls := calls st |} with
    | (Return signed, st') =>
        (match signed.2 with
         | Some expiresAt =>
             Return {| uploadUrl := signed.1; uploadMethod := "PUT"; upload_key := key;
                       upload_expiresAt := expiresAt;
                       fileId := Some (decimal now.1 ++ js "-" ++ random_suffix r.1) |}
         | None => Throw RangeError
         end, st')
    | (Throw e, st') => (Throw e, st')
    end.
Proof.
  intros Htype Hsize now r t key. unfold FileService.generatePresignedUploadUrl.
  unfold bind at 1. rewrite validateMimeType_accepts by done.
  unfold bind at 1. rewrite validateFileSize_within by done.
  unfold bind at 1. rewrite generateFileId_run.
  unfold bind at 1. rewrite generateSafeKey_truthy by (by destruct (decimal _)).
  unfold bind at 1. cbn [world calls].
  destruct (S3Service.generatePresignedUploadUrl _ _ _ _ _ _) as [[signed|e] st']; [|done].
  unfold bind, toISOString. by destruct signed.2.
Qed.

Lemma S3_generatePresignedUploadUrl_run key contentType metadata maxSizeBytes headers st :
  S3Service.metadataHeaders metadata = Return headers →
  let s := getSignedUrl
             (PutObjectCommand
                (S3Service.put_input env (config.prefix env ++ key) contentType headers
                   maxSizeBytes))
             (PRESIGN_EXPIRY_SECONDS env) (world st) in
  S3Service.generatePresignedUploadUrl env key contentType metadata maxSizeBytes st
  = match s.1 with
    | inr url =>
        (Return (url, setSeconds_getSeconds_plus (Date_now s.2).1
                        (PRESIGN_EXPIRY_SECONDS env)),
         {| world := (Date_now s.2).2;
            calls := calls st ++ [sign_put_call env key contentType headers maxSizeBytes] |})
    | inl e =>
        (Throw (S3Error "Failed to generate presigned upload URL" e),
         {| world := s.2;
            calls := calls st ++ [sign_put_call env key contentType headers maxSizeBytes] |})
    end.
Proof.
  intros Hh. unfold S3Service.generatePresignedUploadUrl. run_monad. rewrite Hh.
  destruct (getSignedUrl _ _ (world st)) as [[e|url] w]; run_monad; [done|].
  by destruct (Date_now w).
Qed.

(** What a returned response tells about the run. *)
Lemma upload_flow_returns request st response st' :
  FileService.generatePresignedUploadUrl env request st = (Return response, st') →
  contentType request ∈ config.allAllowedTypes env
  ∧ (∀ n, size request = Some n → number_gt n (maxFileSize env) = false)
  ∧ ∃ headers,
      S3Service.metadataHeaders
        (Some (FileService.with_originalFilename (metadata request) (filename request)))
      = Return headers
      ∧ calls st'
        = calls st
          ++ [sign_put_call env (upload_key response) (contentType request) headers
                (size request)].
Proof.
  intros Hrun.
  assert (Htype : contentType request ∈ config.allAllowedTypes env).
  { destruct (decide (contentType request ∈ config.allAllowedTypes env)) as [|Hno];
      [done|]. revert Hrun. unfold FileService.generatePresignedUploadUrl.
    unfold bind at 1. by rewrite validateMimeType_rejects. }
  assert (Hsize : ∀ n, size request = Some n → number_gt n (maxFileSize env) = false).
  { intros n Hn. destruct (number_gt n (maxFileSize env)) eqn:Hgt; [|done].
    revert Hrun. unfold FileService.generatePresignedUploadUrl.
    unfold bind at 1. rewrite validateMimeType_accepts by done.
    unfold bind at 1. rewrite Hn. by rewrite validateFileSize_rejects. }
  split; [done|]. split; [done|].
  rewrite upload_flow_steps in Hrun by done.
  destruct (S3Service.metadataHeaders
              (Some (FileService.with_originalFilename (metadata request)
                       (filename request)))) as [headers|e] eqn:Hh.
  - exists headers. split; [done|].
    rewrite (S3_generatePresignedUploadUrl_run _ _ _ _ headers) in Hrun by done.
    cbn [world calls] in Hrun. revert Hrun.
    destruct (getSignedUrl _ _ _).1; [done|]. cbn [fst snd].
    destruct (setSeconds_getSeconds_plus _ _); [|done]. by intros [= <- <-].
  - by rewrite (generatePresignedUploadUrl_encoding_fails _ _ _ _ _ e) in Hrun.
Qed.

Lemma metadataHeaders_user_id (m : FileMetadata) headers :
  S3Service.metadataHeaders (Some m) = Return headers →
  headers !! "x-amz-meta-user-id" = S3Service.truthy (userId m).
Proof.
  unfold S3Service.metadataHeaders.
  destruct (S3Service.encoded (originalFilename m)) as [f|]; [|done].
  destruct (S3Service.encoded (description m)) as [d|]; [|done].
  intros [= <-]. rewrite !lookup_set_if_present_ne by done.
  rewrite lookup_set_if_present_eq. by destruct (S3Service.truthy (userId m)).
Qed.

End UploadFlow.

(** X17. An upload request with an allowed content type, a size within
    the limit (or none) and metadata that can be encoded, for which the
    signer returns a URL, is answered with that URL, the method [PUT], the
    generated file id, and the key made of the clock reading, that id and
    the sanitized filename.  Its expiry is the time of the local wall
    clock [PRESIGN_EXPIRY_SECONDS] seconds after the local time of the
    clock reading taken after signing: that reading plus that many
    seconds where the offset of the zone is the same at both ends.  A
    date out of range fails with [RangeError] after signing.  The store
    receives one request, the signing of the [PutObjectCommand] for that
    key, and nothing is written by the service itself. *)
Theorem valid_upload_request_is_issued_a_url `{Platform} (env : Env)
    (request : PresignUploadRequest) (headers : gmap string jsstring)
    (url : jsstring) (w : World) (st : St) :
  let now := Date_now (world st) in
  let r := Math_random now.2 in
  let t := Date_now r.2 in
  let key := key_of t.1 now.1 r.1 (filename request) in
  let signed := (Date_now w).1 in
  let seconds := PRESIGN_EXPIRY_SECONDS env in
  let local :=
    (Z.of_N signed + LocalTZA (Z.of_N signed) true + Z.of_N seconds * 1000)%Z in
  let expiresAt := (local - LocalTZA local false)%Z in
  contentType request ∈ config.allAllowedTypes env →
  (∀ n, size request = Some n → number_gt n (maxFileSize env) = false) →
  S3Service.metadataHeaders
    (Some (FileService.with_originalFilename (metadata request) (filename request)))
  = Return headers →
  getSignedUrl
    (PutObjectCommand
       (S3Service.put_input env (config.prefix env ++ key) (contentType request)
          headers (size request)))
    (PRESIGN_EXPIRY_SECONDS env) t.2
  = (inr url, w) →
  FileService.generatePresignedUploadUrl env request st
  = (if is_time_value expiresAt
     then Return {| uploadUrl := url; uploadMethod := "PUT"; upload_key := key;
                    upload_expiresAt := expiresAt;
                    fileId := Some (decimal now.1 ++ js "-" ++ random_suffix r.1) |}
     else Throw RangeError,
     {| world := (Date_now w).2;
        calls := calls st
                 ++ [sign_put_call env key (contentType request) headers
                       (size request)] |})
  ∧ (LocalTZA local false = LocalTZA (Z.of_N signed) true →
     expiresAt = (Z.of_N signed + Z.of_N seconds * 1000)%Z).
Proof.
  intros now r t key signed seconds local expiresAt Htype Hsize Hh Hsign. split.
  - rewrite upload_flow_steps by done.
    rewrite (S3_generatePresignedUploadUrl_run env _ _ _ _ headers) by done.
    cbn [world calls]. fold now r t key. rewrite Hsign. cbn [fst snd].
    fold signed seconds. rewrite TimeClip_is_time_value_setSeconds.
    change (wall_clock_plus signed seconds) with expiresAt.
    by destruct (is_time_value expiresAt).
  - subst expiresAt local. cbv zeta. intros ->. lia.
Qed.

Lemma valid_upload_request_witness :
  ∃ headers,
    FileService.generatePresignedUploadUrl (H := Scripted.platform) Scripted.env
      Fixture.jpeg_request (Scripted.start Fixture.idle)
    = (Return {| uploadUrl := js "https://bucket.example/signed";
                 uploadMethod := "PUT";
                 upload_key := js "1700000000001-1700000000000-4fzyo82mv-test.jpg";
                 upload_expiresAt := 1700000000002 + 900 * 1000;
                 fileId := Some (js "1700000000000-4fzyo82mv") |},
       @Build_St Scripted.platform
         {| Scripted.clock := []; Scripted.draws := []; Scripted.heads := [];
            Scripted.listing := Fixture.no_objects |}
         [sign_put_call Scripted.env
            (js "1700000000001-1700000000000-4fzyo82mv-test.jpg") (js "image/jpeg")
            headers (Some (num 1024))]).
Proof.
  eexists.
  refine (proj1 (valid_upload_request_is_issued_a_url (H := Scripted.platform)
                   Scripted.env Fixture.jpeg_request _ (js "https://bucket.example/signed")
                   {| Scripted.clock := [1700000000002]; Scripted.draws := [];
                      Scripted.heads := []; Scripted.listing := Fixture.no_objects |}
                   (Scripted.start Fixture.idle) _ _ _ _)).
  - apply includes_true_iff. by vm_compute.
  - intros n [= <-]. by vm_compute.
  - reflexivity.
  - reflexivity.
Defined.

(** X18. A filename that [encodeURIComponent] rejects (one with an
    unpaired surrogate) makes the upload flow fail with [S3Error]
    around the [URIError], although content type and size are valid;
    nothing is handed to the signer. *)
Theorem unencodable_filename_fails_before_signing `{Platform} (env : Env)
    (request : PresignUploadRequest) (st : St) :
  contentType request ∈ config.allAllowedTypes env →
  (∀ n, size request = Some n → number_gt n (maxFileSize env) = false) →
  Builtins.encodeURIComponent (filename request) = None →
  ∃ st',
    FileService.generatePresignedUploadUrl env request st
    = (Throw (S3Error "Failed to generate presigned upload URL" URIError), st')
    ∧ calls st' = calls st.
Proof.
  intros Htype Hsize Hname. rewrite upload_flow_steps by done.
  rewrite (generatePresignedUploadUrl_encoding_fails _ _ _ _ _ URIError).
  - by eexists.
  - unfold S3Service.metadataHeaders. cbn [originalFilename FileService.with_originalFilename].
    destruct (filename request) as [|c f] eqn:Ef; [by vm_compute in Hname|].
    unfold S3Service.encoded, S3Service.truthy, S3Service.encodeURIComponent.
    by rewrite Hname.
Qed.

Lemma unencodable_filename_witness :
  ∃ st',
    FileService.generatePresignedUploadUrl (H := Scripted.platform) Scripted.env
      Sample.surrogate_request (Scripted.start Fixture.idle)
    = (Throw (S3Error "Failed to generate presigned upload URL" URIError), st')
    ∧ calls st' = [].
Proof.
  apply (unencodable_filename_fails_before_signing (H := Scripted.platform)
           Scripted.env Sample.surrogate_request (Scripted.start Fixture.idle)).
  - apply includes_true_iff. by vm_compute.
  - intros n Hn. discriminate Hn.
  - reflexivity.
Defined.

(** ** The upload routes *)

Lemma string_issues_empty path max255 : UploadRoute.string_issues path max255 [] ≠ [].
Proof. done. Qed.

Lemma string_issues_long path s :
  (255 < length s)%nat → UploadRoute.string_issues path true s ≠ [].
Proof.
  intros Hlen. unfold UploadRoute.string_issues. cbn [andb].
  apply Nat.ltb_lt in Hlen as ->. by destruct (_ <? 1)%nat.
Qed.

Lemma size_issues_nil n :
  UploadRoute.size_issues n = [] →
  Number_isInteger n = true ∧ number_gt n (num 0) = true.
Proof.
  unfold UploadRoute.size_issues.
  destruct n as [| | |q]; try done; intros [E1 E2]%app_eq_nil;
    destruct (Number_isInteger _), (number_gt _ _); done.
Qed.

Lemma validate_passes `{Platform} issues st o st' :
  UploadRoute.validate issues st = (o, st') →
  match o with
  | Return _ => issues = [] ∧ st' = st
  | Throw e => issues ≠ [] ∧ e = ValidationError (ValidationFailed issues) ∧ st' = st
  end.
Proof.
  unfold UploadRoute.validate. destruct issues as [|i issues]; by intros [= <- <-].
Qed.

(** X19. [POST /upload/presign] rejects, with a [ValidationError] and
    before anything else happens, a body whose filename is empty or
    longer than 255 characters, whose content type is empty, or whose
    size is not a positive integer. *)
Theorem presign_route_rejects_malformed_bodies `{Platform} (env : Env)
    (user : option jsstring) (body : PresignUploadRequest) (st : St) :
  filename body = [] ∨ (255 < length (filename body))%nat ∨ contentType body = []
  ∨ (∃ n, size body = Some n
          ∧ (Number_isInteger n = false ∨ number_gt n (num 0) = false)) →
  ∃ details,
    details ≠ []
    ∧ UploadRoute.POST_upload_presign env user body st
      = (Throw (ValidationError (ValidationFailed details)), st).
Proof.
  intros Hbad. exists (UploadRoute.presignUploadSchema_issues body).
  assert (Hissues : UploadRoute.presignUploadSchema_issues body ≠ []).
  { unfold UploadRoute.presignUploadSchema_issues.
    intros [E1 [E2 E3]%app_eq_nil]%app_eq_nil.
    destruct Hbad as [Hf|[Hf|[Hc|(n & Hn & Hbad)]]].
    - rewrite Hf in E1. by apply string_issues_empty in E1.
    - by apply string_issues_long in E1.
    - rewrite Hc in E2. by apply string_issues_empty in E2.
    - rewrite Hn in E3. apply size_issues_nil in E3 as [Hint Hpos].
      destruct Hbad; congruence. }
  split; [done|].
  unfold UploadRoute.POST_upload_presign, bind, UploadRoute.validate.
  by destruct (UploadRoute.presignUploadSchema_issues body).
Qed.

Lemma presign_route_rejects_witness :
  ∃ details,
    details ≠ []
    ∧ UploadRoute.POST_upload_presign (H := Scripted.platform) Scripted.env None
        {| filename := []; contentType := js "image/jpeg"; size := Some (num 0);
           metadata := None |}
        (Scripted.start Fixture.idle)
      = (Throw (ValidationError (ValidationFailed details)), Scripted.start Fixture.idle).
Proof.
  apply (presign_route_rejects_malformed_bodies (H := Scripted.platform)).
  left. reflexivity.
Defined.

(** X20. Every upload URL that [POST /upload/presign] issues for a
    body with a size is signed with that size as [ContentLength]: the
    schema admits only positive sizes, so the guard on the size never
    drops it, and the size is within the configured limit. *)
Theorem routed_size_is_signed_as_ContentLength `{Platform} (env : Env)
    (user : option jsstring) (body : PresignUploadRequest) (n : number)
    (st st' : St) (response : PresignUploadResponse) :
  UploadRoute.POST_upload_presign env user body st = (Return response, st') →
  size body = Some n →
  ∃ input,
    calls st' = calls st ++ [Sign (PutObjectCommand input) (PRESIGN_EXPIRY_SECONDS env)]
    ∧ input !! "ContentLength" = Some (VNumber n)
    ∧ number_gt n (num 0) = true
    ∧ number_gt n (maxFileSize env) = false.
Proof.
  intros Hrun Hn. revert Hrun. unfold UploadRoute.POST_upload_presign, bind.
  destruct (UploadRoute.validate _ st) as [[[]|e] st1] eqn:Hv; [|done].
  apply validate_passes in Hv as [Hissues ->].
  unfold UploadController.generatePresignedUrl. intros Hrun.
  apply upload_flow_returns in Hrun as (_ & Hsize & headers & _ & Hcalls).
  assert (size (UploadController.presign_request user body) = Some n) as Hn'.
  { unfold UploadController.presign_request.
    destruct (S3Service.truthy user);
      [destruct (S3Service.truthy (UploadController.metadata_userId (metadata body)))|];
      done. }
  assert (number_gt n (num 0) = true) as Hpos.
  { unfold UploadRoute.presignUploadSchema_issues in Hissues. rewrite Hn in Hissues.
    apply app_eq_nil in Hissues as [_ [_ E]%app_eq_nil].
    by apply size_issues_nil in E as [_ ?]. }
  rewrite Hn' in Hcalls. eexists. split; [exact Hcalls|].
  split; [|split; [done|by apply Hsize]].
  by apply put_input_ContentLength, positive_truthy.
Qed.

Lemma routed_size_witness :
  ∃ input,
    calls (UploadRoute.POST_upload_presign (H := Scripted.platform) Scripted.env None
             Fixture.jpeg_request (Scripted.start Fixture.idle)).2
    = [Sign (PutObjectCommand input) 900]
    ∧ input !! "ContentLength" = Some (VNumber (num 1024)).
Proof.
  destruct (UploadRoute.POST_upload_presign (H := Scripted.platform) Scripted.env None
              Fixture.jpeg_request (Scripted.start Fixture.idle))
    as [[response|e] st'] eqn:E; [|by vm_compute in E].
  destruct (routed_size_is_signed_as_ContentLength (H := Scripted.platform)
              Scripted.env None Fixture.jpeg_request (num 1024) _ _ _ E eq_refl)
    as (input & Hcalls & Hlength & _).
  exists input. split; [exact Hcalls|exact Hlength].
Defined.

Lemma presign_request_userId user request :
  S3Service.truthy
    (userId
       (FileService.with_originalFilename
          (metadata (UploadController.presign_request user request))
          (filename (UploadController.presign_request user request))))
  = effective_userId user request.
Proof.
  destruct user as [[|c u]|],
    request as [f ct sz [[[[|c' u']|] name tags public description ext]|]];
    reflexivity.
Qed.

(** X21. The user id stored with an upload is the one the client sent
    in the metadata when that is not empty, and only otherwise the id
    of the authenticated user; when there is neither, no user id header
    is signed.  The controller never replaces a user id that the client
    supplied. *)
Theorem client_user_id_takes_precedence `{Platform} (env : Env)
    (user : option jsstring) (request : PresignUploadRequest) (st st' : St)
    (response : PresignUploadResponse) :
  UploadController.generatePresignedUrl env user request st = (Return response, st') →
  ∃ input,
    calls st' = calls st ++ [Sign (PutObjectCommand input) (PRESIGN_EXPIRY_SECONDS env)]
    ∧ input !! "x-amz-meta-user-id" = VString <$> effective_userId user request.
Proof.
  unfold UploadController.generatePresignedUrl. intros Hrun.
  apply upload_flow_returns in Hrun as (_ & _ & headers & Hh & Hcalls).
  eexists. split; [exact Hcalls|].
  rewrite (put_input_metadata_header env _ _ _ headers _ _ Hh)
    by (unfold metadata_header_names; apply elem_of_cons; by left).
  f_equal. rewrite (metadataHeaders_user_id _ _ Hh).
  apply presign_request_userId.
Qed.

Lemma client_user_id_witness :
  ∃ input,
    calls (UploadController.generatePresignedUrl (H := Scripted.platform) Scripted.env
             (Some (js "user123")) Sample.other_user_request
             (Scripted.start Fixture.idle)).2
    = [Sign (PutObjectCommand input) 900]
    ∧ input !! "x-amz-meta-user-id" = Some (VString (js "someone-else")).
Proof.
  destruct (UploadController.generatePresignedUrl (H := Scripted.platform) Scripted.env
              (Some (js "user123")) Sample.other_user_request
              (Scripted.start Fixture.idle))
    as [[response|e] st'] eqn:E; [|by vm_compute in E].
  destruct (client_user_id_takes_precedence (H := Scripted.platform)
              Scripted.env _ _ _ _ _ E) as (input & Hcalls & Huser).
  exists input. split; [exact Hcalls|exact Huser].
Defined.

(** ** Authentication and the guarded route *)

Lemma strip_prefix_Some p s rest : strip_prefix p s = Some rest → s = p ++ rest.
Proof.
  revert s. induction p as [|a p IH]; intros s; [by intros [= ->]|].
  destruct s as [|b s]; [done|]. cbn.
  destruct (N.eqb_spec a b) as [->|]; [|done]. intros E%IH. by rewrite E.
Qed.

Lemma bearer_token_Some authHeader token :
  Auth.bearer_token authHeader = Some token ↔ authHeader = Some (js "Bearer " ++ token).
Proof.
  split.
  - destruct authHeader as [[|c h]|]; [done| |done].
    intros E%strip_prefix_Some. by rewrite E.
  - intros ->. exact (strip_prefix_app (js "Bearer ") token).
Qed.

(** X22. [authenticate] and [optionalAuthenticate] recognise the same
    user: the first lets a request pass exactly when the second sets a
    user, which is when the authorization header is ["Bearer "] followed
    by a token that the verification accepts, and the user is the payload
    of that token.  Every other request is refused by [authenticate] with
    one of its two messages and left without a user by
    [optionalAuthenticate]. *)
Theorem middlewares_recognise_the_same_user
    (jwt_verify : jsstring → option Auth.JwtPayload) (authHeader : option jsstring) :
  match Auth.authenticate jwt_verify authHeader with
  | Auth.Authenticated user =>
      Auth.optionalAuthenticate jwt_verify authHeader = Some user
      ∧ ∃ token, authHeader = Some (js "Bearer " ++ token)
                 ∧ jwt_verify token = Some user
  | Auth.Unauthorized message =>
      Auth.optionalAuthenticate jwt_verify authHeader = None
      ∧ (message = "Missing or invalid authorization header"%string
         ∨ message = "Invalid or expired token"%string)
  end.
Proof.
  unfold Auth.authenticate, Auth.optionalAuthenticate.
  destruct (Auth.bearer_token authHeader) as [token|] eqn:E; [|auto].
  destruct (jwt_verify token) as [user|] eqn:Ev; [|auto].
  split; [done|]. exists token. by apply bearer_token_Some in E.
Qed.

Section Guarded.
Context `{Platform}.
Variable env : Env.
Variable jwt_verify : jsstring → option Auth.JwtPayload.

Lemma DELETE_file_authenticated authHeader user key st :
  Auth.authenticate jwt_verify authHeader = Auth.Authenticated user →
  key ≠ [] →
  FileRoutes.DELETE_file env jwt_verify authHeader key st
  = match FileService.deleteFile env key st with
    | (Return _, st') =>
        (Return (FileRoutes.Passed
                   {| FileRoutes.delete_success := true;
                      FileRoutes.delete_message := "File deleted successfully";
                      FileRoutes.deleted_key := key |}), st')
    | (Throw e, st') => (Throw e, st')
    end.
Proof.
  intros Hauth Hkey. unfold FileRoutes.DELETE_file. rewrite Hauth.
  destruct key as [|c key]; [done|].
  unfold FileRoutes.key_issues, UploadRoute.string_issues. cbn [length Nat.ltb Nat.leb andb app].
  unfold UploadRoute.validate. unfold bind at 1, ret.
  unfold FileRoutes.controller_deleteFile. unfold bind at 1 2.
  by destruct (FileService.deleteFile env (c :: key) st) as [[[]|e] st'].
Qed.

End Guarded.

(** X23. [DELETE /files/:key] without a header that [authenticate]
    accepts (no header, no ["Bearer "] prefix, or a token that fails
    verification) is refused before the key is looked at: the store
    receives no request and the state is unchanged. *)
Theorem unauthenticated_delete_reaches_no_store `{Platform} (env : Env)
    (jwt_verify : jsstring → option Auth.JwtPayload) (authHeader : option jsstring)
    (key : jsstring) (st : St) :
  (∀ token, authHeader = Some (js "Bearer " ++ token) → jwt_verify token = None) →
  ∃ message,
    FileRoutes.DELETE_file env jwt_verify authHeader key st
    = (Return (FileRoutes.Rejected message), st).
Proof.
  intros Hno. unfold FileRoutes.DELETE_file, Auth.authenticate.
  destruct (Auth.bearer_token authHeader) as [token|] eqn:E; [|by eexists].
  apply bearer_token_Some in E. rewrite (Hno token E). by eexists.
Qed.

Lemma unauthenticated_delete_witness :
  ∃ message,
    FileRoutes.DELETE_file (H := Scripted.platform) Scripted.env Sample.jwt_verify
      (Some (js "Bearer forged")) (js "some-key") (Scripted.start Sample.with_object)
    = (Return (FileRoutes.Rejected message), Scripted.start Sample.with_object).
Proof.
  apply (unauthenticated_delete_reaches_no_store (H := Scripted.platform)).
  intros token [= <-]. reflexivity.
Defined.

(** X24. Any authenticated user can delete any existing file: when the
    header is accepted, the key is not empty, the existence check finds
    the object and the store accepts the deletion, [DELETE /files/:key]
    deletes the object and answers with success, whoever the
    authenticated user is and whichever user id is stored with the
    object. *)
Theorem any_authenticated_user_can_delete `{Platform} (env : Env)
    (jwt_verify : jsstring → option Auth.JwtPayload) (authHeader : option jsstring)
    (user : Auth.JwtPayload) (key : jsstring) (st st1 : St)
    (info : S3Service.FileInfo) (w : World) :
  Auth.authenticate jwt_verify authHeader = Auth.Authenticated user →
  key ≠ [] →
  S3Service.getFileMetadata env key st = (Return info, st1) →
  S3Service.exists_ info = true →
  send_delete (S3Service.object_input env (config.prefix env ++ key)) (world st1)
  = (inr (), w) →
  FileRoutes.DELETE_file env jwt_verify authHeader key st
  = (Return (FileRoutes.Passed
               {| FileRoutes.delete_success := true;
                  FileRoutes.delete_message := "File deleted successfully";
                  FileRoutes.deleted_key := key |}),
     {| world := w;
        calls := calls st ++ [head_call env key; delete_call env key] |}).
Proof.
  intros Hauth Hkey Hcheck Hexists Hdelete.
  rewrite (DELETE_file_authenticated env jwt_verify authHeader user) by done.
  unfold FileService.deleteFile, bind. rewrite Hcheck, Hexists. cbn [negb].
  rewrite S3_deleteFile_run, Hdelete. cbn [fst snd].
  apply getFileMetadata_calls in Hcheck as ->. by rewrite <- app_assoc.
Qed.

Lemma any_authenticated_user_witness :
  S3Service.info_metadata
    (match S3Service.getFileMetadata (H := Scripted.platform) Scripted.env
             (js "some-key") (Scripted.start Sample.with_object) with
     | (Return info, _) => info
     | (Throw _, _) =>
         {| S3Service.exists_ := false; S3Service.info_contentType := None;
            S3Service.info_size := None; S3Service.info_metadata := None;
            S3Service.info_lastModified := None |}
     end)
  = Some {| userId := Some (js "owner456"); originalFilename := None; tags := None;
            isPublic := Some false; description := None; extension := ∅ |}
  ∧ Auth.user_id (Auth.optionalAuthenticate Sample.jwt_verify (Some (js "Bearer good")))
    = Some (js "user123")
  ∧ FileRoutes.DELETE_file (H := Scripted.platform) Scripted.env Sample.jwt_verify
      (Some (js "Bearer good")) (js "some-key") (Scripted.start Sample.with_object)
    = (Return (FileRoutes.Passed
                 {| FileRoutes.delete_success := true;
                    FileRoutes.delete_message := "File deleted successfully";
                    FileRoutes.deleted_key := js "some-key" |}),
       @Build_St Scripted.platform
         {| Scripted.clock := [1700000000000; 1700000000001]; Scripted.draws := [];
            Scripted.heads := []; Scripted.listing := Fixture.no_objects |}
         [head_call Scripted.env (js "some-key");
          delete_call Scripted.env (js "some-key")]).
Proof.
  split; [by vm_compute|]. split; [reflexivity|].
  destruct (S3Service.getFileMetadata (H := Scripted.platform) Scripted.env
              (js "some-key") (Scripted.start Sample.with_object))
    as [[info|e] st1] eqn:E; [|by vm_compute in E].
  assert (Hexists : S3Service.exists_ info = true).
  { vm_compute in E. by injection E as <- <-. }
  assert (Hworld : world st1
                   = {| Scripted.clock := [1700000000000; 1700000000001];
                        Scripted.draws := []; Scripted.heads := [];
                        Scripted.listing := Fixture.no_objects |}).
  { vm_compute in E. by injection E as <- <-. }
  rewrite (any_authenticated_user_can_delete (H := Scripted.platform) Scripted.env
             Sample.jwt_verify (Some (js "Bearer good"))
             {| Auth.payload_userId := Some (js "user123");
                Auth.payload_email := Some (js "test@example.com") |}
             (js "some-key") (Scripted.start Sample.with_object) st1 info
             {| Scripted.clock := [1700000000000; 1700000000001];
                Scripted.draws := []; Scripted.heads := [];
                Scripted.listing := Fixture.no_objects |});
    [reflexivity|reflexivity|done|exact E|exact Hexists|].
  cbn [send_delete Scripted.platform Scripted.send_delete]. by rewrite Hworld.
Defined.

(** X25. [GET /files/:key/presign] needs no credentials and does not
    look at the stored public flag: for every authorization header, also
    none, a key that is not empty and that the existence check finds is
    answered with the signed URL whenever the signer returns one and the
    expiry is a date in range.  The expiry is the time of the local wall
    clock [PRESIGN_GET_EXPIRY_SECONDS] seconds after the local time of
    the clock reading taken after signing. *)
Theorem retrieval_needs_no_credentials `{Platform} (env : Env)
    (jwt_verify : jsstring → option Auth.JwtPayload) (authHeader : option jsstring)
    (key url : jsstring) (st st1 : St) (info : S3Service.FileInfo) (w : World) :
  let now := (Date_now w).1 in
  let seconds := PRESIGN_GET_EXPIRY_SECONDS env in
  let local := (Z.of_N now + LocalTZA (Z.of_N now) true + Z.of_N seconds * 1000)%Z in
  let expiresAt := (local - LocalTZA local false)%Z in
  key ≠ [] →
  S3Service.getFileMetadata env key st = (Return info, st1) →
  S3Service.exists_ info = true →
  getSignedUrl
    (GetObjectCommand (S3Service.object_input env (config.prefix env ++ key)))
    (PRESIGN_GET_EXPIRY_SECONDS env) (world st1)
  = (inr url, w) →
  is_time_value expiresAt = true →
  FileRoutes.GET_file_presign env jwt_verify authHeader key st
  = (Return {| get_url := url; get_expiresAt := expiresAt |},
     {| world := (Date_now w).2;
        calls := calls st ++ [head_call env key; sign_get_call env key] |}).
Proof.
  intros now seconds local expiresAt Hkey Hcheck Hexists Hsign Hrange.
  unfold FileRoutes.GET_file_presign.
  destruct key as [|c key]; [done|].
  unfold FileRoutes.key_issues, UploadRoute.string_issues.
  cbn [length Nat.ltb Nat.leb andb app]. unfold UploadRoute.validate.
  unfold bind at 1, ret.
  rewrite (generatePresignedGetUrl_found env _ st st1 info Hcheck Hexists).
  rewrite Hsign. cbn [fst snd]. fold now seconds.
  change (wall_clock_plus now seconds) with expiresAt. by rewrite Hrange.
Qed.

Lemma retrieval_needs_no_credentials_witness :
  FileRoutes.GET_file_presign (H := Scripted.platform) Scripted.env Sample.jwt_verify
    None (js "some-key") (Scripted.start Sample.with_object)
  = (Return {| get_url := js "https://bucket.example/signed";
               get_expiresAt := 1700000000000 + 3600 * 1000 |},
     @Build_St Scripted.platform
       {| Scripted.clock := [1700000000001]; Scripted.draws := [];
          Scripted.heads := []; Scripted.listing := Fixture.no_objects |}
       [head_call Scripted.env (js "some-key");
        sign_get_call Scripted.env (js "some-key")]).
Proof.
  destruct (S3Service.getFileMetadata (H := Scripted.platform) Scripted.env
              (js "some-key") (Scripted.start Sample.with_object))
    as [[info|e] st1] eqn:E; [|by vm_compute in E].
  assert (Hexists : S3Service.exists_ info = true).
  { vm_compute in E. by injection E as <- <-. }
  assert (Hworld : world st1
                   = {| Scripted.clock := [1700000000000; 1700000000001];
                        Scripted.draws := []; Scripted.heads := [];
                        Scripted.listing := Fixture.no_objects |}).
  { vm_compute in E. by injection E as <- <-. }
  rewrite (retrieval_needs_no_credentials (H := Scripted.platform) Scripted.env
             Sample.jwt_verify None (js "some-key") (js "https://bucket.example/signed")
             (Scripted.start Sample.with_object) st1 info
             {| Scripted.clock := [1700000000000; 1700000000001];
                Scripted.draws := []; Scripted.heads := [];
                Scripted.listing := Fixture.no_objects |});
    [reflexivity|done|exact E|exact Hexists| |reflexivity].
  cbn [getSignedUrl Scripted.platform Scripted.getSignedUrl]. by rewrite Hworld.
Defined.

Lemma metadataHeaders_original_filename (m : FileMetadata) headers c f :
  S3Service.metadataHeaders (Some m) = Return headers →
  originalFilename m = Some (c :: f) →
  ∃ e, Builtins.encodeURIComponent (c :: f) = Some e
       ∧ headers !! "x-amz-meta-original-filename" = Some e.
Proof.
  unfold S3Service.metadataHeaders. intros Hh Hname. revert Hh. rewrite Hname.
  destruct (S3Service.encoded (Some (c :: f))) as [o|] eqn:Eenc; [|done].
  assert (∃ e, o = Some e ∧ Builtins.encodeURIComponent (c :: f) = Some e)
    as (e & -> & He).
  { revert Eenc. unfold S3Service.encoded, S3Service.encodeURIComponent.
    cbn [S3Service.truthy].
    destruct (Builtins.encodeURIComponent (c :: f)) as [e|]; [|done].
    intros [= <-]. by exists e. }
  cbn [obind].
  destruct (S3Service.encoded (description m)) as [d|]; [|done]. cbn [obind].
  intros [= <-]. exists e. split; [done|].
  rewrite !lookup_set_if_present_ne by done. apply lookup_insert_eq.
Qed.

(** X26. The key of an upload has the sanitized filename, the signed
    headers have the filename as sent: every upload URL issued for a
    filename that is well-formed UTF-16 is signed with the header
    [x-amz-meta-original-filename] holding the percent-encoding of the
    filename of the request, which [decodeURIComponent] turns back into
    that filename.  An [originalFilename] in the client's metadata is
    overwritten. *)
Theorem signed_upload_keeps_the_filename_as_sent `{Platform} (env : Env)
    (request : PresignUploadRequest) (st st' : St) (response : PresignUploadResponse) :
  FileService.generatePresignedUploadUrl env request st = (Return response, st') →
  filename request ≠ [] →
  well_formed (filename request) = true →
  ∃ input e,
    calls st' = calls st ++ [Sign (PutObjectCommand input) (PRESIGN_EXPIRY_SECONDS env)]
    ∧ input !! "x-amz-meta-original-filename" = Some (VString e)
    ∧ Builtins.encodeURIComponent (filename request) = Some e
    ∧ Builtins.decodeURIComponent e = Some (filename request).
Proof.
  intros Hrun Hne Hwf.
  apply upload_flow_returns in Hrun as (_ & _ & headers & Hh & Hcalls).
  destruct (filename request) as [|c f] eqn:Ef; [done|].
  destruct (metadataHeaders_original_filename _ headers c f Hh eq_refl)
    as (e & He & Hlookup).
  destruct (decodeURIComponent_encodeURIComponent (c :: f) Hwf) as (e' & He' & Hd & _).
  assert (e' = e) as -> by congruence.
  eexists _, e. split; [exact Hcalls|]. split; [|done].
  rewrite (put_input_metadata_header env _ _ _ headers _ _ Hh), Hlookup; [done|].
  unfold metadata_header_names. rewrite !elem_of_cons. auto.
Qed.

Lemma signed_upload_keeps_the_filename_witness :
  ∃ input e,
    calls (FileService.generatePresignedUploadUrl (H := Scripted.platform) Scripted.env
             {| filename := js "my photo.jpg"; contentType := js "image/jpeg";
                size := None;
                metadata :=
                  Some {| userId := None; originalFilename := Some (js "other.png");
                          tags := None; isPublic := None; description := None;
                          extension := ∅ |} |}
             (Scripted.start Fixture.idle)).2
    = [Sign (PutObjectCommand input) 900]
    ∧ input !! "x-amz-meta-original-filename" = Some (VString e)
    ∧ Builtins.decodeURIComponent e = Some (js "my photo.jpg").
Proof.
  destruct (FileService.generatePresignedUploadUrl (H := Scripted.platform) Scripted.env
              {| filename := js "my photo.jpg"; contentType := js "image/jpeg";
                 size := None;
                 metadata :=
                   Some {| userId := None; originalFilename := Some (js "other.png");
                           tags := None; isPublic := None; description := None;
                           extension := ∅ |} |}
              (Scripted.start Fixture.idle))
    as [[response|e] st'] eqn:E; [|by vm_compute in E].
  destruct (signed_upload_keeps_the_filename_as_sent (H := Scripted.platform)
              Scripted.env _ _ _ _ E) as (input & e & Hcalls & Hheader & _ & Hdecode).
  - done.
  - reflexivity.
  - exists input, e. split; [exact Hcalls|]. split; [exact Hheader|exact Hdecode].
Defined.

